(** * Chip8CPU: a shallow embedding of the CHIP-8 core of chatgptpj64.py

    The interpreter core ([Chip8CPU] in the Python source) is embedded as
    functions over an explicit machine record.  Python lists are modelled
    as Rocq lists with Python's indexing rules (negative indices count from
    the end, an index out of range raises [IndexError], a slice assignment
    never raises and may change the length).  A raised [IndexError] keeps
    the mutations done before it, so the outcome of a method carries the
    machine as it was left. *)

From Stdlib Require Import ZArith List Lia Bool.
From Stdlib Require Strings.String.
From stdpp Require Import base numbers list.
Import ListNotations.
Import String.StringSyntax.
Delimit Scope string_scope with string.
Local Open Scope Z_scope.

(** ** Python list primitives *)

Module Py.

(** [l[i]]: the position an index denotes, if any. *)
Definition index (len i : Z) : option nat :=
  if (0 <=? i) && (i <? len) then Some (Z.to_nat i)
  else if (- len <=? i) && (i <? 0) then Some (Z.to_nat (len + i))
  else None.

Definition getitem {A} (l : list A) (i : Z) : option A :=
  match index (Z.of_nat (length l)) i with
  | Some k => l !! k
  | None => None
  end.

Definition setitem {A} (l : list A) (i : Z) (v : A) : option (list A) :=
  match index (Z.of_nat (length l)) i with
  | Some k => Some (<[k:=v]> l)
  | None => None
  end.

(** Bounds of a slice [l[lo:hi]] are clamped, never rejected. *)
Definition clamp (len i : Z) : Z :=
  if i <? 0 then Z.max (i + len) 0 else Z.min i len.

(** [l[lo:hi] = new] *)
Definition setslice {A} (l : list A) (lo hi : Z) (new : list A) : list A :=
  let len := Z.of_nat (length l) in
  let a := clamp len lo in
  let b := Z.max a (clamp len hi) in
  take (Z.to_nat a) l ++ new ++ drop (Z.to_nat b) l.

(** [range(n)] *)
Definition range (n : Z) : list Z := map Z.of_nat (seq 0 (Z.to_nat n)).

(** Truth value of an integer in a condition. *)
Definition truthy (z : Z) : bool := negb (z =? 0).

(** [enumerate(l)] *)
Definition enumerate {A} (l : list A) : list (Z * A) :=
  combine (range (Z.of_nat (length l))) l.

End Py.

(** ** Constants *)

Definition FONTSET : list Z :=
  [ 0xF0; 0x90; 0x90; 0x90; 0xF0;
    0x20; 0x60; 0x20; 0x20; 0x70;
    0xF0; 0x10; 0xF0; 0x80; 0xF0;
    0xF0; 0x10; 0xF0; 0x10; 0xF0;
    0x90; 0x90; 0xF0; 0x10; 0x10;
    0xF0; 0x80; 0xF0; 0x10; 0xF0;
    0xF0; 0x80; 0xF0; 0x90; 0xF0;
    0xF0; 0x10; 0x20; 0x40; 0x40;
    0xF0; 0x90; 0xF0; 0x90; 0xF0;
    0xF0; 0x90; 0xF0; 0x10; 0xF0;
    0xF0; 0x90; 0xF0; 0x90; 0x90;
    0xE0; 0x90; 0xE0; 0x90; 0xE0;
    0xF0; 0x80; 0x80; 0x80; 0xF0;
    0xE0; 0x90; 0x90; 0x90; 0xE0;
    0xF0; 0x80; 0xF0; 0x80; 0xF0;
    0xF0; 0x80; 0xF0; 0x80; 0x80 ].

(** ** The machine *)

Module Chip8CPU.

Record cpu : Type := mkCpu {
  memory : list Z;
  V : list Z;
  I : Z;
  PC : Z;
  SP : Z;
  stack : list Z;
  delay_timer : Z;
  sound_timer : Z;
  display : list (list Z);
  keys : list Z;
  draw_flag : bool;
  sound_flag : bool;
  waiting_for_key : bool;
  key_register : Z;
  shift_quirk : bool;
  increment_i : bool;
  max_pc : Z
}.

Definition set_memory (v : list Z) (s : cpu) : cpu :=
  mkCpu v (V s) (I s) (PC s) (SP s) (stack s) (delay_timer s) (sound_timer s)
    (display s) (keys s) (draw_flag s) (sound_flag s) (waiting_for_key s)
    (key_register s) (shift_quirk s) (increment_i s) (max_pc s).
Definition set_V (v : list Z) (s : cpu) : cpu :=
  mkCpu (memory s) v (I s) (PC s) (SP s) (stack s) (delay_timer s) (sound_timer s)
    (display s) (keys s) (draw_flag s) (sound_flag s) (waiting_for_key s)
    (key_register s) (shift_quirk s) (increment_i s) (max_pc s).
Definition set_I (v : Z) (s : cpu) : cpu :=
  mkCpu (memory s) (V s) v (PC s) (SP s) (stack s) (delay_timer s) (sound_timer s)
    (display s) (keys s) (draw_flag s) (sound_flag s) (waiting_for_key s)
    (key_register s) (shift_quirk s) (increment_i s) (max_pc s).
Definition set_PC (v : Z) (s : cpu) : cpu :=
  mkCpu (memory s) (V s) (I s) v (SP s) (stack s) (delay_timer s) (sound_timer s)
    (display s) (keys s) (draw_flag s) (sound_flag s) (waiting_for_key s)
    (key_register s) (shift_quirk s) (increment_i s) (max_pc s).
Definition set_SP (v : Z) (s : cpu) : cpu :=
  mkCpu (memory s) (V s) (I s) (PC s) v (stack s) (delay_timer s) (sound_timer s)
    (display s) (keys s) (draw_flag s) (sound_flag s) (waiting_for_key s)
    (key_register s) (shift_quirk s) (increment_i s) (max_pc s).
Definition set_stack (v : list Z) (s : cpu) : cpu :=
  mkCpu (memory s) (V s) (I s) (PC s) (SP s) v (delay_timer s) (sound_timer s)
    (display s) (keys s) (draw_flag s) (sound_flag s) (waiting_for_key s)
    (key_register s) (shift_quirk s) (increment_i s) (max_pc s).
Definition set_delay_timer (v : Z) (s : cpu) : cpu :=
  mkCpu (memory s) (V s) (I s) (PC s) (SP s) (stack s) v (sound_timer s)
    (display s) (keys s) (draw_flag s) (sound_flag s) (waiting_for_key s)
    (key_register s) (shift_quirk s) (increment_i s) (max_pc s).
Definition set_sound_timer (v : Z) (s : cpu) : cpu :=
  mkCpu (memory s) (V s) (I s) (PC s) (SP s) (stack s) (delay_timer s) v
    (display s) (keys s) (draw_flag s) (sound_flag s) (waiting_for_key s)
    (key_register s) (shift_quirk s) (increment_i s) (max_pc s).
Definition set_display (v : list (list Z)) (s : cpu) : cpu :=
  mkCpu (memory s) (V s) (I s) (PC s) (SP s) (stack s) (delay_timer s) (sound_timer s)
    v (keys s) (draw_flag s) (sound_flag s) (waiting_for_key s)
    (key_register s) (shift_quirk s) (increment_i s) (max_pc s).
Definition set_keys (v : list Z) (s : cpu) : cpu :=
  mkCpu (memory s) (V s) (I s) (PC s) (SP s) (stack s) (delay_timer s) (sound_timer s)
    (display s) v (draw_flag s) (sound_flag s) (waiting_for_key s)
    (key_register s) (shift_quirk s) (increment_i s) (max_pc s).
Definition set_draw_flag (v : bool) (s : cpu) : cpu :=
  mkCpu (memory s) (V s) (I s) (PC s) (SP s) (stack s) (delay_timer s) (sound_timer s)
    (display s) (keys s) v (sound_flag s) (waiting_for_key s)
    (key_register s) (shift_quirk s) (increment_i s) (max_pc s).
Definition set_sound_flag (v : bool) (s : cpu) : cpu :=
  mkCpu (memory s) (V s) (I s) (PC s) (SP s) (stack s) (delay_timer s) (sound_timer s)
    (display s) (keys s) (draw_flag s) v (waiting_for_key s)
    (key_register s) (shift_quirk s) (increment_i s) (max_pc s).
Definition set_waiting_for_key (v : bool) (s : cpu) : cpu :=
  mkCpu (memory s) (V s) (I s) (PC s) (SP s) (stack s) (delay_timer s) (sound_timer s)
    (display s) (keys s) (draw_flag s) (sound_flag s) v
    (key_register s) (shift_quirk s) (increment_i s) (max_pc s).
Definition set_key_register (v : Z) (s : cpu) : cpu :=
  mkCpu (memory s) (V s) (I s) (PC s) (SP s) (stack s) (delay_timer s) (sound_timer s)
    (display s) (keys s) (draw_flag s) (sound_flag s) (waiting_for_key s)
    v (shift_quirk s) (increment_i s) (max_pc s).

(** *** Outcomes and the method monad *)

(** A method either returns a value, or raises [IndexError]; both leave a
    machine behind. *)
Inductive outcome (A : Type) : Type :=
| Ok (a : A) (s : cpu)
| IndexError (s : cpu).
Arguments Ok {A} a s.
Arguments IndexError {A} s.

Definition M (A : Type) : Type := cpu -> outcome A.

Definition ret {A} (a : A) : M A := fun s => Ok a s.

Definition bind {A B} (m : M A) (k : A -> M B) : M B :=
  fun s => match m s with
           | Ok a s' => k a s'
           | IndexError s' => IndexError s'
           end.

Notation "x <- m ;; k" := (bind m (fun x => k))
  (at level 100, m at next level, right associativity).
Notation "m ;; k" := (bind m (fun _ => k))
  (at level 100, right associativity).

Definition gets {A} (f : cpu -> A) : M A := fun s => Ok (f s) s.
Definition modify (f : cpu -> cpu) : M unit := fun s => Ok tt (f s).

(** Value of a subscript expression, raising when it has none. *)
Definition subscript {A} (o : option A) : M A :=
  fun s => match o with Some a => Ok a s | None => IndexError s end.

Fixpoint for_each {A} (l : list A) (body : A -> M unit) : M unit :=
  match l with
  | [] => ret tt
  | a :: l' => body a ;; for_each l' body
  end.

(** The machine an outcome leaves, and whether it returned. *)
Definition final {A} (o : outcome A) : cpu :=
  match o with Ok _ s => s | IndexError s => s end.
Definition returned {A} (o : outcome A) : bool :=
  match o with Ok _ _ => true | IndexError _ => false end.

(** *** Attribute and subscript accesses *)

Definition get_V (i : Z) : M Z :=
  l <- gets V ;; subscript (Py.getitem l i).
Definition put_V (i v : Z) : M unit :=
  l <- gets V ;; l' <- subscript (Py.setitem l i v) ;; modify (set_V l').
Definition get_mem (i : Z) : M Z :=
  l <- gets memory ;; subscript (Py.getitem l i).
Definition put_mem (i v : Z) : M unit :=
  l <- gets memory ;; l' <- subscript (Py.setitem l i v) ;; modify (set_memory l').
Definition get_stack (i : Z) : M Z :=
  l <- gets stack ;; subscript (Py.getitem l i).
Definition put_stack (i v : Z) : M unit :=
  l <- gets stack ;; l' <- subscript (Py.setitem l i v) ;; modify (set_stack l').
Definition get_key (i : Z) : M Z :=
  l <- gets keys ;; subscript (Py.getitem l i).
Definition put_key (i v : Z) : M unit :=
  l <- gets keys ;; l' <- subscript (Py.setitem l i v) ;; modify (set_keys l').
(** [self.display[py][px]] *)
Definition get_pixel (py px : Z) : M Z :=
  d <- gets display ;; r <- subscript (Py.getitem d py) ;; subscript (Py.getitem r px).
(** [self.display[py][px] ^= 1]: the row object is updated in place. *)
Definition xor_pixel (py px : Z) : M unit :=
  d <- gets display ;;
  r <- subscript (Py.getitem d py) ;;
  p <- subscript (Py.getitem r px) ;;
  r' <- subscript (Py.setitem r px (Z.lxor p 1)) ;;
  d' <- subscript (Py.setitem d py r') ;;
  modify (set_display d').
(** [self.PC += d] *)
Definition add_PC (d : Z) : M unit := modify (fun s => set_PC (PC s + d) s).
Definition add_I (d : Z) : M unit := modify (fun s => set_I (I s + d) s).

Definition blank_display : list (list Z) := repeat (repeat 0 64%nat) 32%nat.

(** *** reset *)

Definition load_font : M unit :=
  for_each (Py.enumerate FONTSET) (fun '(i, b) => put_mem i b).

Definition reset : M unit :=
  modify (fun _ =>
    mkCpu (repeat 0 4096%nat) (repeat 0 16%nat) 0 0x200 0 (repeat 0 16%nat) 0 0
          blank_display (repeat 0 16%nat) false false false 0 true true 4094) ;;
  load_font.

(** *** load_rom *)

Definition load_rom (data : list Z) : M bool :=
  if Z.of_nat (length data) >? 3584 then ret false
  else
    reset ;;
    for_each (Py.enumerate data) (fun '(i, b) => put_mem (0x200 + i) b) ;;
    ret true.

(** *** execute

    [rnd] is the value [random.randint(0,255)] yields if the instruction
    asks for one. *)

Definition shift_operand (x y : Z) : M Z :=
  q <- gets shift_quirk ;; if q then get_V y else get_V x.

Definition draw_col (x y row sprite col : Z) : M unit :=
  if Py.truthy (Z.land sprite (Z.shiftr 0x80 col)) then
    vx <- get_V x ;;
    let px := (vx + col) mod 64 in
    vy <- get_V y ;;
    let py := (vy + row) mod 32 in
    p <- get_pixel py px ;;
    (if Py.truthy p then put_V 0xF 1 else ret tt) ;;
    xor_pixel py px
  else ret tt.

Definition draw_row (x y row : Z) : M unit :=
  i <- gets I ;;
  sprite <- get_mem (i + row) ;;
  for_each (Py.range 8) (draw_col x y row sprite).

Definition execute (rnd : Z) (opcode : Z) : M unit :=
  let nnn := Z.land opcode 0x0FFF in
  let nn := Z.land opcode 0x00FF in
  let n := Z.land opcode 0x000F in
  let x := Z.land (Z.shiftr opcode 8) 0xF in
  let y := Z.land (Z.shiftr opcode 4) 0xF in
  let op := Z.shiftr opcode 12 in
  if opcode =? 0x00E0 then
    modify (set_display blank_display) ;;
    modify (set_draw_flag true) ;;
    add_PC 2
  else if opcode =? 0x00EE then
    modify (fun s => set_SP (SP s - 1) s) ;;
    sp <- gets SP ;;
    a <- get_stack sp ;;
    modify (set_PC (a + 2))
  else if op =? 0x1 then
    modify (set_PC nnn)
  else if op =? 0x2 then
    sp <- gets SP ;;
    pc <- gets PC ;;
    put_stack sp pc ;;
    modify (fun s => set_SP (SP s + 1) s) ;;
    modify (set_PC nnn)
  else if op =? 0x3 then
    vx <- get_V x ;;
    add_PC (if vx =? nn then 4 else 2)
  else if op =? 0x4 then
    vx <- get_V x ;;
    add_PC (if negb (vx =? nn) then 4 else 2)
  else if (op =? 0x5) && (n =? 0) then
    vx <- get_V x ;;
    vy <- get_V y ;;
    add_PC (if vx =? vy then 4 else 2)
  else if op =? 0x6 then
    put_V x nn ;;
    add_PC 2
  else if op =? 0x7 then
    vx <- get_V x ;;
    put_V x (Z.land (vx + nn) 0xFF) ;;
    add_PC 2
  else if op =? 0x8 then
    (if n =? 0x6 then
       val <- shift_operand x y ;;
       put_V 0xF (Z.land val 1) ;;
       put_V x (Z.shiftr val 1)
     else if n =? 0xE then
       val <- shift_operand x y ;;
       put_V 0xF (Z.land (Z.shiftr val 7) 1) ;;
       put_V x (Z.land (Z.shiftl val 1) 0xFF)
     else if n =? 0x4 then
       vx <- get_V x ;;
       vy <- get_V y ;;
       let s := vx + vy in
       put_V x (Z.land s 0xFF) ;;
       put_V 0xF (if s >? 255 then 1 else 0)
     else if n =? 0x5 then
       vx <- get_V x ;;
       vy <- get_V y ;;
       put_V 0xF (if vx >=? vy then 1 else 0) ;;
       vx <- get_V x ;;
       vy <- get_V y ;;
       put_V x (Z.land (vx - vy) 0xFF)
     else if n =? 0x7 then
       vy <- get_V y ;;
       vx <- get_V x ;;
       put_V 0xF (if vy >=? vx then 1 else 0) ;;
       vy <- get_V y ;;
       vx <- get_V x ;;
       put_V x (Z.land (vy - vx) 0xFF)
     else if n =? 0x0 then
       vy <- get_V y ;;
       put_V x vy
     else if n =? 0x1 then
       vx <- get_V x ;;
       vy <- get_V y ;;
       put_V x (Z.lor vx vy) ;;
       put_V 0xF 0
     else if n =? 0x2 then
       vx <- get_V x ;;
       vy <- get_V y ;;
       put_V x (Z.land vx vy) ;;
       put_V 0xF 0
     else if n =? 0x3 then
       vx <- get_V x ;;
       vy <- get_V y ;;
       put_V x (Z.lxor vx vy) ;;
       put_V 0xF 0
     else ret tt) ;;
    add_PC 2
  else if (op =? 0x9) && (n =? 0) then
    vx <- get_V x ;;
    vy <- get_V y ;;
    add_PC (if negb (vx =? vy) then 4 else 2)
  else if op =? 0xA then
    modify (set_I nnn) ;;
    add_PC 2
  else if op =? 0xB then
    v0 <- get_V 0 ;;
    modify (set_PC (nnn + v0))
  else if op =? 0xC then
    put_V x (Z.land rnd nn) ;;
    add_PC 2
  else if op =? 0xD then
    put_V 0xF 0 ;;
    for_each (Py.range n) (draw_row x y) ;;
    modify (set_draw_flag true) ;;
    add_PC 2
  else if op =? 0xE then
    if nn =? 0x9E then
      vx <- get_V x ;;
      k <- get_key vx ;;
      add_PC (if Py.truthy k then 4 else 2)
    else if nn =? 0xA1 then
      vx <- get_V x ;;
      k <- get_key vx ;;
      add_PC (if negb (Py.truthy k) then 4 else 2)
    else ret tt
  else if op =? 0xF then
    (if nn =? 0x07 then
       d <- gets delay_timer ;;
       put_V x d
     else if nn =? 0x0A then
       modify (set_waiting_for_key true) ;;
       modify (set_key_register x)
     else if nn =? 0x15 then
       vx <- get_V x ;;
       modify (set_delay_timer vx)
     else if nn =? 0x18 then
       vx <- get_V x ;;
       modify (set_sound_timer vx)
     else if nn =? 0x1E then
       vx <- get_V x ;;
       add_I vx
     else if nn =? 0x29 then
       vx <- get_V x ;;
       modify (set_I (Z.land vx 0xF * 5))
     else if nn =? 0x33 then
       v <- get_V x ;;
       i <- gets I ;;
       modify (fun s =>
         set_memory (Py.setslice (memory s) i (i + 3)
                       [v / 100; (v / 10) mod 10; v mod 10]) s)
     else if nn =? 0x55 then
       for_each (Py.range (x + 1)) (fun i =>
         a <- gets I ;;
         vi <- get_V i ;;
         put_mem (a + i) vi) ;;
       q <- gets increment_i ;;
       if q then add_I (x + 1) else ret tt
     else if nn =? 0x65 then
       for_each (Py.range (x + 1)) (fun i =>
         a <- gets I ;;
         b <- get_mem (a + i) ;;
         put_V i b) ;;
       q <- gets increment_i ;;
       if q then add_I (x + 1) else ret tt
     else ret tt) ;;
    add_PC 2
  else ret tt.

(** *** cycle *)

Definition cycle (rnd : Z) : M unit :=
  w <- gets waiting_for_key ;;
  if w then ret tt
  else
    pc <- gets PC ;;
    top <- gets max_pc ;;
    if pc >=? top then ret tt
    else
      hi <- get_mem pc ;;
      lo <- get_mem (pc + 1) ;;
      execute rnd (Z.lor (Z.shiftl hi 8) lo).

(** *** update_timers, key_press, key_release *)

Definition update_timers : M unit :=
  d <- gets delay_timer ;;
  (if d >? 0 then modify (set_delay_timer (d - 1)) else ret tt) ;;
  t <- gets sound_timer ;;
  if t >? 0 then
    modify (set_sound_timer (t - 1)) ;;
    modify (set_sound_flag true)
  else
    modify (set_sound_flag false).

Definition key_press (k : Z) : M unit :=
  put_key k 1 ;;
  w <- gets waiting_for_key ;;
  if w then
    r <- gets key_register ;;
    put_V r k ;;
    modify (set_waiting_for_key false)
  else ret tt.

Definition key_release (k : Z) : M unit :=
  put_key k 0.

End Chip8CPU.

Import Chip8CPU.

(** ** Runs of the machine *)

(** The machine [Chip8CPU()] builds: [__init__] calls [reset] on the new
    object, whose previous attributes do not matter. *)
Definition power_on : cpu := Eval vm_compute in
  final (reset (mkCpu [] [] 0 0 0 [] 0 0 [] [] false false false 0 false false 0)).

(** Consecutive calls of [cycle], one per value the random source yields. *)
Definition cycles (rnds : list Z) : M unit := for_each rnds cycle.

(** A ROM is loaded into the fresh machine and [n] cycles are run. *)
Definition boot_and_run (rom : list Z) (n : nat) : outcome unit :=
  (load_rom rom ;; cycles (repeat 0 n)) power_on.

(** Consecutive timer ticks. *)
Fixpoint ticks (n : nat) (s : cpu) : cpu :=
  match n with
  | O => s
  | S n' => ticks n' (final (update_timers s))
  end.

(** Register and decoded operand fields. *)
Definition reg (s : cpu) (i : Z) : option Z := Py.getitem (V s) i.
Definition op_x (opcode : Z) : Z := Z.land (Z.shiftr opcode 8) 0xF.
Definition op_y (opcode : Z) : Z := Z.land (Z.shiftr opcode 4) 0xF.

(** The opcode [cycle] would fetch at the program counter. *)
Definition fetch (s : cpu) : option Z :=
  match Py.getitem (memory s) (PC s), Py.getitem (memory s) (PC s + 1) with
  | Some hi, Some lo => Some (Z.lor (Z.shiftl hi 8) lo)
  | _, _ => None
  end.

(** Low nibbles / low bytes that the 8, E and F branches of [execute] test for. *)
Definition family_8_ops : list Z := [0x6; 0xE; 0x4; 0x5; 0x7; 0x0; 0x1; 0x2; 0x3].
Definition family_E_ops : list Z := [0x9E; 0xA1].
Definition family_F_ops : list Z :=
  [0x07; 0x0A; 0x15; 0x18; 0x1E; 0x29; 0x33; 0x55; 0x65].

(** The machine a successful [load_rom data] is expected to leave: the
    fresh machine with [data] laid over memory from address 0x200. *)
Definition loaded (data : list Z) : cpu :=
  set_memory
    (take 512 (memory power_on) ++ data ++
     drop (512 + length data) (memory power_on))
    power_on.

(** ** Valid machines *)

Definition byte (z : Z) : Prop := 0 <= z <= 255.

(** What [call] can push: a program counter that passed the guard of [cycle]. *)
Definition fetch_addr (z : Z) : Prop := 0 <= z <= 4093.

Record valid (s : cpu) : Prop := mkValid {
  valid_V_len : length (V s) = 16%nat;
  valid_V : Forall byte (V s);
  valid_memory : Forall byte (memory s);
  valid_stack_len : length (stack s) = 16%nat;
  valid_stack : Forall fetch_addr (stack s);
  valid_keys_len : length (keys s) = 16%nat;
  valid_display_len : length (display s) = 32%nat;
  valid_display : Forall (fun r => length r = 64%nat) (display s);
  valid_I : 0 <= I s;
  valid_PC : 0 <= PC s <= 4350;
  valid_delay : byte (delay_timer s);
  valid_sound : byte (sound_timer s);
  valid_max_pc : max_pc s = 4094
}.

(** The subscripts [execute opcode] evaluates all lie inside their lists. *)
Definition within (opcode : Z) (s : cpu) : Prop :=
  let nn := Z.land opcode 0xFF in
  let n := Z.land opcode 0xF in
  let x := op_x opcode in
  let op := Z.shiftr opcode 12 in
  if opcode =? 0x00EE then -15 <= SP s <= 16
  else if op =? 0x2 then -16 <= SP s <= 15
  else if op =? 0xD then n = 0 \/ I s + n <= Z.of_nat (length (memory s))
  else if (op =? 0xE) && ((nn =? 0x9E) || (nn =? 0xA1)) then
    exists v, reg s x = Some v /\ v <= 15
  else if (op =? 0xF) && ((nn =? 0x55) || (nn =? 0x65)) then
    I s + x < Z.of_nat (length (memory s))
  else True.

(** ** Events *)

(** What can happen to the machine once a ROM is loaded: the emulator loop
    calls [cycle] and [update_timers], the keyboard handlers call
    [key_press] and [key_release] with a key of [KEY_MAP]. *)
Inductive event : Type :=
| Cycle (rnd : Z)
| Tick
| KeyPress (k : Z)
| KeyRelease (k : Z).

Definition handle (e : event) : M unit :=
  match e with
  | Cycle rnd => cycle rnd
  | Tick => update_timers
  | KeyPress k => key_press k
  | KeyRelease k => key_release k
  end.

Definition key_code (e : event) : Prop :=
  match e with
  | KeyPress k | KeyRelease k => 0 <= k <= 15
  | _ => True
  end.

(** The machine after a sequence of events; a call that raises leaves the
    machine as it was at the raise. *)
Definition after (es : list event) (s : cpu) : cpu :=
  fold_left (fun s e => final (handle e s)) es s.

(** ** Weakest preconditions *)

(** [wp m Q E s]: run from [s], [m] returns a value and a machine in [Q],
    or raises leaving a machine in [E]. *)
Definition wp {A} (m : M A) (Q : A -> cpu -> Prop) (E : cpu -> Prop) (s : cpu) : Prop :=
  match m s with
  | Ok a s' => Q a s'
  | IndexError s' => E s'
  end.

(** ** Loop invariants *)

(** [stays s0 s]: the machine is valid and its program counter is where it
    was in [s0]. *)
Definition stays (s0 s : cpu) : Prop := valid s /\ PC s = PC s0.

(** [frame s0 s]: the lists of [s] have their sizes, and the index register
    and the size of memory are those of [s0]. *)
Definition frame (s0 s : cpu) : Prop :=
  length (V s) = 16%nat /\
  length (display s) = 32%nat /\
  Forall (fun r => length r = 64%nat) (display s) /\
  I s = I s0 /\
  length (memory s) = length (memory s0).

(** ** The pixels a sprite flips *)

(** [self.display[r][c] ^= 1] on the screen as a list of rows. *)
Definition toggle (d : list (list Z)) (p : nat * nat) : list (list Z) :=
  alter (alter (fun v => Z.lxor v 1) (snd p)) (fst p) d.

(** The pixel one sprite bit flips, if the bit is set. *)
Definition col_hits (vx vy sprite row col : Z) : list (nat * nat) :=
  if Py.truthy (Z.land sprite (Z.shiftr 0x80 col))
  then [(Z.to_nat ((vy + row) mod 32), Z.to_nat ((vx + col) mod 64))]
  else [].

Definition row_hits (vx vy sprite row : Z) : list (nat * nat) :=
  flat_map (col_hits vx vy sprite row) (Py.range 8).

(** The pixels of [n] sprite rows read from address [i] on, drawn at
    ([vx], [vy]), in the order the loops visit them. *)
Definition sprite_hits (vx vy : Z) (mem : list Z) (i n : Z) : list (nat * nat) :=
  flat_map (fun row =>
              match Py.getitem mem (i + row) with
              | Some sprite => row_hits vx vy sprite row
              | None => []
              end)
           (Py.range n).

(** [drawn s0 x y hs s]: [s] is [s0] with the pixels [hs] flipped; memory,
    the index register and the registers [x] and [y] are untouched. *)
Definition drawn (s0 : cpu) (x y : Z) (hs : list (nat * nat)) (s : cpu) : Prop :=
  frame s0 s /\
  memory s = memory s0 /\
  Py.getitem (V s) x = Py.getitem (V s0) x /\
  Py.getitem (V s) y = Py.getitem (V s0) y /\
  display s = fold_left toggle hs (display s0).

(** ** Register dump and load as list surgery *)

(** Memory after FX55: [V[0..x]] laid over the cells from [I] on. *)
Definition dumped (x : Z) (s : cpu) : list Z :=
  take (Z.to_nat (I s)) (memory s) ++
  (take (Z.to_nat (x + 1)) (V s) ++
   drop (Z.to_nat (x + 1)) (drop (Z.to_nat (I s)) (memory s))).

(** The registers after FX65: the cells from [I] on laid over [V[0..x]]. *)
Definition reloaded (x : Z) (s : cpu) : list Z :=
  take (Z.to_nat (x + 1)) (drop (Z.to_nat (I s)) (memory s)) ++
  drop (Z.to_nat (x + 1)) (V s).

(** ** Pixels *)

(** A framebuffer cell is off or on. *)
Definition bit (z : Z) : Prop := z = 0 \/ z = 1.

Definition bits (d : list (list Z)) : Prop := Forall (Forall bit) d.

(** The cell of the screen at row [fst p], column [snd p], and whether it
    is lit. *)
Definition cell (d : list (list Z)) (p : nat * nat) : option Z :=
  match d !! fst p with
  | Some r => r !! snd p
  | None => None
  end.

Definition lit (d : list (list Z)) (p : nat * nat) : bool :=
  match cell d p with
  | Some v => Py.truthy v
  | None => false
  end.

(** [flagged s0 hs s]: register 0xF of [s] says whether one of the pixels
    [hs] was lit in [s0]. *)
Definition flagged (s0 : cpu) (hs : list (nat * nat)) (s : cpu) : Prop :=
  reg s 0xF = Some (if existsb (lit (display s0)) hs then 1 else 0).

(** ** Chip8Emulator: keyboard and frame loop *)

(** [KEY_MAP], a dict from key names to keypad codes. *)
Definition KEY_MAP : list (String.string * Z) :=
  [ ("1", 0x1); ("2", 0x2); ("3", 0x3); ("4", 0xC);
    ("q", 0x4); ("w", 0x5); ("e", 0x6); ("r", 0xD);
    ("a", 0x7); ("s", 0x8); ("d", 0x9); ("f", 0xE);
    ("z", 0xA); ("x", 0x0); ("c", 0xB); ("v", 0xF) ]%string.

(** [d[k]] for [k in d]. *)
Fixpoint dict_get (d : list (String.string * Z)) (k : String.string) : option Z :=
  match d with
  | [] => None
  | (k', v) :: d' => if String.eqb k k' then Some v else dict_get d' k
  end.

(** [on_key_press] and [on_key_release]; [keysym] is the value of
    [e.keysym.lower()]. *)
Definition on_key_press (keysym : String.string) : M unit :=
  match dict_get KEY_MAP keysym with
  | Some k => key_press k
  | None => ret tt
  end.

Definition on_key_release (keysym : String.string) : M unit :=
  match dict_get KEY_MAP keysym with
  | Some k => key_release k
  | None => ret tt
  end.

(** What one pass of [loop] hands to the window: [root.after(0, self.draw)]
    and [root.after(0, self.root.bell)]. *)
Inductive gui_call : Type := ScheduleDraw | ScheduleBell.

(** One pass of the [while True] body of [loop], before the sleep.  [rnd i]
    is the random byte at hand for the i-th cycle of the pass; the result
    is the calls scheduled and the new [sound_pending]. *)
Definition loop_pass (rnd : Z -> Z) (cycles_per_frame : Z)
    (running sound_pending : bool) : M (list gui_call * bool) :=
  if running then
    for_each (Py.range cycles_per_frame) (fun i => cycle (rnd i)) ;;
    update_timers ;;
    df <- gets draw_flag ;;
    (if df then modify (set_draw_flag false) else ret tt) ;;
    sf <- gets sound_flag ;;
    let pending := if sf then true else sound_pending in
    ret ((if df then [ScheduleDraw] else []) ++
         (if pending then [ScheduleBell] else []), false)
  else
    ret (if sound_pending then [ScheduleBell] else [], false).

(** * Properties *)

(** ** Python subscripts *)

Section Subscripts.
Context {A : Type}.
Implicit Types (l : list A) (i : Z) (v : A).

Lemma index_nonneg len i : 0 <= i < len -> Py.index len i = Some (Z.to_nat i).
Proof.
  intros H. unfold Py.index.
  destruct (Z.leb_spec 0 i), (Z.ltb_spec i len); simpl; try lia; reflexivity.
Qed.

Lemma index_Some len i k :
  Py.index len i = Some k -> - len <= i < len /\ (k < Z.to_nat len)%nat.
Proof.
  unfold Py.index.
  destruct (Z.leb_spec 0 i), (Z.ltb_spec i len), (Z.leb_spec (- len) i),
    (Z.ltb_spec i 0); simpl; intros [= <-]; lia.
Qed.

Lemma index_None len i : Py.index len i = None -> i < - len \/ len <= i.
Proof.
  unfold Py.index.
  destruct (Z.leb_spec 0 i), (Z.ltb_spec i len), (Z.leb_spec (- len) i),
    (Z.ltb_spec i 0); simpl; intros [=]; lia.
Qed.

Lemma getitem_nonneg l i :
  0 <= i < Z.of_nat (length l) -> Py.getitem l i = l !! Z.to_nat i.
Proof. intros H. unfold Py.getitem. now rewrite index_nonneg. Qed.

Lemma setitem_nonneg l i v :
  0 <= i < Z.of_nat (length l) ->
  Py.setitem l i v = Some (<[Z.to_nat i := v]> l).
Proof. intros H. unfold Py.setitem. now rewrite index_nonneg. Qed.

Lemma getitem_Some l i v :
  Py.getitem l i = Some v ->
  exists k, Py.index (Z.of_nat (length l)) i = Some k /\ l !! k = Some v.
Proof.
  unfold Py.getitem. destruct (Py.index _ i) as [k|]; [|discriminate].
  intros H. now exists k.
Qed.

Lemma setitem_Some l i v l' :
  Py.setitem l i v = Some l' ->
  exists k, Py.index (Z.of_nat (length l)) i = Some k /\ l' = <[k := v]> l.
Proof.
  unfold Py.setitem. destruct (Py.index _ i) as [k|]; [|discriminate].
  intros [= <-]. now exists k.
Qed.

Lemma setitem_length l i v l' : Py.setitem l i v = Some l' -> length l' = length l.
Proof.
  intros (k & _ & ->)%setitem_Some. apply length_insert.
Qed.

Lemma getitem_None l i :
  Py.getitem l i = None -> i < - Z.of_nat (length l) \/ Z.of_nat (length l) <= i.
Proof.
  unfold Py.getitem. destruct (Py.index _ i) as [k|] eqn:E.
  - apply index_Some in E as [_ E]. intros H%lookup_ge_None. lia.
  - intros _. now apply index_None.
Qed.

Lemma setitem_None l i v :
  Py.setitem l i v = None -> i < - Z.of_nat (length l) \/ Z.of_nat (length l) <= i.
Proof.
  unfold Py.setitem. destruct (Py.index _ i) as [k|] eqn:E; [discriminate|].
  intros _. now apply index_None.
Qed.

Lemma setitem_of_getitem l i a v :
  Py.getitem l i = Some a -> exists l', Py.setitem l i v = Some l'.
Proof.
  intros (k & E & _)%getitem_Some. unfold Py.setitem. rewrite E. eauto.
Qed.

Lemma getitem_setitem_same l i v l' :
  Py.setitem l i v = Some l' -> Py.getitem l' i = Some v.
Proof.
  intros (k & E & ->)%setitem_Some. unfold Py.getitem.
  rewrite length_insert, E. apply list_lookup_insert_eq.
  apply index_Some in E. lia.
Qed.

End Subscripts.

(** ** Decoding *)

Lemma nibble_range a : 0 <= Z.land a 0xF < 16.
Proof.
  change 0xF with (Z.ones 4). rewrite Z.land_ones by lia.
  apply Z.mod_pos_bound. lia.
Qed.

Lemma byte_range a : 0 <= Z.land a 0xFF < 256.
Proof.
  change 0xFF with (Z.ones 8). rewrite Z.land_ones by lia.
  apply Z.mod_pos_bound. lia.
Qed.

Lemma addr_range a : 0 <= Z.land a 0xFFF < 4096.
Proof.
  change 0xFFF with (Z.ones 12). rewrite Z.land_ones by lia.
  apply Z.mod_pos_bound. lia.
Qed.

Lemma family_not_0 opcode k :
  Z.shiftr opcode 12 = k -> k <> 0 -> (opcode =? 0xE0) = false /\ (opcode =? 0xEE) = false.
Proof.
  intros H Hk. split; apply Z.eqb_neq; intros ->; now apply Hk.
Qed.

(** ** Stepping through a method *)

Lemma get_V_eq s i v : Py.getitem (V s) i = Some v -> get_V i s = Ok v s.
Proof. intros H. unfold get_V, bind, gets, subscript. now rewrite H. Qed.

Lemma put_V_eq s i v l' :
  Py.setitem (V s) i v = Some l' -> put_V i v s = Ok tt (set_V l' s).
Proof. intros H. unfold put_V, bind, gets, subscript, modify. now rewrite H. Qed.

Lemma bind_Ok {A B} (m : M A) (k : A -> M B) s a s' :
  m s = Ok a s' -> bind m k s = k a s'.
Proof. intros H. unfold bind. now rewrite H. Qed.

Lemma bind_IndexError {A B} (m : M A) (k : A -> M B) s s' :
  m s = IndexError s' -> bind m k s = IndexError s'.
Proof. intros H. unfold bind. now rewrite H. Qed.

(** ** Register arithmetic (family 8) *)

Lemma execute_family_8 rnd opcode :
  Z.shiftr opcode 12 = 8 ->
  Z.land opcode 0xF = 4 ->
  execute rnd opcode =
    ((vx <- get_V (op_x opcode) ;;
      vy <- get_V (op_y opcode) ;;
      put_V (op_x opcode) (Z.land (vx + vy) 0xFF) ;;
      put_V 0xF (if vx + vy >? 255 then 1 else 0)) ;;
     add_PC 2).
Proof.
  intros Hop Hn. unfold execute.
  destruct (family_not_0 opcode 8 Hop) as [-> ->]; [lia|].
  rewrite Hop, Hn. reflexivity.
Qed.

(** C5: ADD with carry (8XY4) leaves 1 in register 0xF when the sum of the
    two operand registers exceeds 255 and 0 otherwise, whichever registers
    X and Y name. *)
Theorem add_carry_flag rnd opcode s vx vy :
  Z.shiftr opcode 12 = 8 ->
  Z.land opcode 0xF = 4 ->
  length (V s) = 16%nat ->
  reg s (op_x opcode) = Some vx ->
  reg s (op_y opcode) = Some vy ->
  exists s',
    execute rnd opcode s = Ok tt s' /\
    reg s' 0xF = Some (if vx + vy >? 255 then 1 else 0) /\
    PC s' = PC s + 2.
Proof.
  intros Hop Hn Hlen Hx Hy. rewrite execute_family_8 by assumption.
  unfold reg in *.
  destruct (setitem_of_getitem (V s) (op_x opcode) vx (Z.land (vx + vy) 0xFF) Hx)
    as [l1 H1].
  assert (Hl1 : length l1 = 16%nat) by (now rewrite (setitem_length _ _ _ _ H1)).
  set (flag := if vx + vy >? 255 then 1 else 0).
  assert (H2 : Py.setitem l1 0xF flag = Some (<[15%nat := flag]> l1)).
  { rewrite setitem_nonneg by (rewrite Hl1; lia). reflexivity. }
  eexists. split; [|split].
  - unfold bind.
    rewrite (get_V_eq s _ _ Hx); cbv beta iota.
    rewrite (get_V_eq s _ _ Hy); cbv beta iota.
    rewrite (put_V_eq s _ _ _ H1); cbv beta iota.
    fold flag. rewrite (put_V_eq (set_V l1 s) 0xF flag _ H2).
    reflexivity.
  - simpl. apply (getitem_setitem_same _ _ _ _ H2).
  - reflexivity.
Qed.

Lemma add_carry_flag_witness :
  exists s',
    execute 0 0x8014 (set_V (<[0%nat := 200]> (<[1%nat := 100]> (V power_on))) power_on)
      = Ok tt s' /\
    reg s' 0xF = Some 1 /\ PC s' = 0x202.
Proof.
  apply (add_carry_flag 0 0x8014
           (set_V (<[0%nat := 200]> (<[1%nat := 100]> (V power_on))) power_on)
           200 100); reflexivity.
Defined.

(** ** Timer tick *)

Lemma update_timers_eq s :
  update_timers s =
    Ok tt
      (let s1 := if delay_timer s >? 0 then set_delay_timer (delay_timer s - 1) s else s in
       if sound_timer s >? 0
       then set_sound_flag true (set_sound_timer (sound_timer s - 1) s1)
       else set_sound_flag false s1).
Proof.
  unfold update_timers, bind, gets, modify, ret.
  destruct (delay_timer s >? 0); cbn; destruct (sound_timer s >? 0); reflexivity.
Qed.

Lemma ticks_delay n : forall s,
  0 <= delay_timer s ->
  delay_timer (ticks n s) = Z.max 0 (delay_timer s - Z.of_nat n).
Proof.
  induction n as [|n IH]; intros s Hd.
  - simpl. lia.
  - cbn [ticks]. rewrite update_timers_eq. cbn [final].
    destruct (Z.gtb_spec (delay_timer s) 0) as [Hpos|Hzero];
      destruct (sound_timer s >? 0); cbn zeta; rewrite IH; cbn; lia.
Qed.

(** C2 (as the code has it): a tick takes one off each timer that is
    positive and leaves a timer at zero where it is; a delay timer set to
    [d] reads [max 0 (d - n)] after [n] ticks; the sound signal of a tick is
    on exactly when the sound timer was non-zero before the decrement. *)
Theorem timer_tick s :
  0 <= delay_timer s ->
  0 <= sound_timer s ->
  exists s',
    update_timers s = Ok tt s' /\
    delay_timer s' = (if delay_timer s =? 0 then 0 else delay_timer s - 1) /\
    sound_timer s' = (if sound_timer s =? 0 then 0 else sound_timer s - 1) /\
    (sound_flag s' = true <-> sound_timer s <> 0) /\
    (forall n, delay_timer (ticks n s) = Z.max 0 (delay_timer s - Z.of_nat n)).
Proof.
  intros Hd Ht. eexists. split; [apply update_timers_eq|].
  repeat split.
  - destruct (Z.gtb_spec (delay_timer s) 0), (Z.eqb_spec (delay_timer s) 0),
      (sound_timer s >? 0); cbn; lia.
  - destruct (Z.gtb_spec (sound_timer s) 0), (Z.eqb_spec (sound_timer s) 0),
      (delay_timer s >? 0); cbn; lia.
  - destruct (Z.gtb_spec (sound_timer s) 0); cbn; [lia|discriminate].
  - destruct (Z.gtb_spec (sound_timer s) 0); cbn; [reflexivity|lia].
  - intros n. now apply ticks_delay.
Qed.

Lemma timer_tick_witness :
  exists s',
    update_timers (set_sound_timer 1 (set_delay_timer 5 power_on)) = Ok tt s' /\
    delay_timer s' = 4 /\
    sound_timer s' = 0 /\
    (sound_flag s' = true <-> 1 <> 0) /\
    (forall n, delay_timer (ticks n (set_sound_timer 1 (set_delay_timer 5 power_on)))
               = Z.max 0 (5 - Z.of_nat n)).
Proof.
  apply (timer_tick (set_sound_timer 1 (set_delay_timer 5 power_on))); cbn; lia.
Defined.

(** C2 fails as stated: the tick that takes the sound timer from 1 to 0
    still raises the sound signal. *)
Lemma timer_tick_sound_at_zero :
  let s' := final (update_timers (set_sound_timer 1 power_on)) in
  sound_timer s' = 0 /\ sound_flag s' = true /\
  ~ (sound_flag s' = true <-> sound_timer s' <> 0).
Proof.
  cbn zeta. rewrite update_timers_eq. cbn.
  split; [reflexivity|]. split; [reflexivity|].
  intros [H _]. now apply H.
Qed.

(** ** Waiting for a key *)

Lemma cycle_waiting rnd s : waiting_for_key s = true -> cycle rnd s = Ok tt s.
Proof. intros H. unfold cycle, bind, gets. now rewrite H. Qed.

Lemma cycles_fixed rnds s :
  (forall rnd, cycle rnd s = Ok tt s) -> cycles rnds s = Ok tt s.
Proof.
  intros H. unfold cycles. induction rnds as [|r rnds IH]; [reflexivity|].
  cbn [for_each]. unfold bind. now rewrite H.
Qed.

(** The wait-for-key instruction (FX0A) records X and raises the flag. *)
Lemma wait_for_key_records rnd opcode s :
  Z.shiftr opcode 12 = 0xF ->
  Z.land opcode 0xFF = 0x0A ->
  execute rnd opcode s =
    Ok tt (set_PC (PC s + 2)
             (set_key_register (op_x opcode) (set_waiting_for_key true s))).
Proof.
  intros Hop Hnn. unfold execute.
  destruct (family_not_0 opcode 0xF Hop) as [-> ->]; [lia|].
  rewrite Hop, Hnn. reflexivity.
Qed.

(** C6: while [waiting_for_key] is set, any number of engine steps leaves
    the whole machine as it is; a key press then clears the flag and stores
    the key in the recorded register. *)
Theorem key_wait_blocks s rnds k :
  waiting_for_key s = true ->
  length (V s) = 16%nat ->
  length (keys s) = 16%nat ->
  0 <= key_register s < 16 ->
  0 <= k < 16 ->
  cycles rnds s = Ok tt s /\
  exists s',
    key_press k s = Ok tt s' /\
    waiting_for_key s' = false /\
    reg s' (key_register s) = Some k /\
    Py.getitem (keys s') k = Some 1 /\
    PC s' = PC s.
Proof.
  intros Hw HV Hk Hr Hkey. split.
  - apply cycles_fixed. intros rnd. now apply cycle_waiting.
  - assert (H1 : Py.setitem (keys s) k 1 = Some (<[Z.to_nat k := 1]> (keys s))).
    { apply setitem_nonneg. lia. }
    assert (H2 : Py.setitem (V s) (key_register s) k
                 = Some (<[Z.to_nat (key_register s) := k]> (V s))).
    { apply setitem_nonneg. lia. }
    eexists. split.
    + unfold key_press, put_key, put_V, bind, gets, subscript, modify.
      rewrite H1. cbn [set_keys waiting_for_key key_register V].
      rewrite Hw. cbn [set_keys waiting_for_key key_register V].
      rewrite H2. reflexivity.
    + split; [reflexivity|]. split; [|split; [|reflexivity]].
      * apply (getitem_setitem_same _ _ _ _ H2).
      * apply (getitem_setitem_same _ _ _ _ H1).
Qed.

Lemma key_wait_blocks_witness :
  let s := final (execute 0 0xF30A power_on) in
  cycles [0; 0; 0] s = Ok tt s /\
  exists s',
    key_press 7 s = Ok tt s' /\
    waiting_for_key s' = false /\
    reg s' 3 = Some 7 /\
    Py.getitem (keys s') 7 = Some 1 /\
    PC s' = 0x202.
Proof.
  apply (key_wait_blocks (final (execute 0 0xF30A power_on)) [0; 0; 0] 7);
    first [reflexivity | vm_compute; split; congruence].
Defined.

(** ** Opcodes no branch handles *)

Lemma cycle_fetch rnd s opcode :
  fetch s = Some opcode ->
  (forall r, execute r opcode s = Ok tt s) ->
  cycle rnd s = Ok tt s.
Proof.
  unfold fetch, cycle, get_mem, bind, gets, subscript, ret. intros Hf He.
  destruct (waiting_for_key s); [reflexivity|].
  destruct (PC s >=? max_pc s); [reflexivity|].
  destruct (Py.getitem (memory s) (PC s)) as [hi|]; [|discriminate].
  destruct (Py.getitem (memory s) (PC s + 1)) as [lo|]; [|discriminate].
  injection Hf as <-. apply He.
Qed.

Ltac not_listed H :=
  repeat match goal with
    | |- context [?a =? ?b] =>
        let e := fresh "e" in
        destruct (Z.eqb_spec a b) as [e|_];
        [exfalso; apply H; rewrite e; cbn; auto 20|]
    end.

(** C10 (as the code has it): an opcode of family 0 other than 0x00E0 and
    0x00EE changes nothing, so the engine stays on it for ever; an
    unhandled opcode of family 8 or F only advances the program counter by
    2; an unhandled opcode of family 5, 9 or E changes nothing either. *)
Theorem unhandled_opcodes rnd opcode s :
  (Z.shiftr opcode 12 = 0 -> opcode <> 0xE0 -> opcode <> 0xEE ->
     execute rnd opcode s = Ok tt s /\
     (fetch s = Some opcode -> forall rnds, cycles rnds s = Ok tt s)) /\
  (Z.shiftr opcode 12 = 0x8 -> ~ In (Z.land opcode 0xF) family_8_ops ->
     execute rnd opcode s = Ok tt (set_PC (PC s + 2) s)) /\
  (Z.shiftr opcode 12 = 0xF -> ~ In (Z.land opcode 0xFF) family_F_ops ->
     execute rnd opcode s = Ok tt (set_PC (PC s + 2) s)) /\
  (Z.shiftr opcode 12 = 0x5 \/ Z.shiftr opcode 12 = 0x9 ->
     Z.land opcode 0xF <> 0 ->
     execute rnd opcode s = Ok tt s) /\
  (Z.shiftr opcode 12 = 0xE -> ~ In (Z.land opcode 0xFF) family_E_ops ->
     execute rnd opcode s = Ok tt s).
Proof.
  assert (H0 : forall r, Z.shiftr opcode 12 = 0 -> opcode <> 0xE0 -> opcode <> 0xEE ->
                         execute r opcode s = Ok tt s).
  { intros r Hop H1 H2. unfold execute.
    apply Z.eqb_neq in H1, H2. rewrite H1, H2, Hop. reflexivity. }
  split; [|split; [|split; [|split]]].
  - intros Hop H1 H2. split; [now apply H0|].
    intros Hf rnds. apply cycles_fixed. intros r.
    apply (cycle_fetch r s opcode Hf). intros r'. now apply H0.
  - intros Hop Hn. unfold execute.
    destruct (family_not_0 opcode 0x8 Hop) as [-> ->]; [lia|].
    rewrite Hop. cbn [Z.eqb Pos.eqb andb]. cbv beta iota.
    unfold family_8_ops in Hn. not_listed Hn. reflexivity.
  - intros Hop Hn. unfold execute.
    destruct (family_not_0 opcode 0xF Hop) as [-> ->]; [lia|].
    rewrite Hop. cbn [Z.eqb Pos.eqb andb]. cbv beta iota.
    unfold family_F_ops in Hn. not_listed Hn. reflexivity.
  - intros Hop Hn. unfold execute. apply Z.eqb_neq in Hn.
    destruct Hop as [Hop|Hop].
    + destruct (family_not_0 opcode 0x5 Hop) as [-> ->]; [lia|].
      rewrite Hop, Hn. reflexivity.
    + destruct (family_not_0 opcode 0x9 Hop) as [-> ->]; [lia|].
      rewrite Hop, Hn. reflexivity.
  - intros Hop Hn. unfold execute.
    destruct (family_not_0 opcode 0xE Hop) as [-> ->]; [lia|].
    rewrite Hop. cbn [Z.eqb Pos.eqb andb]. cbv beta iota.
    unfold family_E_ops in Hn. not_listed Hn. reflexivity.
Qed.

Lemma unhandled_opcodes_witness :
  (execute 0 0x0000 power_on = Ok tt power_on /\
   cycles [0; 0; 0] power_on = Ok tt power_on) /\
  execute 0 0x8008 power_on = Ok tt (set_PC 0x202 power_on) /\
  execute 0 0xF0FF power_on = Ok tt (set_PC 0x202 power_on) /\
  execute 0 0x9001 power_on = Ok tt power_on /\
  execute 0 0xE000 power_on = Ok tt power_on.
Proof.
  split; [|split; [|split; [|split]]].
  - destruct (proj1 (unhandled_opcodes 0 0x0000 power_on)) as [A B];
      [reflexivity | discriminate | discriminate |].
    split; [exact A | apply B; reflexivity].
  - apply (proj1 (proj2 (unhandled_opcodes 0 0x8008 power_on))); [reflexivity|].
    cbn. intuition discriminate.
  - apply (proj1 (proj2 (proj2 (unhandled_opcodes 0 0xF0FF power_on)))); [reflexivity|].
    cbn. intuition discriminate.
  - apply (proj1 (proj2 (proj2 (proj2 (unhandled_opcodes 0 0x9001 power_on)))));
      [right; reflexivity | discriminate].
  - apply (proj2 (proj2 (proj2 (proj2 (unhandled_opcodes 0 0xE000 power_on)))));
      [reflexivity|]. cbn. intuition discriminate.
Defined.

(** C10 fails as stated: 0x5001 is an unhandled opcode outside family 0, and
    it does not advance the program counter. *)
Lemma unhandled_5xy1_does_not_advance :
  execute 0 0x5001 power_on = Ok tt power_on /\
  PC (final (execute 0 0x5001 power_on)) <> PC power_on + 2.
Proof. split; [reflexivity | discriminate]. Qed.

(** ** Concrete runs *)

(** C1: SUB and reverse-SUB with X = 0xF.  With V[0xF] = 5 and V[0] = 3,
    8F05 has minuend 5 >= subtrahend 3 and leaves 254 in register 0xF;
    8F07 has minuend 3 < subtrahend 5 and leaves 3 there. *)
Theorem sub_flag_overwritten_when_x_is_F :
  let sub := boot_and_run [0x6F; 0x05; 0x60; 0x03; 0x8F; 0x05] 3 in
  let subn := boot_and_run [0x6F; 0x05; 0x60; 0x03; 0x8F; 0x07] 3 in
  returned sub = true /\ reg (final sub) 0xF = Some 254 /\
  returned subn = true /\ reg (final subn) 0xF = Some 3.
Proof. vm_compute. repeat split. Qed.

(** C4: the draw instruction DF01 run twice on the same registers, index
    and sprite byte 0xC0, from a blank screen: the second run does not
    give the blank screen back. *)
Theorem draw_twice_with_x_F_not_restored :
  let rom := [0xA2; 0x06; 0xDF; 0x01; 0xDF; 0x01; 0xC0; 0x00] in
  let before := final (boot_and_run rom 1) in
  let once := final (boot_and_run rom 2) in
  let twice := final (boot_and_run rom 3) in
  display before = blank_display /\
  V once = V before /\ I once = I before /\ memory once = memory before /\
  display once = <[0%nat := [1; 1] ++ repeat 0 62]> blank_display /\
  display twice = <[0%nat := [0; 1; 1] ++ repeat 0 61]> blank_display /\
  display twice <> display before.
Proof. vm_compute. repeat split. discriminate. Qed.

(** C9: store-BCD with the index register at 4095 leaves a memory of 4098
    cells. *)
Theorem store_bcd_grows_memory :
  let o := boot_and_run [0xAF; 0xFF; 0xF0; 0x33] 2 in
  returned o = true /\ I (final o) = 4095 /\
  length (memory (final o)) = 4098%nat.
Proof. vm_compute. repeat split. Qed.

(** C7 fails as stated: the index register reaches 4350 and the draw
    instruction then raises. *)
Lemma draw_raises_beyond_memory :
  let rom := [0x60; 0xFF; 0xAF; 0xFF; 0xF0; 0x1E; 0xD0; 0x01] in
  returned (boot_and_run rom 3) = true /\
  I (final (boot_and_run rom 3)) = 4350 /\
  fetch (final (boot_and_run rom 3)) = Some 0xD001 /\
  returned (execute 0 0xD001 (final (boot_and_run rom 3))) = false.
Proof. vm_compute. repeat split. Qed.

(** C8 fails as stated: a jump to address 0 puts the program counter below
    0x200. *)
Lemma jump_below_program_area :
  returned (boot_and_run [0x10; 0x00] 1) = true /\
  PC (final (boot_and_run [0x10; 0x00] 1)) = 0 /\
  ~ (0x200 <= PC (final (boot_and_run [0x10; 0x00] 1)) <= 4094).
Proof. vm_compute. repeat split. intros [H _]. now apply H. Qed.

(** ** reset and load_rom *)

Lemma set_memory_id s : set_memory (memory s) s = s.
Proof. now destruct s. Qed.

Lemma set_memory_twice m1 m2 s : set_memory m2 (set_memory m1 s) = set_memory m2 s.
Proof. reflexivity. Qed.

Lemma reset_eq s : reset s = Ok tt power_on.
Proof. unfold reset, bind, modify. vm_compute. reflexivity. Qed.

Lemma put_mem_nonneg s i v :
  0 <= i < Z.of_nat (length (memory s)) ->
  put_mem i v s = Ok tt (set_memory (<[Z.to_nat i := v]> (memory s)) s).
Proof.
  intros H. unfold put_mem, bind, gets, subscript, modify.
  now rewrite setitem_nonneg.
Qed.

Lemma copy_loop data : forall (k : nat) s,
  (512 + k + length data <= length (memory s))%nat ->
  for_each (combine (map Z.of_nat (seq k (length data))) data)
           (fun '(i, b) => put_mem (0x200 + i) b) s
  = Ok tt (set_memory
             (take (512 + k) (memory s) ++ data ++
              drop (512 + k + length data) (memory s)) s).
Proof.
  induction data as [|b data IH]; intros k s Hlen.
  - cbn [length seq map combine for_each app]. unfold ret.
    rewrite Nat.add_0_r, take_drop. now rewrite set_memory_id.
  - cbn [length seq map combine for_each]. cbn [length] in Hlen.
    unfold bind. rewrite put_mem_nonneg by lia. cbv beta iota.
    replace (Z.to_nat (0x200 + Z.of_nat k)) with (512 + k)%nat by lia.
    rewrite IH by (cbn; rewrite length_insert; lia).
    rewrite set_memory_twice. cbn [memory set_memory].
    apply f_equal, (f_equal (fun m => set_memory m s)).
    replace (512 + S k)%nat with (S (512 + k)) by lia.
    rewrite (take_S_r _ _ b) by (apply list_lookup_insert_eq; cbn in Hlen; lia).
    rewrite take_insert_ge by lia.
    rewrite drop_insert_lt by lia.
    rewrite <- app_assoc. cbn [app].
    replace (S (512 + k) + length data)%nat with (512 + k + S (length data))%nat by lia.
    reflexivity.
Qed.

Lemma load_rom_eq data s :
  load_rom data s =
    (if Z.of_nat (length data) <=? 3584
     then Ok true (loaded data)
     else Ok false s).
Proof.
  unfold load_rom.
  destruct (Z.gtb_spec (Z.of_nat (length data)) 3584) as [Hbig|Hfit];
    destruct (Z.leb_spec (Z.of_nat (length data)) 3584); try lia; [reflexivity|].
  unfold bind. rewrite reset_eq. cbv beta iota.
  unfold Py.enumerate, Py.range. rewrite Nat2Z.id.
  rewrite copy_loop by (change (length (memory power_on)) with 4096%nat; lia).
  reflexivity.
Qed.

(** C3: [load_rom] returns [True] exactly for at most 3584 bytes; it then
    leaves the reset machine with the bytes copied from address 0x200 on
    and the program counter at 0x200; for a longer sequence it returns
    [False] and the machine is untouched. *)
Theorem load_rom_spec data s :
  load_rom data s =
    (if Z.of_nat (length data) <=? 3584
     then Ok true (loaded data)
     else Ok false s) /\
  PC (loaded data) = 0x200 /\
  set_memory (memory power_on) (loaded data) = power_on /\
  take 512 (memory (loaded data)) = take 512 (memory power_on) /\
  take (length data) (drop 512 (memory (loaded data))) = data.
Proof.
  split; [|split; [reflexivity|split; [reflexivity|split]]].
  - apply load_rom_eq.
  - unfold loaded. cbn [memory set_memory].
    rewrite take_app_le by (rewrite length_take; change (length (memory power_on)) with 4096%nat; lia).
    rewrite take_take. f_equal.
  - unfold loaded. cbn [memory set_memory].
    rewrite drop_app_length' by (rewrite length_take; change (length (memory power_on)) with 4096%nat; lia).
    now rewrite take_app_length.
Qed.

(** ** Rules for weakest preconditions *)

Section WpRules.
Context {A : Type}.
Implicit Types (Q : A -> cpu -> Prop) (E : cpu -> Prop) (s : cpu).

Lemma wp_ret a Q E s : Q a s -> wp (ret a) Q E s.
Proof. exact id. Qed.

Lemma wp_bind {B} (m : M B) (k : B -> M A) Q E s :
  wp m (fun b s' => wp (k b) Q E s') E s -> wp (bind m k) Q E s.
Proof. unfold wp, bind. now destruct (m s). Qed.

Lemma wp_gets (f : cpu -> A) Q E s : Q (f s) s -> wp (gets f) Q E s.
Proof. exact id. Qed.

Lemma wp_subscript (o : option A) Q E s :
  (forall a, o = Some a -> Q a s) -> (o = None -> E s) -> wp (subscript o) Q E s.
Proof. unfold wp, subscript. destruct o; auto. Qed.

Lemma wp_mono (m : M A) Q Q' E E' s :
  wp m Q E s ->
  (forall a s', Q a s' -> Q' a s') -> (forall s', E s' -> E' s') ->
  wp m Q' E' s.
Proof. unfold wp. destruct (m s); auto. Qed.

Lemma wp_returned (m : M A) s :
  wp m (fun _ _ => True) (fun _ => False) s <-> returned (m s) = true.
Proof. unfold wp, returned. destruct (m s); intuition discriminate. Qed.

Lemma wp_raised (m : M A) s :
  wp m (fun _ _ => False) (fun _ => True) s <-> returned (m s) = false.
Proof. unfold wp, returned. destruct (m s); intuition discriminate. Qed.

Lemma wp_final (m : M A) (P : cpu -> Prop) s :
  wp m (fun _ => P) P s <-> P (final (m s)).
Proof. unfold wp, final. now destruct (m s). Qed.

End WpRules.

Lemma wp_modify f (Q : unit -> cpu -> Prop) E s : Q tt (f s) -> wp (modify f) Q E s.
Proof. exact id. Qed.

(** A loop: [J pre] holds once the elements [pre] are done. *)
Lemma wp_for_each {A} (J : list A -> cpu -> Prop) (l : list A) (body : A -> M unit)
    (Q : unit -> cpu -> Prop) E s :
  J [] s ->
  (forall pre a post s', l = pre ++ a :: post -> J pre s' ->
     wp (body a) (fun _ => J (pre ++ [a])) E s') ->
  (forall s', J l s' -> Q tt s') ->
  wp (for_each l body) Q E s.
Proof.
  intros H0 Hstep Hend.
  assert (G : forall post pre s', l = pre ++ post -> J pre s' ->
              wp (for_each post body) Q E s').
  { induction post as [|a post IH]; intros pre s' Hl HJ.
    - rewrite app_nil_r in Hl. subst pre. now apply Hend.
    - cbn [for_each]. apply wp_bind.
      eapply wp_mono; [apply (Hstep pre a post s' Hl HJ)| |auto].
      intros u s'' HJ'. cbv beta in HJ'. apply (IH (pre ++ [a])); [|assumption].
      now rewrite <- app_assoc. }
  now apply (G l []).
Qed.

(** ** Bytes *)

Lemma byte_iff a : byte a <-> Z.land a 0xFF = a.
Proof.
  pose proof (byte_range a) as Hr. split.
  - intros H. change 0xFF with (Z.ones 8). rewrite Z.land_ones by lia.
    apply Z.mod_small. unfold byte in H. change (2 ^ 8) with 256. lia.
  - intros <-. unfold byte. lia.
Qed.

Lemma byte_mask a : byte (Z.land a 0xFF).
Proof. pose proof (byte_range a). unfold byte. lia. Qed.

Lemma byte_land_r a b : byte b -> byte (Z.land a b).
Proof.
  rewrite !byte_iff. intros H. now rewrite <- Z.land_assoc, H.
Qed.

Lemma byte_land_l a b : byte a -> byte (Z.land a b).
Proof. rewrite Z.land_comm. apply byte_land_r. Qed.

Lemma byte_lor a b : byte a -> byte b -> byte (Z.lor a b).
Proof.
  rewrite !byte_iff. intros Ha Hb. now rewrite Z.land_lor_distr_l, Ha, Hb.
Qed.

Lemma byte_lxor a b : byte a -> byte b -> byte (Z.lxor a b).
Proof.
  rewrite !byte_iff. intros Ha Hb. rewrite <- Ha, <- Hb at 2.
  apply Z.bits_inj'. intros k Hk.
  rewrite !Z.land_spec, !Z.lxor_spec, !Z.land_spec.
  now destruct (Z.testbit a k), (Z.testbit b k), (Z.testbit 0xFF k).
Qed.

Lemma byte_bit a : byte (Z.land a 1).
Proof. apply byte_land_r. unfold byte. lia. Qed.

Lemma byte_shiftr a : byte a -> byte (Z.shiftr a 1).
Proof.
  unfold byte. intros H. rewrite Z.shiftr_div_pow2 by lia.
  change (2 ^ 1) with 2. split.
  - apply Z.div_pos; lia.
  - apply Z.div_le_upper_bound; lia.
Qed.

Lemma byte_flag (b : bool) : byte (if b then 1 else 0).
Proof. unfold byte. destruct b; lia. Qed.

Lemma byte_digits v :
  byte v -> Forall byte [v / 100; (v / 10) mod 10; v mod 10].
Proof.
  unfold byte. intros H. repeat constructor.
  - apply Z.div_pos; lia.
  - apply Z.div_le_upper_bound; lia.
  - pose proof (Z.mod_pos_bound (v / 10) 10). lia.
  - pose proof (Z.mod_pos_bound (v / 10) 10). lia.
  - pose proof (Z.mod_pos_bound v 10). lia.
  - pose proof (Z.mod_pos_bound v 10). lia.
Qed.

(** ** Lists that keep a property *)

Lemma getitem_Forall {A} (P : A -> Prop) (l : list A) i v :
  Forall P l -> Py.getitem l i = Some v -> P v.
Proof.
  intros H (k & _ & Hk)%getitem_Some. eapply Forall_lookup_1; eassumption.
Qed.

Lemma setitem_Forall {A} (P : A -> Prop) (l : list A) i v l' :
  Py.setitem l i v = Some l' -> Forall P l -> P v -> Forall P l'.
Proof.
  intros (k & _ & ->)%setitem_Some H Hv. now apply Forall_insert.
Qed.

Lemma setslice_Forall {A} (P : A -> Prop) (l new : list A) lo hi :
  Forall P l -> Forall P new -> Forall P (Py.setslice l lo hi new).
Proof.
  intros H Hn. unfold Py.setslice. rewrite !Forall_app.
  auto using Forall_take, Forall_drop.
Qed.

Lemma getitem_byte l i v : Forall byte l -> Py.getitem l i = Some v -> byte v.
Proof. apply getitem_Forall. Qed.

Lemma getitem_fetch_addr l i v :
  Forall fetch_addr l -> Py.getitem l i = Some v -> fetch_addr v.
Proof. apply getitem_Forall. Qed.

Lemma getitem_row (d : list (list Z)) i r :
  Forall (fun r => length r = 64%nat) d -> Py.getitem d i = Some r ->
  length r = 64%nat.
Proof. apply (getitem_Forall (fun r => length r = 64%nat)). Qed.

(** ** Running a method symbolically *)

Ltac proj_simpl :=
  cbn [memory V I PC SP stack delay_timer sound_timer display keys draw_flag
       sound_flag waiting_for_key key_register shift_quirk increment_i max_pc
       set_memory set_V set_I set_PC set_SP set_stack set_delay_timer
       set_sound_timer set_display set_keys set_draw_flag set_sound_flag
       set_waiting_for_key set_key_register] in *.

Ltac wp_unfold :=
  unfold get_V, put_V, get_mem, put_mem, get_stack, put_stack, get_key,
    put_key, get_pixel, xor_pixel, add_PC, add_I, shift_operand.

Ltac wp_step :=
  lazymatch goal with
  | |- wp (bind _ _) _ _ _ => apply wp_bind
  | |- wp (ret _) _ _ _ => apply wp_ret
  | |- wp (gets _) _ _ _ => apply wp_gets
  | |- wp (modify _) _ _ _ => apply wp_modify
  | |- wp (subscript _) _ _ _ => apply wp_subscript; [intros ? ? | intros ?]
  | |- wp (if ?b then _ else _) _ _ _ => destruct b eqn:?
  end; cbv beta; proj_simpl.

Ltac wp_run := repeat (wp_unfold; wp_step).

(** ** Instructions keep the machine valid *)

Lemma blank_display_length : length blank_display = 32%nat.
Proof. reflexivity. Qed.

Lemma blank_display_rows : Forall (fun r => length r = 64%nat) blank_display.
Proof.
  unfold blank_display. cbn [repeat].
  repeat (constructor; [reflexivity|]). constructor.
Qed.

Create HintDb valid discriminated.
#[local] Hint Resolve byte_mask byte_land_r byte_land_l byte_lor byte_lxor byte_bit
  byte_shiftr byte_flag byte_digits : valid.
#[local] Hint Resolve setitem_Forall setslice_Forall : valid.
#[local] Hint Resolve getitem_byte getitem_fetch_addr getitem_row : valid.
#[local] Hint Resolve blank_display_length blank_display_rows : valid.
#[local] Hint Extern 1 (length _ = _) =>
  erewrite setitem_length by eassumption : valid.

(** Facts about the values read so far, for arithmetic goals. *)
Ltac read_facts :=
  repeat match goal with
    | H : Py.getitem ?l ?i = Some ?a, F : Forall byte ?l |- _ =>
        pose proof (getitem_byte l i a F H); clear H
    | H : Py.getitem ?l ?i = Some ?a, F : Forall fetch_addr ?l |- _ =>
        pose proof (getitem_fetch_addr l i a F H); clear H
    end;
  unfold byte, fetch_addr in *.

Ltac arith :=
  read_facts;
  try match goal with
    | |- context [Z.land ?a 0xF] => pose proof (nibble_range a)
    end;
  repeat match goal with
    | |- context [if ?b then _ else _] => destruct b
    end;
  lia.

#[local] Hint Extern 3 (byte _) => solve [arith] : valid.
#[local] Hint Extern 3 (fetch_addr _) => solve [arith] : valid.
#[local] Hint Extern 3 (_ <= _) => solve [arith] : valid.
#[local] Hint Extern 3 (_ <= _ <= _) => solve [arith] : valid.
#[local] Hint Extern 3 (_ < _) => solve [arith] : valid.
#[local] Hint Extern 3 (_ = _ :> Z) => solve [arith] : valid.


Ltac solve_valid :=
  repeat match goal with
    | H : stays _ _ |- _ => destruct H
    | H : valid _ |- _ => destruct H
    end;
  unfold stays;
  repeat match goal with |- _ /\ _ => split end;
  try (constructor; proj_simpl); eauto 6 with valid.

Lemma for_each_stays {A} (l : list A) (body : A -> M unit) s0 s :
  (forall a s', stays s0 s' -> wp (body a) (fun _ => stays s0) (stays s0) s') ->
  stays s0 s ->
  wp (for_each l body) (fun _ => stays s0) (stays s0) s.
Proof.
  intros Hb Hs. apply (wp_for_each (fun _ => stays s0)); auto.
Qed.

Lemma draw_col_stays x y row sprite col s0 s :
  stays s0 s -> wp (draw_col x y row sprite col) (fun _ => stays s0) (stays s0) s.
Proof.
  intros Hs. unfold draw_col. wp_run; solve_valid.
Qed.

Lemma draw_row_stays x y row s0 s :
  stays s0 s -> wp (draw_row x y row) (fun _ => stays s0) (stays s0) s.
Proof.
  intros Hs. unfold draw_row. wp_run; [|solve_valid].
  apply for_each_stays; [|assumption].
  intros col s' Hs'. now apply draw_col_stays.
Qed.

Lemma dump_stays s0 s i :
  stays s0 s ->
  wp (a <- gets I ;; vi <- get_V i ;; put_mem (a + i) vi)
     (fun _ => stays s0) (stays s0) s.
Proof. intros Hs. wp_run; solve_valid. Qed.

Lemma load_stays s0 s i :
  stays s0 s ->
  wp (a <- gets I ;; b <- get_mem (a + i) ;; put_V i b)
     (fun _ => stays s0) (stays s0) s.
Proof. intros Hs. wp_run; solve_valid. Qed.

(** A loop that stays, followed by the rest of the branch. *)
Lemma wp_loop_stays {A} (l : list A) (body : A -> M unit) Q s0 s :
  (forall a s', stays s0 s' -> wp (body a) (fun _ => stays s0) (stays s0) s') ->
  stays s0 s ->
  (forall s', stays s0 s' -> Q tt s') ->
  wp (for_each l body) Q valid s.
Proof.
  intros Hb Hs HQ.
  apply (wp_mono _ (fun _ => stays s0) _ (stays s0)).
  - apply for_each_stays; assumption.
  - intros [] s'. apply HQ.
  - now intros s' [H _].
Qed.

Lemma execute_valid rnd opcode s :
  valid s -> PC s < 4094 ->
  wp (execute rnd opcode) (fun _ => valid) valid s.
Proof.
  intros Hv Hpc.
  pose proof (nibble_range opcode) as Hn.
  pose proof (nibble_range (Z.shiftr opcode 8)) as Hx.
  pose proof (nibble_range (Z.shiftr opcode 4)) as Hy.
  pose proof (byte_range opcode) as Hnn.
  pose proof (addr_range opcode) as Hnnn.
  unfold execute.
  set (n := Z.land opcode 0xF) in *.
  set (x := Z.land (Z.shiftr opcode 8) 0xF) in *.
  set (y := Z.land (Z.shiftr opcode 4) 0xF) in *.
  set (nn := Z.land opcode 0xFF) in *.
  set (nnn := Z.land opcode 0xFFF) in *.
  clearbody n x y nn nnn.
  wp_run.
  all: try solve [solve_valid].
  - apply (wp_loop_stays _ _ _ s).
    + intros row s' Hs'. now apply draw_row_stays.
    + solve_valid.
    + intros s' Hs'. wp_run. solve_valid.
  - apply (wp_loop_stays _ _ _ s).
    + intros i s' Hs'. now apply dump_stays.
    + solve_valid.
    + intros s' Hs'. wp_run; solve_valid.
  - apply (wp_loop_stays _ _ _ s).
    + intros i s' Hs'. now apply load_stays.
    + solve_valid.
    + intros s' Hs'. wp_run; solve_valid.
Qed.

Lemma cycle_valid rnd s : valid s -> wp (cycle rnd) (fun _ => valid) valid s.
Proof.
  intros Hv. unfold cycle. wp_run; try assumption.
  apply execute_valid; [assumption|].
  destruct Hv. rewrite valid_max_pc0 in *. lia.
Qed.

Lemma update_timers_valid s : valid s -> wp update_timers (fun _ => valid) valid s.
Proof.
  intros Hv. unfold update_timers. wp_run; solve_valid.
Qed.

Lemma key_press_valid k s :
  0 <= k <= 15 -> valid s -> wp (key_press k) (fun _ => valid) valid s.
Proof.
  intros Hk Hv. unfold key_press. wp_run; solve_valid.
Qed.

Lemma key_release_valid k s : valid s -> wp (key_release k) (fun _ => valid) valid s.
Proof.
  intros Hv. unfold key_release. wp_run; solve_valid.
Qed.

Lemma handle_valid e s : key_code e -> valid s -> valid (final (handle e s)).
Proof.
  intros He Hv. apply wp_final. destruct e; cbn [handle key_code] in *.
  - now apply cycle_valid.
  - now apply update_timers_valid.
  - now apply key_press_valid.
  - now apply key_release_valid.
Qed.

Lemma after_valid es : forall s, Forall key_code es -> valid s -> valid (after es s).
Proof.
  induction es as [|e es IH]; intros s Hes Hv; [assumption|].
  cbn [after fold_left]. apply Forall_cons in Hes as [He Hes].
  apply IH; [assumption|]. now apply handle_valid.
Qed.

Lemma power_on_memory : Forall byte (memory power_on).
Proof.
  change (memory power_on) with (FONTSET ++ repeat 0 4016%nat).
  apply Forall_app. split.
  - unfold FONTSET, byte. repeat (constructor; [lia|]). constructor.
  - apply List.Forall_forall. intros z Hz%repeat_spec.
    subst z. unfold byte. lia.
Qed.

Lemma loaded_valid data :
  Forall byte data -> Z.of_nat (length data) <= 3584 -> valid (loaded data).
Proof.
  intros Hd Hlen. pose proof power_on_memory as Hm.
  constructor; try (cbn; unfold byte; lia); try reflexivity.
  - cbn. repeat (constructor; [unfold byte; lia|]). constructor.
  - unfold loaded. proj_simpl. rewrite !Forall_app.
    auto using Forall_take, Forall_drop.
  - cbn. repeat (constructor; [unfold fetch_addr; lia|]). constructor.
  - apply blank_display_rows.
Qed.

(** ** Which instructions raise *)


Lemma valid_frame s : valid s -> frame s s.
Proof. intros []. repeat split; assumption. Qed.

Lemma in_range n a : In a (Py.range n) <-> 0 <= a < n.
Proof.
  unfold Py.range. rewrite in_map_iff. split.
  - intros (k & <- & Hk%in_seq). lia.
  - intros H. exists (Z.to_nat a). split; [lia|]. apply in_seq. lia.
Qed.

(** What the subscripts evaluated so far say about their indices. *)
Ltac index_facts :=
  repeat match goal with
    | H : Py.getitem ?l ?i = None |- _ => apply getitem_None in H
    | H : Py.setitem ?l ?i ?v = None |- _ => apply setitem_None in H
    | H : Py.setitem ?l ?i ?v = Some ?l' |- _ =>
        let Hl := fresh "Hl" in
        pose proof (setitem_length l i v l' H) as Hl;
        apply setitem_Some in H as (? & ?%index_Some & ?)
    | H : Py.getitem (display ?s) ?i = Some ?r, F : Forall _ (display ?s) |- _ =>
        let Hr := fresh "Hr" in
        pose proof (getitem_row _ i r F H) as Hr;
        apply getitem_Some in H as (? & ?%index_Some & ?)
    | H : Py.getitem ?l ?i = Some ?a |- _ =>
        apply getitem_Some in H as (? & ?%index_Some & ?)
    end;
  repeat match goal with
    | |- context [?a mod 64] =>
        lazymatch goal with
        | _ : 0 <= a mod 64 < 64 |- _ => fail
        | _ => pose proof (Z.mod_pos_bound a 64 eq_refl)
        end
    | |- context [?a mod 32] =>
        lazymatch goal with
        | _ : 0 <= a mod 32 < 32 |- _ => fail
        | _ => pose proof (Z.mod_pos_bound a 32 eq_refl)
        end
    | _ : context [?a mod 64] |- _ =>
        lazymatch goal with
        | _ : 0 <= a mod 64 < 64 |- _ => fail
        | _ => pose proof (Z.mod_pos_bound a 64 eq_refl)
        end
    | _ : context [?a mod 32] |- _ =>
        lazymatch goal with
        | _ : 0 <= a mod 32 < 32 |- _ => fail
        | _ => pose proof (Z.mod_pos_bound a 32 eq_refl)
        end
    end.

Ltac no_raise :=
  exfalso;
  repeat match goal with
    | H : frame _ _ |- _ => destruct H as (? & ? & ? & ? & ?)
    | H : valid _ |- _ => destruct H
    end;
  index_facts; subst; proj_simpl;
  repeat match goal with H : length ?l = _ |- _ => rewrite H in * end;
  lia.

Ltac keep_frame :=
  repeat match goal with
    | H : frame _ _ |- _ => destruct H as (? & ? & ? & ? & ?)
    end;
  unfold frame; proj_simpl;
  repeat match goal with |- _ /\ _ => split end;
  eauto 6 with valid; try congruence.

Lemma draw_col_frame x y row sprite col s0 s :
  0 <= x < 16 -> 0 <= y < 16 ->
  frame s0 s ->
  wp (draw_col x y row sprite col) (fun _ => frame s0) (fun _ => False) s.
Proof.
  intros Hx Hy Hs. unfold draw_col. wp_run.
  all: try solve [keep_frame].
  all: try solve [no_raise].
Qed.

(** A row of the sprite is drawn unless its byte lies outside memory. *)
Lemma draw_row_frame x y row s0 s :
  0 <= x < 16 -> 0 <= y < 16 -> 0 <= row -> 0 <= I s0 ->
  frame s0 s ->
  wp (draw_row x y row)
     (fun _ s' => frame s0 s' /\ I s0 + row < Z.of_nat (length (memory s0)))
     (fun _ => Z.of_nat (length (memory s0)) <= I s0 + row) s.
Proof.
  intros Hx Hy Hrow HI Hs. unfold draw_row. wp_run.
  - apply (wp_for_each (fun _ => frame s0)); [assumption| |].
    + intros pre col post s' _ Hs'.
      apply (wp_mono _ (fun _ => frame s0) _ (fun _ => False));
        [apply draw_col_frame; assumption|auto|tauto].
    + intros s' Hs'. split; [assumption|].
      destruct Hs as (_ & _ & _ & HIs & Hlen).
      apply getitem_Some in H as (k & [Hk _]%index_Some & _). lia.
  - destruct Hs as (_ & _ & _ & HIs & Hlen).
    apply getitem_None in H. lia.
Qed.

Lemma dump_frame i s0 s :
  0 <= i < 16 -> 0 <= I s0 ->
  frame s0 s ->
  wp (a <- gets I ;; vi <- get_V i ;; put_mem (a + i) vi)
     (fun _ s' => frame s0 s' /\ I s0 + i < Z.of_nat (length (memory s0)))
     (fun _ => Z.of_nat (length (memory s0)) <= I s0 + i) s.
Proof.
  intros Hi HI Hs. wp_run.
  - split; [keep_frame|].
    destruct Hs as (_ & _ & _ & HIs & Hlen).
    apply setitem_Some in H0 as (k & [Hk _]%index_Some & _). lia.
  - destruct Hs as (_ & _ & _ & HIs & Hlen).
    apply setitem_None in H0. lia.
  - no_raise.
Qed.

Lemma load_frame i s0 s :
  0 <= i < 16 -> 0 <= I s0 ->
  frame s0 s ->
  wp (a <- gets I ;; b <- get_mem (a + i) ;; put_V i b)
     (fun _ s' => frame s0 s' /\ I s0 + i < Z.of_nat (length (memory s0)))
     (fun _ => Z.of_nat (length (memory s0)) <= I s0 + i) s.
Proof.
  intros Hi HI Hs. wp_run.
  - split; [keep_frame|].
    destruct Hs as (_ & _ & _ & HIs & Hlen).
    apply getitem_Some in H as (k & [Hk _]%index_Some & _). lia.
  - no_raise.
  - destruct Hs as (_ & _ & _ & HIs & Hlen).
    apply getitem_None in H. lia.
Qed.

(** A loop over [range(n)] whose body at [i] touches address [I + i]:
    it runs through exactly when [I + n] does not pass the end of memory. *)
Lemma wp_range_frame n (body : Z -> M unit) (Q : unit -> cpu -> Prop) E s0 s :
  (forall i s', 0 <= i < n -> frame s0 s' ->
     wp (body i)
        (fun _ s'' => frame s0 s'' /\ I s0 + i < Z.of_nat (length (memory s0)))
        (fun _ => Z.of_nat (length (memory s0)) <= I s0 + i) s') ->
  frame s0 s ->
  (forall s', frame s0 s' ->
     (n <= 0 \/ I s0 + n <= Z.of_nat (length (memory s0))) -> Q tt s') ->
  (forall s', 0 < n -> Z.of_nat (length (memory s0)) < I s0 + n -> E s') ->
  wp (for_each (Py.range n) body) Q E s.
Proof.
  intros Hb Hs HQ HE.
  apply (wp_for_each
           (fun pre s' =>
              frame s0 s' /\
              Forall (fun i => I s0 + i < Z.of_nat (length (memory s0))) pre)).
  - split; [assumption|constructor].
  - intros pre i post s' Hl [Hs' Hpre].
    assert (Hi : 0 <= i < n).
    { apply in_range. rewrite Hl. apply in_or_app. right. now left. }
    eapply wp_mono; [apply Hb; assumption| |]; cbv beta.
    + intros _ s'' [Hs'' Hlt]. split; [assumption|].
      apply Forall_app. split; [assumption|]. now repeat constructor.
    + intros s'' Hge. apply HE; lia.
  - intros s' [Hs' Hall]. apply HQ; [assumption|].
    destruct (Z.le_gt_cases n 0) as [|Hpos]; [now left|right].
    assert (Hlast : In (n - 1) (Py.range n)) by (apply in_range; lia).
    rewrite List.Forall_forall in Hall. specialize (Hall _ Hlast). lia.
Qed.

Ltac bool_facts :=
  repeat match goal with
    | H : _ && _ = true |- _ => apply andb_true_iff in H as [? ?]
    | H : (_ =? _) = true |- _ => apply Z.eqb_eq in H
    end.

(** Decide which case of [within] the branch at hand is in. *)
Ltac pick_within :=
  unfold within, op_x, reg;
  bool_facts;
  repeat match goal with
    | H : Z.shiftr ?o 12 = _ |- _ => rewrite H in *
    | H : ?o = 0xE0 |- _ => rewrite H in *
    | H : ?o = 0xEE |- _ => rewrite H in *
    | H : Z.land ?o 0xFF = _ |- _ => rewrite H in *
    end;
  repeat match goal with
    | H : ?b = false |- context [?b] => rewrite H
    end;
  cbn [Z.eqb Pos.eqb andb orb Z.shiftr Z.shiftl Z.land Pos.land Z.opp
       Pos.iter Z.div2 Pos.div2 Z.of_N Pos.Nsucc_double Pos.Ndouble].

Lemma execute_within rnd opcode s :
  valid s ->
  wp (execute rnd opcode) (fun _ _ => within opcode s) (fun _ => ~ within opcode s) s.
Proof.
  intros Hv.
  pose proof (nibble_range opcode) as Hn.
  pose proof (nibble_range (Z.shiftr opcode 8)) as Hx.
  pose proof (nibble_range (Z.shiftr opcode 4)) as Hy.
  unfold execute.
  wp_run.
  all: try solve [pick_within; exact Logic.I].
  all: try solve [no_raise].
  - (* return *)
    pick_within. destruct Hv. index_facts. lia.
  - pick_within. destruct Hv. index_facts. lia.
  - (* call *)
    pick_within. destruct Hv. index_facts. lia.
  - pick_within. destruct Hv. index_facts. lia.
  - (* draw *)
    apply (wp_range_frame _ _ _ _ s).
    + intros row s' Hrow Hs'. apply draw_row_frame; try assumption; try lia.
      apply Hv.
    + destruct Hv. unfold frame. proj_simpl.
      erewrite setitem_length by eassumption. auto.
    + intros s' Hs' Hw. wp_run. pick_within. lia.
    + intros s' Hpos Hgt. pick_within. lia.
  - (* skip if key pressed *)
    pick_within. exists a. split; [assumption|].
    destruct Hv. index_facts. lia.
  - pick_within. intros (v & Hv' & Hle). rewrite H in Hv'. injection Hv' as <-.
    destruct Hv. pose proof (getitem_byte _ _ _ valid_V0 H) as Hb.
    unfold byte in Hb. apply getitem_None in H0. lia.
  - (* skip if key not pressed *)
    pick_within. exists a. split; [assumption|].
    destruct Hv. index_facts. lia.
  - pick_within. intros (v & Hv' & Hle). rewrite H in Hv'. injection Hv' as <-.
    destruct Hv. pose proof (getitem_byte _ _ _ valid_V0 H) as Hb.
    unfold byte in Hb. apply getitem_None in H0. lia.
  - (* register dump *)
    apply (wp_range_frame _ _ _ _ s).
    + intros i s' Hi Hs'. apply dump_frame; try assumption; try lia. apply Hv.
    + now apply valid_frame.
    + intros s' Hs' Hw. wp_run; pick_within; lia.
    + intros s' Hpos Hgt. pick_within. lia.
  - (* register load *)
    apply (wp_range_frame _ _ _ _ s).
    + intros i s' Hi Hs'. apply load_frame; try assumption; try lia. apply Hv.
    + now apply valid_frame.
    + intros s' Hs' Hw. wp_run; pick_within; lia.
    + intros s' Hpos Hgt. pick_within. lia.
Qed.

(** C7 (as the code has it): on a valid machine an instruction returns
    exactly when every subscript it evaluates is inside its list, and raises
    [IndexError] otherwise: return and call need the stack pointer in
    [-15, 16] and [-16, 15], draw-sprite with N > 0 rows needs I + N within
    memory, the key tests need a register value of at most 15, register
    dump and load need I + X inside memory; every other instruction,
    store-BCD included, returns whatever the index register holds. *)
Theorem execute_returns_iff_within rnd opcode s :
  valid s ->
  (returned (execute rnd opcode s) = true <-> within opcode s).
Proof.
  intros Hv. pose proof (execute_within rnd opcode s Hv) as H.
  unfold wp in H. unfold returned.
  destruct (execute rnd opcode s); split; intros;
    first [reflexivity | assumption | discriminate | contradiction].
Qed.

Lemma power_on_valid : valid power_on.
Proof.
  replace power_on with (loaded []) by (vm_compute; reflexivity).
  apply loaded_valid; [constructor | cbn; lia].
Qed.

Lemma execute_returns_iff_within_witness :
  let s := set_I 4095 power_on in
  valid s /\
  (returned (execute 0 0xD005 s) = true <-> within 0xD005 s).
Proof.
  assert (Hv : valid (set_I 4095 power_on)).
  { destruct power_on_valid. constructor; proj_simpl; try assumption. lia. }
  split; [exact Hv|].
  apply (execute_returns_iff_within 0 0xD005 (set_I 4095 power_on) Hv).
Defined.

(** ** The program counter *)

Lemma cycle_halted rnd s : valid s -> 4094 <= PC s -> cycle rnd s = Ok tt s.
Proof.
  intros Hv Hpc. unfold cycle, bind, gets, ret.
  destruct (waiting_for_key s); [reflexivity|].
  rewrite (valid_max_pc s Hv).
  destruct (Z.geb_spec (PC s) 4094); [reflexivity|lia].
Qed.

(** C8 (as the code has it): once a ROM is loaded, whatever cycles, timer
    ticks and key events follow, the program counter stays between 0 and
    4350 (0xFFF + 0xFF), and a cycle does nothing once it is at 4094 or
    beyond. *)
Theorem pc_range rom es s_before :
  Forall byte rom ->
  Z.of_nat (length rom) <= 3584 ->
  Forall key_code es ->
  exists s0,
    load_rom rom s_before = Ok true s0 /\
    PC s0 = 0x200 /\
    0 <= PC (after es s0) <= 4350 /\
    (forall rnd, 4094 <= PC (after es s0) ->
                 cycle rnd (after es s0) = Ok tt (after es s0)).
Proof.
  intros Hrom Hlen Hes. exists (loaded rom).
  pose proof (load_rom_eq rom s_before) as Hload.
  assert (Hpc : PC (loaded rom) = 0x200) by reflexivity.
  destruct (Z.leb_spec (Z.of_nat (length rom)) 3584); [|lia].
  assert (Hv : valid (after es (loaded rom))).
  { apply after_valid; [assumption|]. now apply loaded_valid. }
  split; [assumption|]. split; [assumption|]. split.
  - apply Hv.
  - intros rnd Hge. now apply cycle_halted.
Qed.

Lemma pc_range_witness :
  exists s0,
    load_rom [0x60; 0xFF; 0xBF; 0xFF] power_on = Ok true s0 /\
    PC s0 = 0x200 /\
    0 <= PC (after [Cycle 0; Tick; KeyPress 3; Cycle 0] s0) <= 4350 /\
    (forall rnd, 4094 <= PC (after [Cycle 0; Tick; KeyPress 3; Cycle 0] s0) ->
                 cycle rnd (after [Cycle 0; Tick; KeyPress 3; Cycle 0] s0)
                 = Ok tt (after [Cycle 0; Tick; KeyPress 3; Cycle 0] s0)).
Proof.
  apply (pc_range [0x60; 0xFF; 0xBF; 0xFF] [Cycle 0; Tick; KeyPress 3; Cycle 0] power_on).
  - repeat constructor; unfold byte; lia.
  - cbn. lia.
  - repeat constructor; cbn; lia.
Defined.

(** Both ends of the range are reached. *)
Lemma pc_range_attained :
  PC (final (boot_and_run [0x60; 0xFF; 0xBF; 0xFF] 2)) = 4350 /\
  PC (final (boot_and_run [0x10; 0x00] 1)) = 0.
Proof. vm_compute. split; reflexivity. Qed.

(** ** The size of memory *)

Lemma store_bcd_size (l : list Z) i d1 d2 d3 :
  0 <= i ->
  Z.of_nat (length (Py.setslice l i (i + 3) [d1; d2; d3]))
  = Z.max (Z.of_nat (length l)) (Z.min i (Z.of_nat (length l)) + 3).
Proof.
  intros Hi. unfold Py.setslice, Py.clamp.
  destruct (Z.ltb_spec i 0); [lia|].
  destruct (Z.ltb_spec (i + 3) 0); [lia|].
  rewrite !length_app, length_take, length_drop. cbn [length]. lia.
Qed.

(** [same_size s0 s]: memory has as many cells in [s] as in [s0]. *)
Ltac same_size :=
  proj_simpl;
  repeat match goal with
    | H : Py.setitem (memory _) _ _ = Some _ |- _ =>
        apply setitem_length in H
    end;
  congruence.

(** A loop whose body keeps [P], whether it returns or raises. *)
Lemma wp_for_each_inv {A} (P : cpu -> Prop) (l : list A) (body : A -> M unit)
    (Q : unit -> cpu -> Prop) s :
  (forall a s', P s' -> wp (body a) (fun _ => P) P s') ->
  P s ->
  (forall s', P s' -> Q tt s') ->
  wp (for_each l body) Q P s.
Proof.
  intros Hb Hs HQ. apply (wp_for_each (fun _ => P)); auto.
Qed.

(** Every instruction but store-BCD (FX33) leaves memory with the number
    of cells it had, whether it returns or raises. *)
Lemma execute_keeps_memory_size rnd opcode s :
  ~ (Z.shiftr opcode 12 = 0xF /\ Z.land opcode 0xFF = 0x33) ->
  length (memory (final (execute rnd opcode s))) = length (memory s).
Proof.
  intros Hnot.
  apply (wp_final _ (fun s' => length (memory s') = length (memory s))).
  unfold execute. wp_run.
  all: try solve [same_size].
  - apply wp_for_each_inv; [|reflexivity|intros s' Hs'; wp_run; same_size].
    intros row s' Hs'. unfold draw_row. wp_run; [|assumption].
    apply wp_for_each_inv; [|assumption|auto].
    intros col s'' Hs''. unfold draw_col. wp_run; same_size.
  - exfalso. apply Hnot. split; now apply Z.eqb_eq.
  - apply wp_for_each_inv; [|reflexivity|intros s' Hs'; wp_run; same_size].
    intros i s' Hs'. wp_run; same_size.
  - apply wp_for_each_inv; [|reflexivity|intros s' Hs'; wp_run; same_size].
    intros i s' Hs'. wp_run; same_size.
Qed.

(** Store-BCD returns on every machine with 16 registers; memory then has
    [max len (min I len + 3)] cells. *)
Lemma store_bcd_memory_size rnd opcode s :
  Z.shiftr opcode 12 = 0xF -> Z.land opcode 0xFF = 0x33 ->
  length (V s) = 16%nat -> 0 <= I s ->
  exists s',
    execute rnd opcode s = Ok tt s' /\
    Z.of_nat (length (memory s'))
    = Z.max (Z.of_nat (length (memory s)))
            (Z.min (I s) (Z.of_nat (length (memory s))) + 3).
Proof.
  intros Hop Hnn HV HI. unfold execute.
  destruct (family_not_0 opcode 0xF Hop) as [-> ->]; [lia|].
  rewrite Hop, Hnn. cbn [Z.eqb Pos.eqb andb]. cbv beta iota.
  pose proof (nibble_range (Z.shiftr opcode 8)) as Hx.
  destruct (Py.getitem (V s) (Z.land (Z.shiftr opcode 8) 0xF)) as [v|] eqn:Hv.
  - eexists. split.
    + unfold bind. rewrite (get_V_eq _ _ _ Hv). reflexivity.
    + cbn [memory set_PC set_memory]. now apply store_bcd_size.
  - apply getitem_None in Hv. lia.
Qed.

(** ** Subtraction away from register 0xF *)

Lemma wp_Ok {A} (m : M A) (Q : A -> cpu -> Prop) s :
  wp m Q (fun _ => False) s -> exists a s', m s = Ok a s' /\ Q a s'.
Proof. unfold wp. destruct (m s); [eauto|contradiction]. Qed.

Lemma getitem_setitem_other {A} (l : list A) i j v l' :
  Py.setitem l i v = Some l' ->
  0 <= i < Z.of_nat (length l) -> 0 <= j < Z.of_nat (length l) -> i <> j ->
  Py.getitem l' j = Py.getitem l j.
Proof.
  intros H Hi Hj Hne. rewrite setitem_nonneg in H by assumption.
  injection H as <-. rewrite !getitem_nonneg by (rewrite ?length_insert; lia).
  apply list_lookup_insert_ne. lia.
Qed.

(** SUB (8XY5) with X other than 0xF: register 0xF ends as 1 when the
    minuend V[x] is at least the subtrahend V[y], and as 0 otherwise. *)
Lemma sub_flag_when_x_not_F rnd opcode s vx vy :
  Z.shiftr opcode 12 = 8 ->
  Z.land opcode 0xF = 5 ->
  op_x opcode <> 0xF ->
  length (V s) = 16%nat ->
  reg s (op_x opcode) = Some vx ->
  reg s (op_y opcode) = Some vy ->
  exists s',
    execute rnd opcode s = Ok tt s' /\
    reg s' 0xF = Some (if vx >=? vy then 1 else 0).
Proof.
  intros Hop Hn Hxf Hlen Hvx Hvy. unfold reg, op_x, op_y in *.
  pose proof (nibble_range (Z.shiftr opcode 8)) as Hx.
  pose proof (nibble_range (Z.shiftr opcode 4)) as Hy.
  cut (wp (execute rnd opcode)
          (fun _ s' => Py.getitem (V s') 0xF = Some (if vx >=? vy then 1 else 0))
          (fun _ => False) s).
  { intros ([] & s' & H1 & H2)%wp_Ok. eauto. }
  unfold execute.
  destruct (family_not_0 opcode 8 Hop) as [-> ->]; [lia|].
  rewrite Hop, Hn. cbn [Z.eqb Pos.eqb andb]. cbv beta iota.
  wp_run.
  all: try solve [no_raise].
  assert (a = vx) by congruence. assert (a0 = vy) by congruence. subst a a0.
  pose proof (setitem_length _ _ _ _ H1) as Hl1.
  rewrite (getitem_setitem_other _ _ 0xF _ _ H4) by (rewrite ?Hl1, ?Hlen; lia).
  apply (getitem_setitem_same _ _ _ _ H1).
Qed.

(** Reverse-SUB (8XY7) with X other than 0xF. *)
Lemma subn_flag_when_x_not_F rnd opcode s vx vy :
  Z.shiftr opcode 12 = 8 ->
  Z.land opcode 0xF = 7 ->
  op_x opcode <> 0xF ->
  length (V s) = 16%nat ->
  reg s (op_x opcode) = Some vx ->
  reg s (op_y opcode) = Some vy ->
  exists s',
    execute rnd opcode s = Ok tt s' /\
    reg s' 0xF = Some (if vy >=? vx then 1 else 0).
Proof.
  intros Hop Hn Hxf Hlen Hvx Hvy. unfold reg, op_x, op_y in *.
  pose proof (nibble_range (Z.shiftr opcode 8)) as Hx.
  pose proof (nibble_range (Z.shiftr opcode 4)) as Hy.
  cut (wp (execute rnd opcode)
          (fun _ s' => Py.getitem (V s') 0xF = Some (if vy >=? vx then 1 else 0))
          (fun _ => False) s).
  { intros ([] & s' & H1 & H2)%wp_Ok. eauto. }
  unfold execute.
  destruct (family_not_0 opcode 8 Hop) as [-> ->]; [lia|].
  rewrite Hop, Hn. cbn [Z.eqb Pos.eqb andb]. cbv beta iota.
  wp_run.
  all: try solve [no_raise].
  assert (a = vy) by congruence. assert (a0 = vx) by congruence. subst a a0.
  pose proof (setitem_length _ _ _ _ H1) as Hl1.
  rewrite (getitem_setitem_other _ _ 0xF _ _ H4) by (rewrite ?Hl1, ?Hlen; lia).
  apply (getitem_setitem_same _ _ _ _ H1).
Qed.

(** ** Drawing twice *)

Lemma toggle_toggle d p : toggle (toggle d p) p = d.
Proof.
  unfold toggle. rewrite list_alter_alter_eq. apply list_alter_id.
  intros row. unfold compose. rewrite list_alter_alter_eq. apply list_alter_id.
  intros v. unfold compose.
  now rewrite Z.lxor_assoc, Z.lxor_nilpotent, Z.lxor_0_r.
Qed.

Lemma toggle_comm d p q : toggle (toggle d p) q = toggle (toggle d q) p.
Proof.
  unfold toggle. destruct (decide (fst q = fst p)) as [Hr|Hr].
  - rewrite Hr, !list_alter_alter_eq. apply list_alter_ext; [|reflexivity].
    intros row _. unfold compose. destruct (decide (snd q = snd p)) as [Hc|Hc].
    + now rewrite Hc.
    + now apply list_alter_alter_ne.
  - now apply list_alter_alter_ne.
Qed.

Lemma toggle_fold hs : forall d p,
  toggle (fold_left toggle hs d) p = fold_left toggle hs (toggle d p).
Proof.
  induction hs as [|h hs IH]; intros d p; [reflexivity|].
  cbn [fold_left]. now rewrite IH, toggle_comm.
Qed.

(** Flipping the same pixels again gives the screen back. *)
Lemma blit_twice hs : forall d, fold_left toggle hs (fold_left toggle hs d) = d.
Proof.
  induction hs as [|h hs IH]; intros d; [reflexivity|].
  cbn [fold_left]. now rewrite <- (toggle_fold hs d h), toggle_toggle.
Qed.

Lemma alter_insert {A} (f : A -> A) (l : list A) i x :
  l !! i = Some x -> <[i := f x]> l = alter f i l.
Proof.
  revert i. induction l as [|a l IH]; intros [|i] H; try discriminate.
  - injection H as ->. reflexivity.
  - cbn. f_equal. now apply IH.
Qed.

Lemma setitem_toggle (d d' : list (list Z)) r r' py px p :
  0 <= py -> 0 <= px ->
  Py.getitem d py = Some r ->
  Py.getitem r px = Some p ->
  Py.setitem r px (Z.lxor p 1) = Some r' ->
  Py.setitem d py r' = Some d' ->
  d' = toggle d (Z.to_nat py, Z.to_nat px).
Proof.
  intros Hpy Hpx Hr Hp Hr' Hd'.
  apply getitem_Some in Hr as (kr & Ekr & Hr).
  apply getitem_Some in Hp as (kp & Ekp & Hp).
  apply setitem_Some in Hr' as (kp' & Ekp' & ->).
  apply setitem_Some in Hd' as (kr' & Ekr' & ->).
  assert (kr' = kr) by congruence. assert (kp' = kp) by congruence. subst.
  assert (kr = Z.to_nat py).
  { apply index_Some in Ekr as Hb. rewrite index_nonneg in Ekr by lia. congruence. }
  assert (kp = Z.to_nat px).
  { apply index_Some in Ekp as Hb. rewrite index_nonneg in Ekp by lia. congruence. }
  subst. unfold toggle. cbn [fst snd].
  rewrite (alter_insert (fun v => Z.lxor v 1) r _ p Hp).
  now apply alter_insert.
Qed.

Lemma draw_col_drawn s0 x y vx vy hs row sprite col s :
  0 <= x < 16 -> 0 <= y < 16 -> x <> 0xF -> y <> 0xF ->
  Py.getitem (V s0) x = Some vx ->
  Py.getitem (V s0) y = Some vy ->
  drawn s0 x y hs s ->
  wp (draw_col x y row sprite col)
     (fun _ => drawn s0 x y (hs ++ col_hits vx vy sprite row col))
     (fun _ => False) s.
Proof.
  intros Hx Hy Hxf Hyf Hvx Hvy (Hf & Hm & Hsx & Hsy & Hd).
  unfold draw_col, col_hits.
  destruct (Py.truthy (Z.land sprite (Z.shiftr 0x80 col))).
  2:{ apply wp_ret. rewrite app_nil_r. unfold drawn. tauto. }
  wp_run.
  all: try solve [no_raise].
  all: assert (a = vx) by congruence; assert (a0 = vy) by congruence; subst a a0.
  all: pose proof (Z.mod_pos_bound (vy + row) 32 eq_refl) as Hpy.
  all: pose proof (Z.mod_pos_bound (vx + col) 64 eq_refl) as Hpx.
  all: match goal with
       | Hr : Py.getitem (display ?m) ?py = Some ?r,
         Hp : Py.getitem ?r ?px = Some ?p,
         Hr' : Py.setitem ?r ?px (Z.lxor ?p 1) = Some ?r',
         Hd' : Py.setitem (display ?m) ?py ?r' = Some ?d' |- _ =>
           pose proof (setitem_toggle _ _ _ _ _ _ _ (proj1 Hpy) (proj1 Hpx)
                         Hr Hp Hr' Hd') as Ht
       end.
  all: assert (HfV : length (V s) = 16%nat) by apply Hf.
  all: unfold drawn; proj_simpl.
  all: split; [keep_frame|]; split; [assumption|].
  - rewrite (getitem_setitem_other _ _ x _ _ H3) by (rewrite ?HfV; lia).
    rewrite (getitem_setitem_other _ _ y _ _ H3) by (rewrite ?HfV; lia).
    split; [assumption|]. split; [assumption|].
    now rewrite fold_left_app, <- Hd, Ht.
  - split; [assumption|]. split; [assumption|].
    now rewrite fold_left_app, <- Hd, Ht.
Qed.

Lemma draw_row_drawn s0 x y vx vy hs row sprite s :
  0 <= x < 16 -> 0 <= y < 16 -> x <> 0xF -> y <> 0xF ->
  Py.getitem (V s0) x = Some vx ->
  Py.getitem (V s0) y = Some vy ->
  Py.getitem (memory s0) (I s0 + row) = Some sprite ->
  drawn s0 x y hs s ->
  wp (draw_row x y row)
     (fun _ => drawn s0 x y (hs ++ row_hits vx vy sprite row))
     (fun _ => False) s.
Proof.
  intros Hx Hy Hxf Hyf Hvx Hvy Hsp Hs. unfold draw_row.
  assert (Hmem : Py.getitem (memory s) (I s + row) = Some sprite).
  { destruct Hs as ((_ & _ & _ & -> & _) & -> & _). assumption. }
  wp_run; [|congruence].
  assert (a = sprite) by congruence. subst a.
  apply (wp_for_each
           (fun pre => drawn s0 x y (hs ++ flat_map (col_hits vx vy sprite row) pre))).
  - cbn [flat_map]. now rewrite app_nil_r.
  - intros pre col post s' _ Hs'.
    rewrite flat_map_app. cbn [flat_map]. rewrite app_nil_r, app_assoc.
    now apply draw_col_drawn.
  - auto.
Qed.

(** The draw instruction with X and Y other than 0xF, all sprite rows
    inside memory: the screen gets the pixels of the sprite flipped, and
    nothing the next draw reads is changed. *)
Lemma draw_drawn rnd opcode s vx vy :
  Z.shiftr opcode 12 = 0xD ->
  op_x opcode <> 0xF -> op_y opcode <> 0xF ->
  frame s s -> 0 <= I s ->
  I s + Z.land opcode 0xF <= Z.of_nat (length (memory s)) ->
  reg s (op_x opcode) = Some vx ->
  reg s (op_y opcode) = Some vy ->
  exists s',
    execute rnd opcode s = Ok tt s' /\
    drawn s (op_x opcode) (op_y opcode)
      (sprite_hits vx vy (memory s) (I s) (Z.land opcode 0xF)) s'.
Proof.
  intros Hop Hxf Hyf Hf HI Hfit Hvx Hvy. unfold reg, op_x, op_y in *.
  pose proof (nibble_range opcode) as Hn.
  pose proof (nibble_range (Z.shiftr opcode 8)) as Hx.
  pose proof (nibble_range (Z.shiftr opcode 4)) as Hy.
  set (x := Z.land (Z.shiftr opcode 8) 0xF) in *.
  set (y := Z.land (Z.shiftr opcode 4) 0xF) in *.
  set (n := Z.land opcode 0xF) in *.
  cut (wp (execute rnd opcode)
          (fun _ => drawn s x y (sprite_hits vx vy (memory s) (I s) n))
          (fun _ => False) s).
  { intros ([] & s' & H1 & H2)%wp_Ok. eauto. }
  unfold execute.
  destruct (family_not_0 opcode 0xD Hop) as [-> ->]; [lia|].
  rewrite Hop. cbn [Z.eqb Pos.eqb andb]. cbv beta iota.
  fold x y n.
  wp_run; [|no_raise].
  assert (HfV : length (V s) = 16%nat) by apply Hf.
  set (hits_of := fun row =>
         match Py.getitem (memory s) (I s + row) with
         | Some sprite => row_hits vx vy sprite row
         | None => []
         end).
  apply (wp_for_each (fun pre => drawn s x y (flat_map hits_of pre))).
  - unfold drawn. proj_simpl. cbn [flat_map fold_left].
    rewrite (getitem_setitem_other _ _ x _ _ H) by (rewrite ?HfV; lia).
    rewrite (getitem_setitem_other _ _ y _ _ H) by (rewrite ?HfV; lia).
    split; [|tauto]. destruct Hf as (? & ? & ? & ? & ?).
    unfold frame. proj_simpl. erewrite setitem_length by eassumption. tauto.
  - intros pre row post s' Hl Hs'.
    assert (Hrow : 0 <= row < n).
    { apply in_range. rewrite Hl. apply in_or_app. right. now left. }
    destruct (Py.getitem (memory s) (I s + row)) as [sprite|] eqn:Hsp.
    2:{ apply getitem_None in Hsp. lia. }
    rewrite flat_map_app. cbn [flat_map]. rewrite app_nil_r.
    unfold hits_of at 2. rewrite Hsp.
    now apply draw_row_drawn.
  - intros s' Hs'. wp_run.
    destruct Hs' as (Hf' & Hm & Hsx & Hsy & Hd).
    unfold drawn, frame in *. proj_simpl. tauto.
Qed.

(** For X and Y other than 0xF, the same draw instruction executed twice
    restores the screen. *)
Lemma draw_twice_restores rnd1 rnd2 opcode s :
  Z.shiftr opcode 12 = 0xD ->
  op_x opcode <> 0xF -> op_y opcode <> 0xF ->
  frame s s -> 0 <= I s ->
  I s + Z.land opcode 0xF <= Z.of_nat (length (memory s)) ->
  exists s1 s2,
    execute rnd1 opcode s = Ok tt s1 /\
    execute rnd2 opcode s1 = Ok tt s2 /\
    display s2 = display s.
Proof.
  intros Hop Hxf Hyf Hf HI Hfit.
  pose proof (nibble_range (Z.shiftr opcode 8)) as Hx.
  pose proof (nibble_range (Z.shiftr opcode 4)) as Hy.
  assert (HfV : length (V s) = 16%nat) by apply Hf.
  destruct (Py.getitem (V s) (op_x opcode)) as [vx|] eqn:Hvx.
  2:{ apply getitem_None in Hvx. unfold op_x in Hvx. lia. }
  destruct (Py.getitem (V s) (op_y opcode)) as [vy|] eqn:Hvy.
  2:{ apply getitem_None in Hvy. unfold op_y in Hvy. lia. }
  destruct (draw_drawn rnd1 opcode s vx vy) as (s1 & E1 & D1); try assumption.
  destruct D1 as (Hf1 & Hm1 & Hx1 & Hy1 & Hd1).
  assert (Hf1' : frame s1 s1).
  { destruct Hf1 as (? & ? & ? & ? & ?). unfold frame. tauto. }
  assert (HI1 : I s1 = I s) by apply Hf1.
  destruct (draw_drawn rnd2 opcode s1 vx vy) as (s2 & E2 & D2); try assumption.
  - lia.
  - rewrite HI1, Hm1. assumption.
  - unfold reg. congruence.
  - unfold reg. congruence.
  - exists s1, s2. split; [assumption|]. split; [assumption|].
    destruct D2 as (_ & _ & _ & _ & Hd2).
    rewrite Hd2, Hd1, HI1, Hm1. apply blit_twice.
Qed.

Lemma draw_twice_restores_witness :
  exists s1 s2,
    execute 0 0xD125 power_on = Ok tt s1 /\
    execute 0 0xD125 s1 = Ok tt s2 /\
    display s2 = display power_on.
Proof.
  apply (draw_twice_restores 0 0 0xD125 power_on);
    first [reflexivity | discriminate | apply (valid_frame _ power_on_valid)
          | cbn; lia].
Defined.

(** ** Register arithmetic: result and flag together *)

Lemma getitem_insert {A} (l : list A) i j v :
  0 <= i < Z.of_nat (length l) -> 0 <= j < Z.of_nat (length l) ->
  Py.getitem (<[Z.to_nat i := v]> l) j
  = if i =? j then Some v else Py.getitem l j.
Proof.
  intros Hi Hj. rewrite !getitem_nonneg by (rewrite ?length_insert; lia).
  destruct (Z.eqb_spec i j) as [->|Hne].
  - apply list_lookup_insert_eq. lia.
  - apply list_lookup_insert_ne. lia.
Qed.

(** Turn the register writes of a branch into explicit updates. *)
Ltac reg_writes :=
  repeat match goal with
    | H : Py.setitem ?l ?i ?v = Some ?l' |- _ =>
        rewrite setitem_nonneg in H by (rewrite ?length_insert; lia);
        injection H as <-
    end.

Ltac reg_reads :=
  repeat (rewrite getitem_insert in * by (rewrite ?length_insert; lia));
  repeat match goal with
    | H : context [?a =? ?b] |- _ => destruct (Z.eqb_spec a b); try lia
    | |- context [?a =? ?b] => destruct (Z.eqb_spec a b); try lia
    end.

Ltac family_8 Hop Hn :=
  unfold execute;
  destruct (family_not_0 _ 8 Hop) as [-> ->]; [lia|];
  rewrite Hop, Hn; cbn [Z.eqb Pos.eqb andb]; cbv beta iota.

Lemma land_255 a : Z.land a 0xFF = a mod 256.
Proof. change 0xFF with (Z.ones 8). now rewrite Z.land_ones by lia. Qed.

Lemma land_1 a : Z.land a 1 = a mod 2.
Proof. change 1 with (Z.ones 1) at 1. now rewrite Z.land_ones by lia. Qed.

(** ADD (8XY4), X other than 0xF: the byte left in V[x] and the carry left
    in V[0xF] make up the exact sum. *)
Theorem add_result_and_carry rnd opcode s vx vy :
  Z.shiftr opcode 12 = 8 ->
  Z.land opcode 0xF = 4 ->
  op_x opcode <> 0xF ->
  length (V s) = 16%nat ->
  reg s (op_x opcode) = Some vx ->
  reg s (op_y opcode) = Some vy ->
  byte vx -> byte vy ->
  exists s' r f,
    execute rnd opcode s = Ok tt s' /\
    reg s' (op_x opcode) = Some r /\
    reg s' 0xF = Some f /\
    byte r /\ (f = 0 \/ f = 1) /\
    r + 256 * f = vx + vy.
Proof.
  intros Hop Hn Hxf Hlen Hvx Hvy Hbx Hby. unfold reg, op_x, op_y, byte in *.
  pose proof (nibble_range (Z.shiftr opcode 8)) as Hx.
  pose proof (nibble_range (Z.shiftr opcode 4)) as Hy.
  cut (wp (execute rnd opcode)
          (fun _ s' =>
             exists r f,
               Py.getitem (V s') (Z.land (Z.shiftr opcode 8) 0xF) = Some r /\
               Py.getitem (V s') 0xF = Some f /\
               0 <= r <= 255 /\ (f = 0 \/ f = 1) /\ r + 256 * f = vx + vy)
          (fun _ => False) s).
  { intros ([] & s' & H1 & r & f & H2)%wp_Ok. exists s', r, f. tauto. }
  family_8 Hop Hn. wp_run.
  all: try solve [no_raise].
  assert (a = vx) by congruence. assert (a0 = vy) by congruence. subst a a0.
  reg_writes. do 2 eexists. split; [|split].
  - reg_reads. reflexivity.
  - reg_reads. reflexivity.
  - rewrite land_255. destruct (Z.gtb_spec (vx + vy) 255).
    + split; [|split; [now right|]]; Z.div_mod_to_equations; lia.
    + split; [|split; [now left|]]; Z.div_mod_to_equations; lia.
Qed.

Lemma add_result_and_carry_witness :
  exists s' r f,
    execute 0 0x8014 (set_V (<[0%nat := 200]> (<[1%nat := 100]> (V power_on))) power_on)
      = Ok tt s' /\
    reg s' 0 = Some r /\ reg s' 0xF = Some f /\
    byte r /\ (f = 0 \/ f = 1) /\ r + 256 * f = 200 + 100.
Proof.
  apply (add_result_and_carry 0 0x8014
           (set_V (<[0%nat := 200]> (<[1%nat := 100]> (V power_on))) power_on)
           200 100);
    first [reflexivity | discriminate | unfold byte; lia].
Defined.

(** SUB (8XY5) and reverse-SUB (8XY7), X and Y other than 0xF: the byte
    left in V[x] is the difference modulo 256, and V[0xF] is 1 exactly when
    nothing was borrowed. *)
Theorem sub_result_and_borrow rnd opcode s vx vy :
  Z.shiftr opcode 12 = 8 ->
  Z.land opcode 0xF = 5 \/ Z.land opcode 0xF = 7 ->
  op_x opcode <> 0xF -> op_y opcode <> 0xF ->
  length (V s) = 16%nat ->
  reg s (op_x opcode) = Some vx ->
  reg s (op_y opcode) = Some vy ->
  byte vx -> byte vy ->
  exists s' r f,
    execute rnd opcode s = Ok tt s' /\
    reg s' (op_x opcode) = Some r /\
    reg s' 0xF = Some f /\
    byte r /\ (f = 0 \/ f = 1) /\
    r = (if Z.land opcode 0xF =? 5 then vx - vy else vy - vx) + 256 * (1 - f).
Proof.
  intros Hop Hn Hxf Hyf Hlen Hvx Hvy Hbx Hby. unfold reg, op_x, op_y, byte in *.
  pose proof (nibble_range (Z.shiftr opcode 8)) as Hx.
  pose proof (nibble_range (Z.shiftr opcode 4)) as Hy.
  cut (wp (execute rnd opcode)
          (fun _ s' =>
             exists r f,
               Py.getitem (V s') (Z.land (Z.shiftr opcode 8) 0xF) = Some r /\
               Py.getitem (V s') 0xF = Some f /\
               0 <= r <= 255 /\ (f = 0 \/ f = 1) /\
               r = (if Z.land opcode 0xF =? 5 then vx - vy else vy - vx)
                   + 256 * (1 - f))
          (fun _ => False) s).
  { intros ([] & s' & H1 & r & f & H2)%wp_Ok. exists s', r, f. tauto. }
  destruct Hn as [Hn|Hn]; family_8 Hop Hn; wp_run.
  all: try solve [no_raise].
  - assert (a = vx) by congruence. assert (a0 = vy) by congruence. subst a a0.
    reg_writes. reg_reads.
    assert (a2 = vx) by congruence. assert (a3 = vy) by congruence. subst a2 a3.
    do 2 eexists. split; [reflexivity|]. split; [reflexivity|].
    rewrite land_255. destruct (Z.geb_spec vx vy).
    + split; [|split; [now right|]]; Z.div_mod_to_equations; lia.
    + split; [|split; [now left|]]; Z.div_mod_to_equations; lia.
  - assert (a = vy) by congruence. assert (a0 = vx) by congruence. subst a a0.
    reg_writes. reg_reads.
    assert (a2 = vy) by congruence. assert (a3 = vx) by congruence. subst a2 a3.
    do 2 eexists. split; [reflexivity|]. split; [reflexivity|].
    rewrite land_255. destruct (Z.geb_spec vy vx).
    + split; [|split; [now right|]]; Z.div_mod_to_equations; lia.
    + split; [|split; [now left|]]; Z.div_mod_to_equations; lia.
Qed.

Lemma sub_result_and_borrow_witness :
  exists s' r f,
    execute 0 0x8017 (set_V (<[0%nat := 200]> (<[1%nat := 100]> (V power_on))) power_on)
      = Ok tt s' /\
    reg s' 0 = Some r /\ reg s' 0xF = Some f /\
    byte r /\ (f = 0 \/ f = 1) /\ r = 100 - 200 + 256 * (1 - f).
Proof.
  apply (sub_result_and_borrow 0 0x8017
           (set_V (<[0%nat := 200]> (<[1%nat := 100]> (V power_on))) power_on)
           200 100);
    first [reflexivity | discriminate | now right | unfold byte; lia].
Defined.

(** Shift right (8XY6) and shift left (8XYE), X other than 0xF.  The
    operand is V[y] when [shift_quirk] is set and V[x] otherwise; result
    and flag together give back the operand (right) or its double (left). *)
Theorem shift_result_and_flag rnd opcode s val :
  Z.shiftr opcode 12 = 8 ->
  Z.land opcode 0xF = 6 \/ Z.land opcode 0xF = 0xE ->
  op_x opcode <> 0xF ->
  length (V s) = 16%nat ->
  reg s (if shift_quirk s then op_y opcode else op_x opcode) = Some val ->
  byte val ->
  exists s' r f,
    execute rnd opcode s = Ok tt s' /\
    reg s' (op_x opcode) = Some r /\
    reg s' 0xF = Some f /\
    byte r /\ (f = 0 \/ f = 1) /\
    (if Z.land opcode 0xF =? 6 then 2 * r + f = val else r + 256 * f = 2 * val).
Proof.
  intros Hop Hn Hxf Hlen Hval Hb. unfold reg, op_x, op_y, byte in *.
  pose proof (nibble_range (Z.shiftr opcode 8)) as Hx.
  pose proof (nibble_range (Z.shiftr opcode 4)) as Hy.
  cut (wp (execute rnd opcode)
          (fun _ s' =>
             exists r f,
               Py.getitem (V s') (Z.land (Z.shiftr opcode 8) 0xF) = Some r /\
               Py.getitem (V s') 0xF = Some f /\
               0 <= r <= 255 /\ (f = 0 \/ f = 1) /\
               (if Z.land opcode 0xF =? 6
                then 2 * r + f = val else r + 256 * f = 2 * val))
          (fun _ => False) s).
  { intros ([] & s' & H1 & r & f & H2)%wp_Ok. exists s', r, f. tauto. }
  destruct Hn as [Hn|Hn]; family_8 Hop Hn; wp_run.
  all: try solve [no_raise].
  all: assert (a = val) by congruence; subst a.
  all: reg_writes; do 2 eexists.
  all: split; [reg_reads; reflexivity|]; split; [reg_reads; reflexivity|].
  all: rewrite ?land_255, ?land_1, ?Z.shiftr_div_pow2, ?Z.shiftl_mul_pow2 by lia.
  all: change (2 ^ 1) with 2; change (2 ^ 7) with 128.
  all: split; [Z.div_mod_to_equations; lia|].
  all: split; [Z.div_mod_to_equations; lia|].
  all: Z.div_mod_to_equations; lia.
Qed.

Lemma shift_result_and_flag_witness :
  exists s' r f,
    execute 0 0x801E (set_V (<[1%nat := 200]> (V power_on)) power_on) = Ok tt s' /\
    reg s' 0 = Some r /\ reg s' 0xF = Some f /\
    byte r /\ (f = 0 \/ f = 1) /\ r + 256 * f = 2 * 200.
Proof.
  apply (shift_result_and_flag 0 0x801E
           (set_V (<[1%nat := 200]> (V power_on)) power_on) 200);
    first [reflexivity | discriminate | now right | unfold byte; lia].
Defined.

(** OR, AND and XOR (8XY1, 8XY2, 8XY3) always leave 0 in V[0xF]; with X
    other than 0xF, V[x] gets the bitwise result. *)
Theorem logic_ops_clear_flag rnd opcode s n f vx vy :
  In (n, f) [(1, Z.lor); (2, Z.land); (3, Z.lxor)] ->
  Z.shiftr opcode 12 = 8 ->
  Z.land opcode 0xF = n ->
  length (V s) = 16%nat ->
  reg s (op_x opcode) = Some vx ->
  reg s (op_y opcode) = Some vy ->
  exists s',
    execute rnd opcode s = Ok tt s' /\
    reg s' 0xF = Some 0 /\
    (op_x opcode <> 0xF -> reg s' (op_x opcode) = Some (f vx vy)) /\
    PC s' = PC s + 2.
Proof.
  intros Hin Hop Hn Hlen Hvx Hvy. unfold reg, op_x, op_y in *.
  pose proof (nibble_range (Z.shiftr opcode 8)) as Hx.
  pose proof (nibble_range (Z.shiftr opcode 4)) as Hy.
  cut (wp (execute rnd opcode)
          (fun _ s' =>
             Py.getitem (V s') 0xF = Some 0 /\
             (Z.land (Z.shiftr opcode 8) 0xF <> 0xF ->
              Py.getitem (V s') (Z.land (Z.shiftr opcode 8) 0xF) = Some (f vx vy)) /\
             PC s' = PC s + 2)
          (fun _ => False) s).
  { intros ([] & s' & H1 & H2)%wp_Ok. exists s'. tauto. }
  destruct Hin as [E|[E|[E|[]]]]; injection E as <- <-; family_8 Hop Hn; wp_run.
  all: try solve [no_raise].
  all: assert (a = vx) by congruence; assert (a0 = vy) by congruence; subst a a0.
  all: reg_writes; split; [reg_reads; reflexivity|].
  all: split; [intros Hxf; reg_reads; reflexivity|reflexivity].
Qed.

Lemma logic_ops_clear_flag_witness :
  exists s',
    execute 0 0x8F13 (set_V (<[15%nat := 9]> (<[1%nat := 5]> (V power_on))) power_on)
      = Ok tt s' /\
    reg s' 0xF = Some 0 /\
    (op_x 0x8F13 <> 0xF -> reg s' (op_x 0x8F13) = Some (Z.lxor 9 5)) /\
    PC s' = 0x202.
Proof.
  apply (logic_ops_clear_flag 0 0x8F13
           (set_V (<[15%nat := 9]> (<[1%nat := 5]> (V power_on))) power_on)
           3 Z.lxor 9 5);
    first [reflexivity | cbn; tauto].
Defined.

(** Add-immediate (7XNN): V[x] wraps modulo 256 and no other register,
    the flag register included, is touched. *)
Theorem add_immediate_wraps rnd opcode s vx :
  Z.shiftr opcode 12 = 7 ->
  length (V s) = 16%nat ->
  reg s (op_x opcode) = Some vx ->
  exists s',
    execute rnd opcode s = Ok tt s' /\
    reg s' (op_x opcode) = Some ((vx + Z.land opcode 0xFF) mod 256) /\
    (forall j, 0 <= j < 16 -> j <> op_x opcode -> reg s' j = reg s j) /\
    PC s' = PC s + 2.
Proof.
  intros Hop Hlen Hvx. unfold reg, op_x in *.
  pose proof (nibble_range (Z.shiftr opcode 8)) as Hx.
  cut (wp (execute rnd opcode)
          (fun _ s' =>
             Py.getitem (V s') (Z.land (Z.shiftr opcode 8) 0xF)
             = Some ((vx + Z.land opcode 0xFF) mod 256) /\
             (forall j, 0 <= j < 16 -> j <> Z.land (Z.shiftr opcode 8) 0xF ->
                        Py.getitem (V s') j = Py.getitem (V s) j) /\
             PC s' = PC s + 2)
          (fun _ => False) s).
  { intros ([] & s' & H1 & H2)%wp_Ok. exists s'. tauto. }
  unfold execute.
  destruct (family_not_0 _ 7 Hop) as [-> ->]; [lia|].
  rewrite Hop. cbn [Z.eqb Pos.eqb andb]. cbv beta iota. wp_run.
  all: try solve [no_raise].
  assert (a = vx) by congruence. subst a. reg_writes.
  split; [|split; [|reflexivity]].
  - reg_reads. now rewrite land_255.
  - intros j Hj Hne. reg_reads. reflexivity.
Qed.

Lemma add_immediate_wraps_witness :
  exists s',
    execute 0 0x70FF (set_V (<[0%nat := 2]> (V power_on)) power_on) = Ok tt s' /\
    reg s' (op_x 0x70FF) = Some ((2 + Z.land 0x70FF 0xFF) mod 256) /\
    (forall j, 0 <= j < 16 -> j <> op_x 0x70FF ->
               reg s' j = reg (set_V (<[0%nat := 2]> (V power_on)) power_on) j) /\
    PC s' = PC (set_V (<[0%nat := 2]> (V power_on)) power_on) + 2.
Proof.
  apply (add_immediate_wraps 0 0x70FF
           (set_V (<[0%nat := 2]> (V power_on)) power_on) 2); reflexivity.
Defined.

(** ** Call and return *)

(** Call (2NNN) followed by return (00EE): the program counter ends two
    past the call, the stack pointer where it was.  With Python's
    subscripts this holds for a stack pointer from -16 to 15. *)
Theorem call_return_round_trip rnd1 rnd2 opcode s :
  Z.shiftr opcode 12 = 2 ->
  length (stack s) = 16%nat ->
  -16 <= SP s <= 15 ->
  exists s1 s2,
    execute rnd1 opcode s = Ok tt s1 /\
    PC s1 = Z.land opcode 0xFFF /\
    SP s1 = SP s + 1 /\
    execute rnd2 0x00EE s1 = Ok tt s2 /\
    PC s2 = PC s + 2 /\
    SP s2 = SP s /\
    V s2 = V s /\ memory s2 = memory s /\ display s2 = display s.
Proof.
  intros Hop Hlen Hsp.
  destruct (Py.setitem (stack s) (SP s) (PC s)) as [st|] eqn:Hst.
  2:{ apply setitem_None in Hst. lia. }
  exists (set_PC (Z.land opcode 0xFFF) (set_SP (SP s + 1) (set_stack st s))).
  exists (set_PC (PC s + 2)
            (set_SP (SP s)
               (set_PC (Z.land opcode 0xFFF) (set_SP (SP s + 1) (set_stack st s))))).
  split.
  { unfold execute. destruct (family_not_0 _ 2 Hop) as [-> ->]; [lia|].
    rewrite Hop. cbn [Z.eqb Pos.eqb andb]. cbv beta iota.
    unfold put_stack, bind, gets, subscript, modify. now rewrite Hst. }
  split; [reflexivity|]. split; [reflexivity|]. split.
  { unfold execute. cbn [Z.eqb Pos.eqb]. cbv beta iota.
    unfold get_stack, bind, gets, subscript, modify. proj_simpl.
    replace (SP s + 1 - 1) with (SP s) by lia.
    now rewrite (getitem_setitem_same _ _ _ _ Hst). }
  repeat split.
Qed.

Lemma call_return_round_trip_witness :
  exists s1 s2,
    execute 0 0x2ABC power_on = Ok tt s1 /\
    PC s1 = Z.land 0x2ABC 0xFFF /\
    SP s1 = SP power_on + 1 /\
    execute 0 0x00EE s1 = Ok tt s2 /\
    PC s2 = PC power_on + 2 /\
    SP s2 = SP power_on /\
    V s2 = V power_on /\ memory s2 = memory power_on /\
    display s2 = display power_on.
Proof.
  apply (call_return_round_trip 0 0 0x2ABC power_on);
    first [reflexivity | cbn; lia].
Defined.

(** ** Conditional skips *)

Ltac family k Hop :=
  unfold execute;
  destruct (family_not_0 _ k Hop) as [-> ->]; [lia|];
  rewrite Hop; cbn [Z.eqb Pos.eqb andb]; cbv beta iota.

Lemma skip_imm_eq rnd opcode s vx :
  Z.shiftr opcode 12 = 3 \/ Z.shiftr opcode 12 = 4 ->
  reg s (op_x opcode) = Some vx ->
  execute rnd opcode s =
    Ok tt (set_PC (PC s + (if xorb (vx =? Z.land opcode 0xFF)
                                  (Z.shiftr opcode 12 =? 4)
                           then 4 else 2)) s).
Proof.
  intros [Hop|Hop] Hvx; unfold reg, op_x in Hvx.
  - family 3 Hop. unfold bind. rewrite (get_V_eq _ _ _ Hvx). unfold add_PC, modify.
    now destruct (vx =? Z.land opcode 0xFF).
  - family 4 Hop. unfold bind. rewrite (get_V_eq _ _ _ Hvx). unfold add_PC, modify.
    now destruct (vx =? Z.land opcode 0xFF).
Qed.

Lemma skip_reg_eq rnd opcode s vx vy :
  Z.shiftr opcode 12 = 5 \/ Z.shiftr opcode 12 = 9 ->
  Z.land opcode 0xF = 0 ->
  reg s (op_x opcode) = Some vx ->
  reg s (op_y opcode) = Some vy ->
  execute rnd opcode s =
    Ok tt (set_PC (PC s + (if xorb (vx =? vy) (Z.shiftr opcode 12 =? 9)
                           then 4 else 2)) s).
Proof.
  intros [Hop|Hop] Hn Hvx Hvy; unfold reg, op_x, op_y in Hvx, Hvy.
  - family 5 Hop. rewrite Hn. cbn [Z.eqb andb]. cbv iota.
    unfold bind. rewrite (get_V_eq _ _ _ Hvx). cbv beta iota.
    rewrite (get_V_eq _ _ _ Hvy). unfold add_PC, modify.
    now destruct (vx =? vy).
  - family 9 Hop. rewrite Hn. cbn [Z.eqb andb]. cbv iota.
    unfold bind. rewrite (get_V_eq _ _ _ Hvx). cbv beta iota.
    rewrite (get_V_eq _ _ _ Hvy). unfold add_PC, modify.
    now destruct (vx =? vy).
Qed.

(** Skip-if-equal and skip-if-not-equal on the same operands (3XNN with
    4XNN, 5XY0 with 9XY0): exactly one of the two skips, and neither
    changes anything but the program counter. *)
Theorem skips_are_complementary rnd o_eq o_ne s vx vy :
  (Z.shiftr o_eq 12 = 3 /\ Z.shiftr o_ne 12 = 4 /\
   Z.land o_eq 0xFF = vy /\ Z.land o_ne 0xFF = vy) \/
  (Z.shiftr o_eq 12 = 5 /\ Z.shiftr o_ne 12 = 9 /\
   Z.land o_eq 0xF = 0 /\ Z.land o_ne 0xF = 0 /\
   reg s (op_y o_eq) = Some vy /\ reg s (op_y o_ne) = Some vy) ->
  reg s (op_x o_eq) = Some vx ->
  reg s (op_x o_ne) = Some vx ->
  exists pc_eq pc_ne,
    execute rnd o_eq s = Ok tt (set_PC pc_eq s) /\
    execute rnd o_ne s = Ok tt (set_PC pc_ne s) /\
    ((vx = vy /\ pc_eq = PC s + 4 /\ pc_ne = PC s + 2) \/
     (vx <> vy /\ pc_eq = PC s + 2 /\ pc_ne = PC s + 4)).
Proof.
  intros [(H3 & H4 & Hn3 & Hn4)|(H5 & H9 & Hn5 & Hn9 & Hy5 & Hy9)] Hx1 Hx2.
  - do 2 eexists. split; [apply skip_imm_eq; [now left|eassumption]|].
    split; [apply skip_imm_eq; [now right|eassumption]|].
    rewrite H3, H4, Hn3, Hn4. cbn [Z.eqb Pos.eqb].
    destruct (Z.eqb_spec vx vy); cbn [xorb]; [left|right]; auto.
  - do 2 eexists. split; [apply skip_reg_eq; [now left|eassumption..]|].
    split; [apply skip_reg_eq; [now right|eassumption..]|].
    rewrite H5, H9. cbn [Z.eqb Pos.eqb].
    destruct (Z.eqb_spec vx vy); cbn [xorb]; [left|right]; auto.
Qed.

Lemma skips_are_complementary_witness :
  exists pc_eq pc_ne,
    execute 0 0x3005 power_on = Ok tt (set_PC pc_eq power_on) /\
    execute 0 0x4005 power_on = Ok tt (set_PC pc_ne power_on) /\
    ((0 = 5 /\ pc_eq = PC power_on + 4 /\ pc_ne = PC power_on + 2) \/
     (0 <> 5 /\ pc_eq = PC power_on + 2 /\ pc_ne = PC power_on + 4)).
Proof.
  apply (skips_are_complementary 0 0x3005 0x4005 power_on 0 5);
    [left; repeat split | reflexivity | reflexivity].
Defined.

(** ** Key tests *)

Lemma key_test_eq rnd opcode s vx kv :
  Z.shiftr opcode 12 = 0xE ->
  Z.land opcode 0xFF = 0x9E \/ Z.land opcode 0xFF = 0xA1 ->
  reg s (op_x opcode) = Some vx ->
  Py.getitem (keys s) vx = Some kv ->
  execute rnd opcode s =
    Ok tt (set_PC (PC s + (if xorb (Py.truthy kv) (Z.land opcode 0xFF =? 0xA1)
                           then 4 else 2)) s).
Proof.
  intros Hop [Hnn|Hnn] Hvx Hk; unfold reg, op_x in Hvx; family 0xE Hop.
  all: rewrite Hnn; cbn [Z.eqb Pos.eqb]; cbv iota.
  all: unfold bind; rewrite (get_V_eq _ _ _ Hvx); cbv beta iota.
  all: unfold get_key, bind, gets, subscript; rewrite Hk.
  all: unfold add_PC, modify; now destruct (Py.truthy kv).
Qed.

(** A key press is seen by the key tests: once [key_press k] has run,
    skip-if-pressed (EX9E) on a register holding [k] skips and
    skip-if-not-pressed (EXA1) does not; after [key_release k] it is the
    other way round. *)
Theorem key_tests_follow_key_events rnd o_down o_up s k :
  Z.shiftr o_down 12 = 0xE -> Z.land o_down 0xFF = 0x9E ->
  Z.shiftr o_up 12 = 0xE -> Z.land o_up 0xFF = 0xA1 ->
  waiting_for_key s = false ->
  length (keys s) = 16%nat ->
  0 <= k <= 15 ->
  reg s (op_x o_down) = Some k ->
  reg s (op_x o_up) = Some k ->
  exists s_p s_r,
    key_press k s = Ok tt s_p /\
    key_release k s = Ok tt s_r /\
    execute rnd o_down s_p = Ok tt (set_PC (PC s + 4) s_p) /\
    execute rnd o_up s_p = Ok tt (set_PC (PC s + 2) s_p) /\
    execute rnd o_down s_r = Ok tt (set_PC (PC s + 2) s_r) /\
    execute rnd o_up s_r = Ok tt (set_PC (PC s + 4) s_r).
Proof.
  intros Hd Hdn Hu Hun Hw Hlen Hk Hxd Hxu.
  assert (H1 : Py.setitem (keys s) k 1 = Some (<[Z.to_nat k := 1]> (keys s))).
  { apply setitem_nonneg. lia. }
  assert (H0 : Py.setitem (keys s) k 0 = Some (<[Z.to_nat k := 0]> (keys s))).
  { apply setitem_nonneg. lia. }
  exists (set_keys (<[Z.to_nat k := 1]> (keys s)) s),
         (set_keys (<[Z.to_nat k := 0]> (keys s)) s).
  split.
  { unfold key_press, put_key, bind, gets, subscript, modify.
    rewrite H1. cbn [waiting_for_key set_keys]. now rewrite Hw. }
  split.
  { unfold key_release, put_key, bind, gets, subscript, modify. now rewrite H0. }
  repeat split.
  - rewrite (key_test_eq rnd o_down _ k 1); [now rewrite Hdn|assumption|now left|assumption|].
    apply (getitem_setitem_same _ _ _ _ H1).
  - rewrite (key_test_eq rnd o_up _ k 1); [now rewrite Hun|assumption|now right|assumption|].
    apply (getitem_setitem_same _ _ _ _ H1).
  - rewrite (key_test_eq rnd o_down _ k 0); [now rewrite Hdn|assumption|now left|assumption|].
    apply (getitem_setitem_same _ _ _ _ H0).
  - rewrite (key_test_eq rnd o_up _ k 0); [now rewrite Hun|assumption|now right|assumption|].
    apply (getitem_setitem_same _ _ _ _ H0).
Qed.

Lemma key_tests_follow_key_events_witness :
  exists s_p s_r,
    key_press 0 power_on = Ok tt s_p /\
    key_release 0 power_on = Ok tt s_r /\
    execute 0 0xE39E s_p = Ok tt (set_PC (PC power_on + 4) s_p) /\
    execute 0 0xE3A1 s_p = Ok tt (set_PC (PC power_on + 2) s_p) /\
    execute 0 0xE39E s_r = Ok tt (set_PC (PC power_on + 2) s_r) /\
    execute 0 0xE3A1 s_r = Ok tt (set_PC (PC power_on + 4) s_r).
Proof.
  apply (key_tests_follow_key_events 0 0xE39E 0xE3A1 power_on 0);
    first [reflexivity | lia].
Defined.

(** ** Store-BCD *)

Lemma setslice_inside {A} (l : list A) i (new : list A) :
  0 <= i -> i + Z.of_nat (length new) <= Z.of_nat (length l) ->
  Py.setslice l i (i + Z.of_nat (length new)) new
  = take (Z.to_nat i) l ++ new ++ drop (Z.to_nat i + length new) l.
Proof.
  intros Hi Hfit. unfold Py.setslice, Py.clamp.
  destruct (Z.ltb_spec i 0); [lia|].
  destruct (Z.ltb_spec (i + Z.of_nat (length new)) 0); [lia|].
  do 2 f_equal; [f_equal; lia|]. f_equal. f_equal. lia.
Qed.

(** Store-BCD (FX33) with the three cells inside memory: the cells at I,
    I+1, I+2 receive decimal digits whose value is V[x]; no other cell, no
    register and not the size of memory changes. *)
Theorem store_bcd_digits rnd opcode s v :
  Z.shiftr opcode 12 = 0xF ->
  Z.land opcode 0xFF = 0x33 ->
  reg s (op_x opcode) = Some v ->
  byte v ->
  0 <= I s ->
  I s + 3 <= Z.of_nat (length (memory s)) ->
  exists s' a b c,
    execute rnd opcode s = Ok tt s' /\
    memory s' = take (Z.to_nat (I s)) (memory s) ++ [a; b; c] ++
                drop (Z.to_nat (I s) + 3) (memory s) /\
    0 <= a <= 9 /\ 0 <= b <= 9 /\ 0 <= c <= 9 /\
    100 * a + 10 * b + c = v /\
    set_PC (PC s) (set_memory (memory s) s') = s.
Proof.
  intros Hop Hnn Hv Hb HI Hfit. unfold reg, op_x, byte in *.
  exists (set_PC (PC s + 2)
            (set_memory (Py.setslice (memory s) (I s) (I s + 3)
                           [v / 100; (v / 10) mod 10; v mod 10]) s)).
  exists (v / 100), ((v / 10) mod 10), (v mod 10).
  split.
  { family 0xF Hop. rewrite Hnn. cbn [Z.eqb Pos.eqb]. cbv iota.
    unfold bind. now rewrite (get_V_eq _ _ _ Hv). }
  split.
  { cbn [memory set_PC set_memory].
    apply (setslice_inside (memory s) (I s) [v / 100; (v / 10) mod 10; v mod 10]);
      cbn [length]; lia. }
  split; [Z.div_mod_to_equations; lia|].
  split; [Z.div_mod_to_equations; lia|].
  split; [Z.div_mod_to_equations; lia|].
  split; [Z.div_mod_to_equations; lia|].
  now destruct s.
Qed.

Lemma store_bcd_digits_witness :
  exists s' a b c,
    execute 0 0xF033 (set_I 0x300 (set_V (<[0%nat := 254]> (V power_on)) power_on))
      = Ok tt s' /\
    memory s' = take (Z.to_nat 0x300) (memory power_on) ++ [a; b; c] ++
                drop (Z.to_nat 0x300 + 3) (memory power_on) /\
    0 <= a <= 9 /\ 0 <= b <= 9 /\ 0 <= c <= 9 /\
    100 * a + 10 * b + c = 254 /\
    set_PC 0x200 (set_memory (memory power_on) s')
    = set_I 0x300 (set_V (<[0%nat := 254]> (V power_on)) power_on).
Proof.
  apply (store_bcd_digits 0 0xF033
           (set_I 0x300 (set_V (<[0%nat := 254]> (V power_on)) power_on)) 254);
    first [reflexivity | unfold byte; lia | cbn; lia].
Defined.

(** ** Register dump and load *)

Lemma range_length n : length (Py.range n) = Z.to_nat n.
Proof. unfold Py.range. now rewrite length_map, length_seq. Qed.

Lemma range_prefix n pre a post :
  Py.range n = pre ++ a :: post -> a = Z.of_nat (length pre).
Proof.
  intros H.
  assert (Hlen : (length pre < Z.to_nat n)%nat).
  { rewrite <- (range_length n), H, length_app. cbn. lia. }
  assert (Ha : nth (length pre) (Py.range n) (Z.of_nat 0) = a).
  { rewrite H. apply nth_middle. }
  unfold Py.range in Ha. rewrite map_nth, seq_nth in Ha by assumption.
  now subst a.
Qed.

(** Laying [src] over [dst] one cell further. *)
Lemma overlay_step {A} (src dst : list A) k x :
  src !! k = Some x -> (k < length dst)%nat ->
  <[k := x]> (take k src ++ drop k dst) = take (S k) src ++ drop (S k) dst.
Proof.
  intros Hx Hk.
  assert (Hsrc : (k < length src)%nat) by (apply lookup_lt_is_Some; eauto).
  destruct (lookup_lt_is_Some_2 dst k Hk) as [y Hy].
  rewrite insert_app_r_alt by (rewrite length_take; lia).
  rewrite length_take, Nat.min_l, Nat.sub_diag by lia.
  rewrite (drop_S _ _ _ Hy). cbn [insert list_insert].
  rewrite (take_S_r _ _ _ Hx), <- app_assoc. reflexivity.
Qed.

Lemma dump_loop x s :
  0 <= x < 16 -> length (V s) = 16%nat -> 0 <= I s ->
  I s + x < Z.of_nat (length (memory s)) ->
  for_each (Py.range (x + 1))
    (fun i => a <- gets I ;; vi <- get_V i ;; put_mem (a + i) vi) s
  = Ok tt (set_memory (dumped x s) s).
Proof.
  intros Hx HV HI Hfit.
  set (i0 := Z.to_nat (I s)).
  set (J := fun (pre : list Z) s' =>
              s' = set_memory
                     (take i0 (memory s) ++
                      (take (length pre) (V s) ++
                       drop (length pre) (drop i0 (memory s)))) s).
  assert (H : wp (for_each (Py.range (x + 1))
                    (fun i => a <- gets I ;; vi <- get_V i ;; put_mem (a + i) vi))
                 (fun _ s' => s' = set_memory (dumped x s) s) (fun _ => False) s).
  { apply (wp_for_each J).
    - unfold J. cbn [length]. rewrite take_0, drop_0. cbn [app].
      rewrite take_drop. now rewrite set_memory_id.
    - intros pre a post s' Hl ->.
      pose proof (range_prefix _ _ _ _ Hl) as ->.
      assert (Hk : (length pre < Z.to_nat (x + 1))%nat).
      { rewrite <- (range_length (x + 1)), Hl, length_app. cbn. lia. }
      set (k := length pre) in *.
      destruct (lookup_lt_is_Some_2 (V s) k) as [vk Hvk]; [lia|].
      wp_run.
      + unfold J. rewrite set_memory_twice.
        apply (f_equal (fun m => set_memory m s)).
        assert (a = vk).
        { rewrite getitem_nonneg in H by lia. rewrite Nat2Z.id in H. congruence. }
        subst a.
        rewrite setitem_nonneg in H0.
        2:{ rewrite !length_app, !length_take, !length_drop. lia. }
        injection H0 as <-.
        replace (Z.to_nat (I s + Z.of_nat k)) with (i0 + k)%nat by lia.
        rewrite insert_app_r_alt by (rewrite length_take; lia).
        rewrite length_take, Nat.min_l by lia.
        replace (i0 + k - i0)%nat with k by lia.
        rewrite length_app. cbn [length]. rewrite Nat.add_1_r.
        f_equal. apply overlay_step; [assumption|].
        rewrite length_drop. lia.
      + apply setitem_None in H0.
        rewrite !length_app, !length_take, !length_drop in H0. lia.
      + apply getitem_None in H. lia.
    - intros s' ->. unfold J, dumped. now rewrite range_length. }
  unfold wp in H. destruct (for_each _ _ s) as [[] s'|s']; [now subst|contradiction].
Qed.

Lemma load_loop x s :
  0 <= x < 16 -> length (V s) = 16%nat -> 0 <= I s ->
  I s + x < Z.of_nat (length (memory s)) ->
  for_each (Py.range (x + 1))
    (fun i => a <- gets I ;; b <- get_mem (a + i) ;; put_V i b) s
  = Ok tt (set_V (reloaded x s) s).
Proof.
  intros Hx HV HI Hfit.
  set (i0 := Z.to_nat (I s)).
  set (J := fun (pre : list Z) s' =>
              s' = set_V (take (length pre) (drop i0 (memory s)) ++
                          drop (length pre) (V s)) s).
  assert (H : wp (for_each (Py.range (x + 1))
                    (fun i => a <- gets I ;; b <- get_mem (a + i) ;; put_V i b))
                 (fun _ s' => s' = set_V (reloaded x s) s) (fun _ => False) s).
  { apply (wp_for_each J).
    - unfold J. cbn [length]. rewrite take_0, drop_0. cbn [app]. now destruct s.
    - intros pre a post s' Hl ->.
      pose proof (range_prefix _ _ _ _ Hl) as ->.
      assert (Hk : (length pre < Z.to_nat (x + 1))%nat).
      { rewrite <- (range_length (x + 1)), Hl, length_app. cbn. lia. }
      set (k := length pre) in *.
      wp_run.
      + unfold J.
        change (set_V a0 (set_V ?m s)) with (set_V a0 s).
        apply (f_equal (fun v => set_V v s)).
        rewrite getitem_nonneg in H by lia.
        rewrite setitem_nonneg in H0.
        2:{ rewrite !length_app, !length_take, !length_drop. lia. }
        injection H0 as <-.
        rewrite Nat2Z.id, length_app. cbn [length]. rewrite Nat.add_1_r.
        apply overlay_step; [|lia].
        rewrite lookup_drop. rewrite <- H. f_equal. lia.
      + apply setitem_None in H0.
        rewrite !length_app, !length_take, !length_drop in H0. lia.
      + apply getitem_None in H. lia.
    - intros s' ->. unfold J, reloaded. now rewrite range_length. }
  unfold wp in H. destruct (for_each _ _ s) as [[] s'|s']; [now subst|contradiction].
Qed.

Lemma overlay_length {A} (src dst : list A) n :
  (n <= length src)%nat -> (n <= length dst)%nat ->
  length (take n src ++ drop n dst) = length dst.
Proof. intros. rewrite length_app, length_take, length_drop. lia. Qed.

Lemma overlay_lookup {A} (src dst : list A) n i :
  (n <= length src)%nat ->
  (take n src ++ drop n dst) !! i = if (i <? n)%nat then src !! i else dst !! i.
Proof.
  intros Hn. destruct (Nat.ltb_spec i n).
  - rewrite lookup_app_l by (rewrite length_take; lia). now apply lookup_take_lt.
  - rewrite lookup_app_r by (rewrite length_take; lia).
    rewrite length_take, Nat.min_l, lookup_drop by lia. f_equal. lia.
Qed.

Lemma dump_eq rnd opcode s :
  Z.shiftr opcode 12 = 0xF ->
  Z.land opcode 0xFF = 0x55 ->
  length (V s) = 16%nat -> 0 <= I s ->
  I s + op_x opcode < Z.of_nat (length (memory s)) ->
  execute rnd opcode s =
    Ok tt (set_PC (PC s + 2)
             (set_I (if increment_i s then I s + (op_x opcode + 1) else I s)
                (set_memory (dumped (op_x opcode) s) s))).
Proof.
  intros Hop Hnn HV HI Hfit. unfold op_x in *.
  pose proof (nibble_range (Z.shiftr opcode 8)) as Hx.
  family 0xF Hop. rewrite Hnn. cbn [Z.eqb Pos.eqb]. cbv iota.
  unfold bind at 1. unfold bind at 1.
  rewrite dump_loop by assumption. cbv beta iota.
  unfold bind, gets, add_I, add_PC, modify, ret. proj_simpl.
  destruct (increment_i s); [reflexivity|]. now destruct s.
Qed.

Lemma load_eq rnd opcode s :
  Z.shiftr opcode 12 = 0xF ->
  Z.land opcode 0xFF = 0x65 ->
  length (V s) = 16%nat -> 0 <= I s ->
  I s + op_x opcode < Z.of_nat (length (memory s)) ->
  execute rnd opcode s =
    Ok tt (set_PC (PC s + 2)
             (set_I (if increment_i s then I s + (op_x opcode + 1) else I s)
                (set_V (reloaded (op_x opcode) s) s))).
Proof.
  intros Hop Hnn HV HI Hfit. unfold op_x in *.
  pose proof (nibble_range (Z.shiftr opcode 8)) as Hx.
  family 0xF Hop. rewrite Hnn. cbn [Z.eqb Pos.eqb]. cbv iota.
  unfold bind at 1. unfold bind at 1.
  rewrite load_loop by assumption. cbv beta iota.
  unfold bind, gets, add_I, add_PC, modify, ret. proj_simpl.
  destruct (increment_i s); [reflexivity|]. now destruct s.
Qed.



(** Register load (FX65) with the cells inside memory: V[i] receives cell
    I+i for i = 0..X, the registers above X and memory are untouched. *)
Theorem register_load_cells rnd opcode s :
  Z.shiftr opcode 12 = 0xF ->
  Z.land opcode 0xFF = 0x65 ->
  length (V s) = 16%nat -> 0 <= I s ->
  I s + op_x opcode < Z.of_nat (length (memory s)) ->
  exists s',
    execute rnd opcode s = Ok tt s' /\
    (forall i, 0 <= i <= op_x opcode ->
               reg s' i = Py.getitem (memory s) (I s + i)) /\
    (forall j, op_x opcode < j < 16 -> reg s' j = reg s j) /\
    length (V s') = 16%nat /\
    memory s' = memory s /\
    I s' = (if increment_i s then I s + op_x opcode + 1 else I s).
Proof.
  intros Hop Hnn HV HI Hfit. eexists. split; [now apply load_eq|].
  pose proof (nibble_range (Z.shiftr opcode 8)) as Hx. fold (op_x opcode) in Hx.
  set (x := op_x opcode) in *. proj_simpl.
  assert (Hlen : length (reloaded x s) = 16%nat).
  { unfold reloaded. rewrite overlay_length; rewrite ?length_drop; lia. }
  split; [|split; [|split; [assumption|split; [reflexivity|]]]].
  - intros i Hi. unfold reg. proj_simpl. rewrite !getitem_nonneg by lia.
    unfold reloaded. rewrite overlay_lookup by (rewrite length_drop; lia).
    destruct (Nat.ltb_spec (Z.to_nat i) (Z.to_nat (x + 1))); [|lia].
    rewrite lookup_drop. f_equal. lia.
  - intros j Hj. unfold reg. proj_simpl. rewrite !getitem_nonneg by lia.
    unfold reloaded. rewrite overlay_lookup by (rewrite length_drop; lia).
    destruct (Nat.ltb_spec (Z.to_nat j) (Z.to_nat (x + 1))); [lia|reflexivity].
  - destruct (increment_i s); lia.
Qed.

Lemma register_load_cells_witness :
  exists s',
    execute 0 0xF265 power_on = Ok tt s' /\
    (forall i, 0 <= i <= op_x 0xF265 ->
               reg s' i = Py.getitem (memory power_on) (I power_on + i)) /\
    (forall j, op_x 0xF265 < j < 16 -> reg s' j = reg power_on j) /\
    length (V s') = 16%nat /\
    memory s' = memory power_on /\
    I s' = (if increment_i power_on then I power_on + op_x 0xF265 + 1
            else I power_on).
Proof.
  apply (register_load_cells 0 0xF265 power_on); first [reflexivity | cbn; lia].
Defined.

(** Dump then load: after FX55, whatever the registers are changed to, a
    load FX65 from the same address brings V[0..X] back and leaves the
    registers above X as they then are. *)
Theorem dump_load_round_trip rnd1 rnd2 o_dump o_load s regs :
  Z.shiftr o_dump 12 = 0xF -> Z.land o_dump 0xFF = 0x55 ->
  Z.shiftr o_load 12 = 0xF -> Z.land o_load 0xFF = 0x65 ->
  op_x o_load = op_x o_dump ->
  length (V s) = 16%nat -> 0 <= I s ->
  I s + op_x o_dump < Z.of_nat (length (memory s)) ->
  length regs = 16%nat ->
  exists s1 s2,
    execute rnd1 o_dump s = Ok tt s1 /\
    execute rnd2 o_load (set_I (I s) (set_V regs s1)) = Ok tt s2 /\
    (forall i, 0 <= i <= op_x o_dump -> reg s2 i = reg s i) /\
    (forall j, op_x o_dump < j < 16 -> reg s2 j = Py.getitem regs j).
Proof.
  intros Hd Hdn Hl Hln Hxx HV HI Hfit Hregs.
  pose proof (nibble_range (Z.shiftr o_dump 8)) as Hx. fold (op_x o_dump) in Hx.
  set (x := op_x o_dump) in *.
  assert (Hlen : length (dumped x s) = length (memory s)).
  { unfold dumped. rewrite length_app, length_take, overlay_length;
      rewrite ?length_drop; lia. }
  do 2 eexists. split; [now apply dump_eq|]. fold x. split.
  { apply load_eq; try assumption; proj_simpl; rewrite ?Hxx, ?Hlen; fold x; lia. }
  rewrite Hxx. fold x. unfold reg. proj_simpl.
  assert (Hre : reloaded x
                  (set_I (I s)
                     (set_V regs
                        (set_PC (PC s + 2)
                           (set_I (if increment_i s then I s + (x + 1) else I s)
                              (set_memory (dumped x s) s)))))
                = take (Z.to_nat (x + 1)) (V s) ++ drop (Z.to_nat (x + 1)) regs).
  { unfold reloaded. proj_simpl. f_equal. unfold dumped.
    rewrite drop_app_length' by (rewrite length_take; lia).
    rewrite take_app_length' by (rewrite length_take; lia). reflexivity. }
  rewrite Hre. split.
  - intros i Hi.
    rewrite !getitem_nonneg by (rewrite ?overlay_length; lia).
    rewrite overlay_lookup by lia.
    destruct (Nat.ltb_spec (Z.to_nat i) (Z.to_nat (x + 1))); [reflexivity|lia].
  - intros j Hj.
    rewrite !getitem_nonneg by (rewrite ?overlay_length; lia).
    rewrite overlay_lookup by lia.
    destruct (Nat.ltb_spec (Z.to_nat j) (Z.to_nat (x + 1))); [lia|reflexivity].
Qed.

Lemma dump_load_round_trip_witness :
  exists s1 s2,
    execute 0 0xF355 (set_I 0x300 power_on) = Ok tt s1 /\
    execute 0 0xF365
      (set_I (I (set_I 0x300 power_on)) (set_V (repeat 7 16) s1)) = Ok tt s2 /\
    (forall i, 0 <= i <= op_x 0xF355 -> reg s2 i = reg (set_I 0x300 power_on) i) /\
    (forall j, op_x 0xF355 < j < 16 -> reg s2 j = Py.getitem (repeat 7 16) j).
Proof.
  apply (dump_load_round_trip 0 0 0xF355 0xF365 (set_I 0x300 power_on) (repeat 7 16));
    first [reflexivity | cbn; lia].
Defined.

(** ** Framebuffer cells *)

Lemma bit_flip p : bit p -> bit (Z.lxor p 1).
Proof. intros [->| ->]; [now right|now left]. Qed.

Lemma blank_display_bits : bits blank_display.
Proof.
  unfold bits, blank_display. cbn [repeat].
  repeat (constructor; [repeat (constructor; [now left|]); constructor|]).
  constructor.
Qed.

Ltac keep_bits :=
  proj_simpl;
  first
    [ assumption
    | apply blank_display_bits
    | match goal with
      | Hr : Py.getitem (display ?m) ?py = Some ?r,
        Hp : Py.getitem ?r ?px = Some ?p,
        Hr' : Py.setitem ?r ?px (Z.lxor ?p 1) = Some ?r',
        Hd' : Py.setitem (display ?m) ?py ?r' = Some ?d',
        Hb : bits (display ?m) |- bits ?d' =>
          apply (setitem_Forall _ _ _ _ _ Hd' Hb);
          apply (setitem_Forall _ _ _ _ _ Hr' (getitem_Forall _ _ _ _ Hb Hr));
          apply bit_flip;
          apply (getitem_Forall _ _ _ _ (getitem_Forall _ _ _ _ Hb Hr) Hp)
      end ].

(** Every instruction leaves each framebuffer cell 0 or 1, whether it
    returns or raises. *)
Lemma execute_bits rnd opcode s :
  bits (display s) -> bits (display (final (execute rnd opcode s))).
Proof.
  intros Hb.
  apply (wp_final _ (fun s' => bits (display s'))).
  unfold execute. wp_run.
  all: try solve [keep_bits].
  - apply wp_for_each_inv; [|assumption|intros s' Hs'; wp_run; keep_bits].
    intros row s' Hs'. unfold draw_row. wp_run; [|assumption].
    apply wp_for_each_inv; [|assumption|auto].
    intros col s'' Hs''. unfold draw_col. wp_run; keep_bits.
  - apply wp_for_each_inv; [|assumption|intros s' Hs'; wp_run; keep_bits].
    intros i s' Hs'. wp_run; keep_bits.
  - apply wp_for_each_inv; [|assumption|intros s' Hs'; wp_run; keep_bits].
    intros i s' Hs'. wp_run; keep_bits.
Qed.

Lemma handle_bits e s : bits (display s) -> bits (display (final (handle e s))).
Proof.
  intros Hb. destruct e; cbn [handle].
  - apply (wp_final _ (fun s' => bits (display s'))).
    unfold cycle. wp_run; try assumption.
    apply (wp_final _ (fun s' => bits (display s'))). now apply execute_bits.
  - apply (wp_final _ (fun s' => bits (display s'))).
    unfold update_timers. wp_run; keep_bits.
  - apply (wp_final _ (fun s' => bits (display s'))).
    unfold key_press. wp_run; keep_bits.
  - apply (wp_final _ (fun s' => bits (display s'))).
    unfold key_release. wp_run; keep_bits.
Qed.

(** The framebuffer only ever holds 0 and 1: in every machine reached from
    a loaded ROM by cycles, timer ticks and key events, each cell of
    [display] is 0 or 1. *)
Theorem framebuffer_cells_are_bits rom es s_before :
  Z.of_nat (length rom) <= 3584 ->
  exists s0,
    load_rom rom s_before = Ok true s0 /\
    bits (display (after es s0)).
Proof.
  intros Hlen. exists (loaded rom). split.
  - rewrite load_rom_eq. now destruct (Z.leb_spec (Z.of_nat (length rom)) 3584); [|lia].
  - assert (H : forall s, bits (display s) -> bits (display (after es s))).
    { induction es as [|e es IH]; intros s Hs; [assumption|].
      cbn [after fold_left]. apply IH. now apply handle_bits. }
    apply H. apply blank_display_bits.
Qed.

Lemma framebuffer_cells_are_bits_witness :
  exists s0,
    load_rom [0xD0; 0x05; 0xD0; 0x05] power_on = Ok true s0 /\
    bits (display (after [Cycle 0; Cycle 0; Tick] s0)).
Proof.
  apply (framebuffer_cells_are_bits [0xD0; 0x05; 0xD0; 0x05]
           [Cycle 0; Cycle 0; Tick] power_on).
  cbn. lia.
Defined.

(** ** The fetch *)

Lemma execute_memory_grows rnd opcode s :
  length (V s) = 16%nat -> 0 <= I s ->
  (length (memory s) <= length (memory (final (execute rnd opcode s))))%nat.
Proof.
  intros HV HI.
  destruct (Z.eq_dec (Z.shiftr opcode 12) 0xF) as [Hop|Hop];
    [destruct (Z.eq_dec (Z.land opcode 0xFF) 0x33) as [Hnn|Hnn]|].
  - destruct (store_bcd_memory_size rnd opcode s Hop Hnn HV HI) as (s' & -> & Hs').
    cbn [final]. lia.
  - rewrite execute_keeps_memory_size; [lia|tauto].
  - rewrite execute_keeps_memory_size; [lia|tauto].
Qed.

(** [roomy s]: the machine is valid and memory has its 4096 cells or more. *)
Lemma handle_roomy e s :
  key_code e -> valid s -> (4096 <= length (memory s))%nat ->
  (4096 <= length (memory (final (handle e s))))%nat.
Proof.
  intros He Hv Hm.
  apply (wp_final _ (fun s' => (4096 <= length (memory s'))%nat)).
  destruct e; cbn [handle].
  - unfold cycle. wp_run; try assumption.
    apply (wp_final _ (fun s' => (4096 <= length (memory s'))%nat)).
    pose proof (execute_memory_grows rnd (Z.lor (Z.shiftl a 8) a0) s
                  (valid_V_len s Hv) (valid_I s Hv)). lia.
  - unfold update_timers. wp_run; assumption.
  - unfold key_press. wp_run; assumption.
  - unfold key_release. wp_run; assumption.
Qed.

Lemma after_roomy es : forall s,
  Forall key_code es -> valid s -> (4096 <= length (memory s))%nat ->
  valid (after es s) /\ (4096 <= length (memory (after es s)))%nat.
Proof.
  induction es as [|e es IH]; intros s Hes Hv Hm; [now split|].
  cbn [after fold_left]. apply Forall_cons in Hes as [He Hes].
  apply IH; [assumption|now apply handle_valid|now apply handle_roomy].
Qed.

Lemma loaded_length data :
  Z.of_nat (length data) <= 3584 -> length (memory (loaded data)) = 4096%nat.
Proof.
  intros H. unfold loaded. cbn [memory set_memory].
  rewrite !length_app, length_take, length_drop.
  change (length (memory power_on)) with 4096%nat. lia.
Qed.

Lemma land_shiftl_byte hi lo : byte lo -> Z.land (Z.shiftl hi 8) lo = 0.
Proof.
  unfold byte. intros Hlo. apply Z.bits_inj'. intros k Hk.
  rewrite Z.land_spec, Z.bits_0. destruct (Z.ltb_spec k 8).
  - now rewrite Z.shiftl_spec_low by lia.
  - rewrite <- (Z.mod_small lo (2 ^ 8)) by (change (2 ^ 8) with 256; lia).
    rewrite Z.mod_pow2_bits_high by lia. apply andb_false_r.
Qed.

Lemma lor_shiftl_bytes hi lo :
  byte lo -> Z.lor (Z.shiftl hi 8) lo = 256 * hi + lo.
Proof.
  intros Hlo. pose proof (land_shiftl_byte hi lo Hlo) as H0.
  rewrite <- Z.lxor_lor, <- Z.add_nocarry_lxor, Z.shiftl_mul_pow2 by
    first [assumption | lia].
  change (2 ^ 8) with 256. lia.
Qed.

(** The 16-bit opcode [cycle] forms from two bytes, and its fields. *)
Lemma opcode_fields hi lo :
  byte hi -> byte lo ->
  let opcode := Z.lor (Z.shiftl hi 8) lo in
  opcode = 256 * hi + lo /\
  Z.shiftr opcode 12 = hi / 16 /\
  op_x opcode = hi mod 16 /\
  op_y opcode = lo / 16 /\
  Z.land opcode 0xF = lo mod 16 /\
  Z.land opcode 0xFF = lo /\
  Z.land opcode 0xFFF = 256 * (hi mod 16) + lo.
Proof.
  intros Hhi Hlo. cbv zeta. rewrite (lor_shiftl_bytes hi lo Hlo).
  unfold op_x, op_y, byte in *.
  change 0xF with (Z.ones 4). change 0xFF with (Z.ones 8).
  change 0xFFF with (Z.ones 12).
  rewrite !Z.land_ones, !Z.shiftr_div_pow2 by lia.
  change (2 ^ 4) with 16. change (2 ^ 8) with 256.
  change (2 ^ 12) with 4096.
  repeat split; Z.div_mod_to_equations; lia.
Qed.

Lemma cycle_executes rnd s :
  valid s -> (4096 <= length (memory s))%nat ->
  waiting_for_key s = false -> PC s < 4094 ->
  exists hi lo,
    byte hi /\ byte lo /\
    Py.getitem (memory s) (PC s) = Some hi /\
    Py.getitem (memory s) (PC s + 1) = Some lo /\
    cycle rnd s = execute rnd (256 * hi + lo) s.
Proof.
  intros Hv Hm Hw Hpc. pose proof (valid_PC s Hv) as HPC.
  destruct (Py.getitem (memory s) (PC s)) as [hi|] eqn:Hhi.
  2:{ apply getitem_None in Hhi. lia. }
  destruct (Py.getitem (memory s) (PC s + 1)) as [lo|] eqn:Hlo.
  2:{ apply getitem_None in Hlo. lia. }
  assert (Hbh : byte hi) by apply (getitem_byte _ _ _ (valid_memory s Hv) Hhi).
  assert (Hbl : byte lo) by apply (getitem_byte _ _ _ (valid_memory s Hv) Hlo).
  exists hi, lo. split; [assumption|]. split; [assumption|].
  split; [reflexivity|]. split; [reflexivity|].
  unfold cycle, get_mem, bind, gets, subscript. rewrite Hw, (valid_max_pc s Hv).
  destruct (Z.geb_spec (PC s) 4094); [lia|].
  rewrite Hhi, Hlo. now rewrite lor_shiftl_bytes.
Qed.

(** Every machine reached from a loaded ROM by cycles, timer ticks and key
    events is valid: 16 registers and all memory cells hold bytes, the
    timers are bytes, the stack has 16 entries that are fetch addresses,
    the screen is 32 rows of 64 cells, the index register is not negative;
    and memory never has fewer than 4096 cells. *)
Theorem reachable_machines_are_valid rom es s_before :
  Forall byte rom ->
  Z.of_nat (length rom) <= 3584 ->
  Forall key_code es ->
  exists s0,
    load_rom rom s_before = Ok true s0 /\
    valid (after es s0) /\
    (4096 <= length (memory (after es s0)))%nat.
Proof.
  intros Hrom Hlen Hes. exists (loaded rom). split.
  - rewrite load_rom_eq. now destruct (Z.leb_spec (Z.of_nat (length rom)) 3584); [|lia].
  - apply after_roomy; [assumption|now apply loaded_valid|].
    now rewrite loaded_length.
Qed.

Lemma reachable_machines_are_valid_witness :
  exists s0,
    load_rom [0xA2; 0x0A; 0xF0; 0x33] power_on = Ok true s0 /\
    valid (after [Cycle 0; KeyPress 4; Cycle 9; Tick] s0) /\
    (4096 <= length (memory (after [Cycle 0; KeyPress 4; Cycle 9; Tick] s0)))%nat.
Proof.
  apply (reachable_machines_are_valid [0xA2; 0x0A; 0xF0; 0x33]
           [Cycle 0; KeyPress 4; Cycle 9; Tick] power_on).
  - repeat constructor; unfold byte; lia.
  - cbn. lia.
  - repeat constructor; cbn; lia.
Defined.

(** The fetch of a cycle never raises on a reachable machine: when the
    machine is not waiting for a key and the program counter is below
    4094, the cycle is the execution of the big-endian opcode
    256 * memory[PC] + memory[PC + 1]; an [IndexError] can only come from
    the instruction itself. *)
Theorem cycle_fetch_never_raises rom es s_before rnd :
  Forall byte rom ->
  Z.of_nat (length rom) <= 3584 ->
  Forall key_code es ->
  exists s0,
    load_rom rom s_before = Ok true s0 /\
    (waiting_for_key (after es s0) = false ->
     PC (after es s0) < 4094 ->
     exists hi lo,
       byte hi /\ byte lo /\
       Py.getitem (memory (after es s0)) (PC (after es s0)) = Some hi /\
       Py.getitem (memory (after es s0)) (PC (after es s0) + 1) = Some lo /\
       cycle rnd (after es s0) = execute rnd (256 * hi + lo) (after es s0)).
Proof.
  intros Hrom Hlen Hes. exists (loaded rom). split.
  - rewrite load_rom_eq. now destruct (Z.leb_spec (Z.of_nat (length rom)) 3584); [|lia].
  - intros Hw Hpc.
    destruct (after_roomy es (loaded rom)) as [Hv Hm];
      [assumption|now apply loaded_valid|now rewrite loaded_length|].
    now apply cycle_executes.
Qed.

Lemma cycle_fetch_never_raises_witness :
  exists s0,
    load_rom [0x12; 0x00] power_on = Ok true s0 /\
    (waiting_for_key (after [Cycle 0] s0) = false ->
     PC (after [Cycle 0] s0) < 4094 ->
     exists hi lo,
       byte hi /\ byte lo /\
       Py.getitem (memory (after [Cycle 0] s0)) (PC (after [Cycle 0] s0)) = Some hi /\
       Py.getitem (memory (after [Cycle 0] s0)) (PC (after [Cycle 0] s0) + 1) = Some lo /\
       cycle 0 (after [Cycle 0] s0) = execute 0 (256 * hi + lo) (after [Cycle 0] s0)).
Proof.
  apply (cycle_fetch_never_raises [0x12; 0x00] [Cycle 0] power_on 0).
  - repeat constructor; unfold byte; lia.
  - cbn. lia.
  - repeat constructor.
Defined.

(** Decoding: for bytes [hi] and [lo] the opcode [(hi << 8) | lo] is
    256 * hi + lo, its family is the high nibble of [hi], X the low nibble
    of [hi], Y the high nibble of [lo], N the low nibble of [lo], NN is
    [lo] and NNN is 256 * X + NN. *)
Theorem opcode_decoding hi lo :
  byte hi -> byte lo ->
  let opcode := Z.lor (Z.shiftl hi 8) lo in
  opcode = 256 * hi + lo /\
  Z.shiftr opcode 12 = hi / 16 /\
  op_x opcode = hi mod 16 /\
  op_y opcode = lo / 16 /\
  Z.land opcode 0xF = lo mod 16 /\
  Z.land opcode 0xFF = lo /\
  Z.land opcode 0xFFF = 256 * op_x opcode + lo.
Proof.
  intros Hhi Hlo. destruct (opcode_fields hi lo Hhi Hlo) as (H1 & H2 & H3 & H4 & H5 & H6 & H7).
  cbv zeta in *. rewrite H3. tauto.
Qed.

Lemma opcode_decoding_witness :
  let opcode := Z.lor (Z.shiftl 0xD1 8) 0x25 in
  opcode = 256 * 0xD1 + 0x25 /\
  Z.shiftr opcode 12 = 0xD1 / 16 /\
  op_x opcode = 0xD1 mod 16 /\
  op_y opcode = 0x25 / 16 /\
  Z.land opcode 0xF = 0x25 mod 16 /\
  Z.land opcode 0xFF = 0x25 /\
  Z.land opcode 0xFFF = 256 * op_x opcode + 0x25.
Proof.
  apply (opcode_decoding 0xD1 0x25); unfold byte; lia.
Defined.

(** ** Timers and instructions *)

Lemma ticks_registers n : forall s, V (ticks n s) = V s.
Proof.
  induction n as [|n IH]; intros s; [reflexivity|].
  cbn [ticks]. rewrite IH, update_timers_eq. cbn [final].
  now destruct (delay_timer s >? 0), (sound_timer s >? 0).
Qed.

(** Set-delay (FX15), then [n] timer ticks, then get-delay (FY07): the
    register read back holds the value set less [n], and 0 once the timer
    has run out. *)
Theorem delay_timer_counts_down rnd1 rnd2 o_set o_get s v n :
  Z.shiftr o_set 12 = 0xF -> Z.land o_set 0xFF = 0x15 ->
  Z.shiftr o_get 12 = 0xF -> Z.land o_get 0xFF = 0x07 ->
  length (V s) = 16%nat ->
  reg s (op_x o_set) = Some v ->
  0 <= v ->
  exists s1 s2,
    execute rnd1 o_set s = Ok tt s1 /\
    execute rnd2 o_get (ticks n s1) = Ok tt s2 /\
    reg s2 (op_x o_get) = Some (Z.max 0 (v - Z.of_nat n)).
Proof.
  intros Hs Hsn Hg Hgn HV Hv Hpos. unfold reg, op_x in *.
  pose proof (nibble_range (Z.shiftr o_get 8)) as Hx.
  exists (set_PC (PC s + 2) (set_delay_timer v s)).
  set (s1 := set_PC (PC s + 2) (set_delay_timer v s)).
  assert (Hd : delay_timer (ticks n s1) = Z.max 0 (v - Z.of_nat n)).
  { rewrite ticks_delay; [reflexivity|]. cbn. lia. }
  assert (HV1 : V (ticks n s1) = V s) by now rewrite ticks_registers.
  destruct (Py.setitem (V (ticks n s1)) (Z.land (Z.shiftr o_get 8) 0xF)
              (delay_timer (ticks n s1))) as [l|] eqn:Hl.
  2:{ apply setitem_None in Hl. rewrite HV1 in Hl. lia. }
  exists (set_PC (PC (ticks n s1) + 2) (set_V l (ticks n s1))).
  split; [|split].
  - family 0xF Hs. rewrite Hsn. cbn [Z.eqb Pos.eqb]. cbv iota.
    unfold bind. now rewrite (get_V_eq _ _ _ Hv).
  - family 0xF Hg. rewrite Hgn. cbn [Z.eqb Pos.eqb]. cbv iota.
    unfold bind, gets. now rewrite (put_V_eq _ _ _ _ Hl).
  - cbn [V set_PC set_V]. rewrite <- Hd.
    apply (getitem_setitem_same _ _ _ _ Hl).
Qed.

Lemma delay_timer_counts_down_witness :
  exists s1 s2,
    execute 0 0xF015 (set_V (<[0%nat := 5]> (V power_on)) power_on) = Ok tt s1 /\
    execute 0 0xF307 (ticks 3 s1) = Ok tt s2 /\
    reg s2 (op_x 0xF307) = Some (Z.max 0 (5 - Z.of_nat 3)).
Proof.
  apply (delay_timer_counts_down 0 0 0xF015 0xF307
           (set_V (<[0%nat := 5]> (V power_on)) power_on) 5 3);
    first [reflexivity | lia].
Defined.

(** ** reset and the font *)

(** [reset] never raises and forgets the machine it is called on: from
    every machine it gives the same one, whose memory is the font followed
    by zeros, with the program counter at 0x200 and everything else zero,
    blank or released. *)
Theorem reset_forgets s :
  exists s0,
    reset s = Ok tt s0 /\
    (forall s', reset s' = Ok tt s0) /\
    memory s0 = FONTSET ++ repeat 0 (4096 - length FONTSET) /\
    V s0 = repeat 0 16 /\ stack s0 = repeat 0 16 /\ keys s0 = repeat 0 16 /\
    display s0 = blank_display /\
    (I s0, PC s0, SP s0, delay_timer s0, sound_timer s0) = (0, 0x200, 0, 0, 0) /\
    (draw_flag s0, sound_flag s0, waiting_for_key s0) = (false, false, false) /\
    (shift_quirk s0, increment_i s0, max_pc s0) = (true, true, 4094).
Proof.
  exists power_on. split; [apply reset_eq|]. split; [apply reset_eq|].
  repeat split.
Qed.

(** Index-to-glyph (FX29) on a machine whose font is in place: the index
    register ends at 5 * (V[x] & 0xF), inside the font, and the five cells
    from there are the rows of that digit in FONTSET. *)
Theorem glyph_address rnd opcode s v :
  Z.shiftr opcode 12 = 0xF ->
  Z.land opcode 0xFF = 0x29 ->
  reg s (op_x opcode) = Some v ->
  take 80 (memory s) = FONTSET ->
  exists s',
    execute rnd opcode s = Ok tt s' /\
    I s' = 5 * (v mod 16) /\
    0 <= I s' <= 75 /\
    (forall r, 0 <= r < 5 ->
               Py.getitem (memory s') (I s' + r)
               = FONTSET !! Z.to_nat (5 * (v mod 16) + r)).
Proof.
  intros Hop Hnn Hv Hfont. unfold reg, op_x in *.
  exists (set_PC (PC s + 2) (set_I (Z.land v 0xF * 5) s)).
  assert (Hd : Z.land v 0xF = v mod 16).
  { change 0xF with (Z.ones 4). now rewrite Z.land_ones by lia. }
  pose proof (Z.mod_pos_bound v 16 eq_refl) as Hm.
  split; [|split; [|split]].
  - family 0xF Hop. rewrite Hnn. cbn [Z.eqb Pos.eqb]. cbv iota.
    unfold bind. now rewrite (get_V_eq _ _ _ Hv).
  - cbn [I set_PC set_I]. lia.
  - cbn [I set_PC set_I]. lia.
  - intros r Hr. cbn [I memory set_PC set_I]. rewrite Hd.
    assert (Hlen : (80 <= length (memory s))%nat).
    { apply (f_equal length) in Hfont. rewrite length_take in Hfont.
      change (length FONTSET) with 80%nat in Hfont. lia. }
    rewrite getitem_nonneg by lia.
    rewrite <- Hfont, lookup_take_lt by lia. f_equal. lia.
Qed.

Lemma glyph_address_witness :
  exists s',
    execute 0 0xF029 (set_V (<[0%nat := 0x1A]> (V power_on)) power_on) = Ok tt s' /\
    I s' = 5 * (0x1A mod 16) /\
    0 <= I s' <= 75 /\
    (forall r, 0 <= r < 5 ->
               Py.getitem (memory s') (I s' + r)
               = FONTSET !! Z.to_nat (5 * (0x1A mod 16) + r)).
Proof.
  apply (glyph_address 0 0xF029
           (set_V (<[0%nat := 0x1A]> (V power_on)) power_on) 0x1A);
    reflexivity.
Defined.

(** ** The keyboard handlers *)

Lemma dict_get_In d k v : dict_get d k = Some v -> In (k, v) d.
Proof.
  induction d as [|[k' v'] d IH]; [discriminate|]. cbn [dict_get].
  destruct (String.eqb_spec k k') as [->|Hne].
  - intros [= ->]. now left.
  - intros H. right. now apply IH.
Qed.

Lemma KEY_MAP_codes k v : dict_get KEY_MAP k = Some v -> 0 <= v <= 15.
Proof.
  intros H%dict_get_In. unfold KEY_MAP in H. cbn [In] in H.
  repeat (destruct H as [H|H]; [injection H as <- <-; lia|]). contradiction.
Qed.

Ltac keep_key_register :=
  proj_simpl; first [assumption | lia].

(** The register a key wait records is always one of the 16. *)
Lemma execute_key_register rnd opcode s :
  0 <= key_register s < 16 ->
  0 <= key_register (final (execute rnd opcode s)) < 16.
Proof.
  intros Hk. pose proof (nibble_range (Z.shiftr opcode 8)) as Hx.
  apply (wp_final _ (fun s' => 0 <= key_register s' < 16)).
  unfold execute. wp_run.
  all: try solve [keep_key_register].
  - apply wp_for_each_inv; [|assumption|intros s' Hs'; wp_run; keep_key_register].
    intros row s' Hs'. unfold draw_row. wp_run; [|assumption].
    apply wp_for_each_inv; [|assumption|auto].
    intros col s'' Hs''. unfold draw_col. wp_run; keep_key_register.
  - apply wp_for_each_inv; [|assumption|intros s' Hs'; wp_run; keep_key_register].
    intros i s' Hs'. wp_run; keep_key_register.
  - apply wp_for_each_inv; [|assumption|intros s' Hs'; wp_run; keep_key_register].
    intros i s' Hs'. wp_run; keep_key_register.
Qed.

Lemma handle_key_register e s :
  0 <= key_register s < 16 -> 0 <= key_register (final (handle e s)) < 16.
Proof.
  intros Hk. destruct e; cbn [handle].
  - apply (wp_final _ (fun s' => 0 <= key_register s' < 16)).
    unfold cycle. wp_run; try assumption.
    apply (wp_final _ (fun s' => 0 <= key_register s' < 16)).
    now apply execute_key_register.
  - apply (wp_final _ (fun s' => 0 <= key_register s' < 16)).
    unfold update_timers. wp_run; keep_key_register.
  - apply (wp_final _ (fun s' => 0 <= key_register s' < 16)).
    unfold key_press. wp_run; keep_key_register.
  - apply (wp_final _ (fun s' => 0 <= key_register s' < 16)).
    unfold key_release. wp_run; keep_key_register.
Qed.

Lemma after_key_register es : forall s,
  0 <= key_register s < 16 -> 0 <= key_register (after es s) < 16.
Proof.
  induction es as [|e es IH]; intros s Hs; [assumption|].
  cbn [after fold_left]. apply IH. now apply handle_key_register.
Qed.

Lemma key_press_returns k s :
  0 <= k <= 15 -> valid s -> 0 <= key_register s < 16 ->
  exists s', key_press k s = Ok tt s' /\ valid s'.
Proof.
  intros Hr Hv Hk.
  pose proof (key_press_valid k s Hr Hv) as H.
  assert (Hq : wp (key_press k) (fun _ _ => True) (fun _ => False) s).
  { unfold key_press. wp_run; try exact Logic.I; no_raise. }
  unfold wp in *. destruct (key_press k s) as [[] s'|]; [eauto|contradiction].
Qed.

Lemma key_release_returns k s :
  0 <= k <= 15 -> valid s ->
  exists s', key_release k s = Ok tt s' /\ valid s'.
Proof.
  intros Hr Hv.
  pose proof (key_release_valid k s Hv) as H.
  assert (Hq : wp (key_release k) (fun _ _ => True) (fun _ => False) s).
  { unfold key_release. wp_run; try exact Logic.I; no_raise. }
  unfold wp in *. destruct (key_release k s) as [[] s'|]; [eauto|contradiction].
Qed.

(** The keyboard handlers never raise: on every machine reached from a
    loaded ROM, [on_key_press] and [on_key_release] return for every key
    name and leave a valid machine; a name outside KEY_MAP changes
    nothing. *)
Theorem keyboard_handlers_are_safe rom es s_before keysym :
  Forall byte rom ->
  Z.of_nat (length rom) <= 3584 ->
  Forall key_code es ->
  exists s0,
    load_rom rom s_before = Ok true s0 /\
    (exists s', on_key_press keysym (after es s0) = Ok tt s' /\ valid s') /\
    (exists s', on_key_release keysym (after es s0) = Ok tt s' /\ valid s') /\
    (dict_get KEY_MAP keysym = None ->
     on_key_press keysym (after es s0) = Ok tt (after es s0) /\
     on_key_release keysym (after es s0) = Ok tt (after es s0)).
Proof.
  intros Hrom Hlen Hes. exists (loaded rom). split.
  { rewrite load_rom_eq. now destruct (Z.leb_spec (Z.of_nat (length rom)) 3584); [|lia]. }
  assert (Hv : valid (after es (loaded rom))).
  { apply after_valid; [assumption|now apply loaded_valid]. }
  assert (Hk : 0 <= key_register (after es (loaded rom)) < 16).
  { apply after_key_register. cbn. lia. }
  unfold on_key_press, on_key_release.
  destruct (dict_get KEY_MAP keysym) as [k|] eqn:Hkey.
  - pose proof (KEY_MAP_codes _ _ Hkey) as Hr.
    split; [now apply key_press_returns|].
    split; [now apply key_release_returns|discriminate].
  - split; [eauto|]. split; [eauto|]. intros _. split; reflexivity.
Qed.

Lemma keyboard_handlers_are_safe_witness :
  exists s0,
    load_rom [0xF3; 0x0A] power_on = Ok true s0 /\
    (exists s', on_key_press "q"%string (after [Cycle 0] s0) = Ok tt s' /\ valid s') /\
    (exists s', on_key_release "q"%string (after [Cycle 0] s0) = Ok tt s' /\ valid s') /\
    (dict_get KEY_MAP "q"%string = None ->
     on_key_press "q"%string (after [Cycle 0] s0) = Ok tt (after [Cycle 0] s0) /\
     on_key_release "q"%string (after [Cycle 0] s0) = Ok tt (after [Cycle 0] s0)).
Proof.
  apply (keyboard_handlers_are_safe [0xF3; 0x0A] [Cycle 0] power_on "q"%string).
  - repeat constructor; unfold byte; lia.
  - cbn. lia.
  - repeat constructor.
Defined.

(** KEY_MAP pairs the 16 keypad codes with 16 key names one to one: each
    code from 0 to 15 is pressed by exactly one key name, and no name gives
    a code outside that range. *)
Theorem keypad_is_covered_once :
  (forall code, 0 <= code <= 15 ->
     exists k, dict_get KEY_MAP k = Some code /\
               forall k', dict_get KEY_MAP k' = Some code -> k' = k) /\
  (forall k code, dict_get KEY_MAP k = Some code -> 0 <= code <= 15).
Proof.
  split; [|apply KEY_MAP_codes].
  intros code Hc.
  assert (Hcases : In code [0;1;2;3;4;5;6;7;8;9;10;11;12;13;14;15]).
  { cbn. lia. }
  cbn [In] in Hcases.
  repeat (destruct Hcases as [<-|Hcases];
          [match goal with
           | |- exists k, dict_get KEY_MAP k = Some ?c /\ _ =>
               let r := eval vm_compute in
                 (List.find (fun p => Z.eqb (snd p) c) KEY_MAP) in
               match r with
               | Some (?k, _) => exists k
               end
           end;
           split; [reflexivity|];
           intros k' H%dict_get_In; unfold KEY_MAP in H; cbn [In] in H;
           repeat (destruct H as [H|H]; [now inversion H|]);
           contradiction|]).
  contradiction.
Qed.

(** ** The frame loop *)

Lemma for_each_fixed {A} (l : list A) (body : A -> M unit) s :
  (forall a, body a s = Ok tt s) -> for_each l body s = Ok tt s.
Proof.
  intros H. induction l as [|a l IH]; [reflexivity|].
  cbn [for_each]. unfold bind. now rewrite H.
Qed.

Lemma set_draw_flag_same s : draw_flag s = false -> set_draw_flag false s = s.
Proof. destruct s. cbn. now intros ->. Qed.

(** A pass of the loop over a machine that waits for a key, or whose
    program counter has reached [max_pc]: whatever [cycles_per_frame] is,
    no instruction runs; the timers tick once, the draw flag is handed to
    the window and cleared, and the bell is rung exactly when the sound
    timer was running or a bell was pending. *)
Theorem idle_pass_only_ticks rnd cycles_per_frame pending s :
  waiting_for_key s = true \/ max_pc s <= PC s ->
  loop_pass rnd cycles_per_frame true pending s =
    Ok ((if draw_flag s then [ScheduleDraw] else []) ++
        (if (sound_timer s >? 0) || pending then [ScheduleBell] else []),
        false)
       (set_draw_flag false (final (update_timers s))) /\
  delay_timer (final (update_timers s))
  = (if delay_timer s >? 0 then delay_timer s - 1 else delay_timer s) /\
  set_sound_flag (sound_flag s)
    (set_sound_timer (sound_timer s)
       (set_delay_timer (delay_timer s) (final (update_timers s)))) = s.
Proof.
  intros Hidle.
  assert (Hc : forall i, cycle (rnd i) s = Ok tt s).
  { intros i. unfold cycle, bind, gets, ret. destruct Hidle as [->|Hpc]; [reflexivity|].
    destruct (waiting_for_key s); [reflexivity|].
    destruct (Z.geb_spec (PC s) (max_pc s)); [reflexivity|lia]. }
  split; [|split].
  - unfold loop_pass. unfold bind at 1.
    rewrite (for_each_fixed _ _ s Hc). cbv beta iota. clear Hc Hidle.
    assert (Ht : update_timers s = Ok tt (final (update_timers s))).
    { now rewrite update_timers_eq. }
    assert (Hdf : draw_flag (final (update_timers s)) = draw_flag s).
    { rewrite update_timers_eq. cbn [final].
      now destruct (delay_timer s >? 0), (sound_timer s >? 0). }
    assert (Hsf : sound_flag (final (update_timers s)) = (sound_timer s >? 0)).
    { rewrite update_timers_eq. cbn [final].
      now destruct (delay_timer s >? 0), (sound_timer s >? 0). }
    unfold bind at 1. rewrite Ht. cbv beta iota.
    unfold bind, gets, modify, ret. rewrite Hdf.
    destruct (draw_flag s) eqn:Hd; proj_simpl; rewrite Hsf.
    + now destruct (sound_timer s >? 0).
    + rewrite set_draw_flag_same by congruence.
      now destruct (sound_timer s >? 0).
  - rewrite update_timers_eq. cbn [final].
    now destruct (delay_timer s >? 0), (sound_timer s >? 0).
  - rewrite update_timers_eq. cbn [final].
    destruct (delay_timer s >? 0), (sound_timer s >? 0); now destruct s.
Qed.

Lemma idle_pass_only_ticks_witness :
  let s := set_sound_timer 2 (set_waiting_for_key true power_on) in
  loop_pass (fun _ => 0) 10 true false s =
    Ok ((if draw_flag s then [ScheduleDraw] else []) ++
        (if (sound_timer s >? 0) || false then [ScheduleBell] else []),
        false)
       (set_draw_flag false (final (update_timers s))) /\
  delay_timer (final (update_timers s))
  = (if delay_timer s >? 0 then delay_timer s - 1 else delay_timer s) /\
  set_sound_flag (sound_flag s)
    (set_sound_timer (sound_timer s)
       (set_delay_timer (delay_timer s) (final (update_timers s)))) = s.
Proof.
  apply (idle_pass_only_ticks (fun _ => 0) 10 false
           (set_sound_timer 2 (set_waiting_for_key true power_on))).
  left. reflexivity.
Defined.



(** ** Which pixels a sprite flips *)

Lemma cell_toggle_same d p :
  cell (toggle d p) p = option_map (fun v => Z.lxor v 1) (cell d p).
Proof.
  unfold cell, toggle. rewrite list_lookup_alter_eq.
  destruct (d !! fst p) as [r|]; [|reflexivity]. cbn.
  rewrite list_lookup_alter_eq. now destruct (r !! snd p).
Qed.

Lemma cell_toggle_other d p q : q <> p -> cell (toggle d p) q = cell d q.
Proof.
  intros Hne. unfold cell, toggle.
  destruct (decide (fst p = fst q)) as [Hr|Hr].
  - rewrite Hr, list_lookup_alter_eq.
    destruct (d !! fst q) as [r|]; [|reflexivity]. cbn.
    apply list_lookup_alter_ne. intros Hc. apply Hne.
    destruct p, q; cbn in *; congruence.
  - now rewrite list_lookup_alter_ne.
Qed.

Lemma cell_blit_out hs : forall d q,
  ~ In q hs -> cell (fold_left toggle hs d) q = cell d q.
Proof.
  induction hs as [|h hs IH]; intros d q Hq; [reflexivity|].
  cbn [fold_left]. rewrite IH by (intros H; apply Hq; now right).
  apply cell_toggle_other. intros ->. apply Hq. now left.
Qed.

Lemma cell_blit_in hs : forall d q,
  List.NoDup hs -> In q hs ->
  cell (fold_left toggle hs d) q = option_map (fun v => Z.lxor v 1) (cell d q).
Proof.
  induction hs as [|h hs IH]; intros d q Hnd Hq; [contradiction|].
  apply NoDup_cons_iff in Hnd as [Hh Hnd]. cbn [fold_left].
  destruct Hq as [->|Hq].
  - rewrite cell_blit_out by assumption. apply cell_toggle_same.
  - rewrite IH by assumption. f_equal. apply cell_toggle_other.
    intros ->. contradiction.
Qed.

(** Distinct rows of a sprite land on distinct rows of the screen, distinct
    bits of a row on distinct columns. *)
Lemma wrap_injective m a i j :
  0 < m -> 0 <= i < m -> 0 <= j < m ->
  Z.to_nat ((a + i) mod m) = Z.to_nat ((a + j) mod m) -> i = j.
Proof.
  intros Hm Hi Hj H.
  pose proof (Z.mod_pos_bound (a + i) m Hm).
  pose proof (Z.mod_pos_bound (a + j) m Hm).
  assert (E : (a + i) mod m = (a + j) mod m) by lia.
  pose proof (Z.div_mod (a + i) m). pose proof (Z.div_mod (a + j) m).
  assert (Hq : i - j = m * ((a + i) / m - (a + j) / m)) by lia.
  assert ((a + i) / m - (a + j) / m = 0) by nia. lia.
Qed.

Lemma col_hits_In vx vy sprite row col p :
  In p (col_hits vx vy sprite row col) ->
  p = (Z.to_nat ((vy + row) mod 32), Z.to_nat ((vx + col) mod 64)).
Proof.
  unfold col_hits. destruct (Py.truthy _); [|contradiction].
  now intros [<-|[]].
Qed.

Lemma col_hits_NoDup vx vy sprite row col :
  List.NoDup (col_hits vx vy sprite row col).
Proof.
  unfold col_hits. destruct (Py.truthy _); repeat constructor. now intros [].
Qed.

Lemma range_NoDup n : List.NoDup (Py.range n).
Proof.
  unfold Py.range. apply Finite.Injective_map_NoDup; [|apply seq_NoDup].
  intros a b. apply Nat2Z.inj.
Qed.

(** Lists made by [flat_map] from pieces that cannot meet. *)
Lemma flat_map_NoDup {A B} (f : A -> list B) (l : list A) :
  List.NoDup l ->
  (forall a, In a l -> List.NoDup (f a)) ->
  (forall a b p, In a l -> In b l -> In p (f a) -> In p (f b) -> a = b) ->
  List.NoDup (flat_map f l).
Proof.
  induction l as [|a l IH]; intros Hl Hf Hdis; [constructor|].
  apply NoDup_cons_iff in Hl as [Ha Hl]. cbn [flat_map].
  apply List.NoDup_app.
  - apply Hf. now left.
  - apply IH; [assumption| |].
    + intros b Hb. apply Hf. now right.
    + intros b c p Hb Hc. apply Hdis; now right.
  - intros p Hp (b & Hb & Hpb)%in_flat_map.
    assert (a = b) by (apply (Hdis a b p); [now left|now right|assumption..]).
    subst b. contradiction.
Qed.

Lemma row_hits_In vx vy sprite row p :
  In p (row_hits vx vy sprite row) ->
  fst p = Z.to_nat ((vy + row) mod 32).
Proof.
  unfold row_hits. intros (col & _ & Hp%col_hits_In)%in_flat_map. now subst p.
Qed.

Lemma row_hits_NoDup vx vy sprite row : List.NoDup (row_hits vx vy sprite row).
Proof.
  unfold row_hits. apply flat_map_NoDup.
  - apply range_NoDup.
  - intros col _. apply col_hits_NoDup.
  - intros a b p Ha%in_range Hb%in_range Hpa%col_hits_In Hpb%col_hits_In.
    subst p. injection Hpb as H.
    apply (wrap_injective 64 vx a b); lia.
Qed.

Lemma sprite_hits_NoDup vx vy mem i n :
  n <= 32 -> List.NoDup (sprite_hits vx vy mem i n).
Proof.
  intros Hn. unfold sprite_hits. apply flat_map_NoDup.
  - apply range_NoDup.
  - intros row _. destruct (Py.getitem mem (i + row)); [|constructor].
    apply row_hits_NoDup.
  - intros a b p Ha%in_range Hb%in_range Hpa Hpb.
    destruct (Py.getitem mem (i + a)); [|contradiction].
    destruct (Py.getitem mem (i + b)); [|contradiction].
    apply row_hits_In in Hpa, Hpb.
    apply (wrap_injective 32 vy a b); lia.
Qed.

Lemma wp_conj {A} (m : M A) (Q1 Q2 : A -> cpu -> Prop) (E1 E2 : cpu -> Prop) s :
  wp m Q1 E1 s -> wp m Q2 E2 s ->
  wp m (fun a s' => Q1 a s' /\ Q2 a s') (fun s' => E1 s' /\ E2 s') s.
Proof. unfold wp. destruct (m s); auto. Qed.

Lemma NoDup_app_middle {A} (l1 l2 l3 : list A) :
  List.NoDup (l1 ++ l2 ++ l3) ->
  List.NoDup (l1 ++ l2) /\ (forall p, In p l2 -> ~ In p l1).
Proof.
  intros H. rewrite app_assoc in H. apply NoDup_app_remove_r in H.
  split; [assumption|].
  intros p Hp2 Hp1.
  apply in_split in Hp1 as (a & b & ->).
  rewrite <- app_assoc in H. cbn in H.
  apply NoDup_remove_2 in H. apply H.
  rewrite app_assoc. apply in_or_app. now right.
Qed.

Lemma getitem_cell (d : list (list Z)) r py px v :
  0 <= py -> 0 <= px ->
  Py.getitem d py = Some r -> Py.getitem r px = Some v ->
  cell d (Z.to_nat py, Z.to_nat px) = Some v.
Proof.
  intros Hpy Hpx Hr Hv.
  apply getitem_Some in Hr as (kr & Ekr & Hr).
  apply getitem_Some in Hv as (kp & Ekp & Hv).
  assert (kr = Z.to_nat py).
  { apply index_Some in Ekr as Hb. rewrite index_nonneg in Ekr by lia. congruence. }
  assert (kp = Z.to_nat px).
  { apply index_Some in Ekp as Hb. rewrite index_nonneg in Ekp by lia. congruence. }
  subst. unfold cell. cbn [fst snd]. now rewrite Hr.
Qed.

Lemma draw_col_flagged s0 x y vx vy hs row sprite col s :
  0 <= x < 16 -> 0 <= y < 16 -> x <> 0xF -> y <> 0xF ->
  Py.getitem (V s0) x = Some vx ->
  Py.getitem (V s0) y = Some vy ->
  drawn s0 x y hs s ->
  flagged s0 hs s ->
  (forall p, In p (col_hits vx vy sprite row col) -> ~ In p hs) ->
  wp (draw_col x y row sprite col)
     (fun _ => flagged s0 (hs ++ col_hits vx vy sprite row col))
     (fun _ => True) s.
Proof.
  intros Hx Hy Hxf Hyf Hvx Hvy (Hf & Hm & Hsx & Hsy & Hd) Hfl Hnew.
  unfold draw_col, col_hits in *.
  destruct (Py.truthy (Z.land sprite (Z.shiftr 0x80 col))).
  2:{ apply wp_ret. now rewrite app_nil_r. }
  assert (HfV : length (V s) = 16%nat) by apply Hf.
  pose proof (Z.mod_pos_bound (vy + row) 32 eq_refl) as Hpy.
  pose proof (Z.mod_pos_bound (vx + col) 64 eq_refl) as Hpx.
  set (p := (Z.to_nat ((vy + row) mod 32), Z.to_nat ((vx + col) mod 64))) in *.
  assert (Hp : ~ In p hs) by (apply Hnew; now left).
  unfold flagged, reg in *. rewrite existsb_app. cbn [existsb]. rewrite orb_false_r.
  wp_run.
  all: try exact Logic.I.
  all: assert (a = vx) by congruence; assert (a0 = vy) by congruence; subst a a0.
  all: assert (Hc : cell (display s0) p = Some a2)
         by (rewrite <- (cell_blit_out hs (display s0) p Hp), <- Hd;
             apply (getitem_cell _ a1); [lia|lia|assumption|assumption]).
  all: unfold lit; rewrite Hc, Heqb.
  - rewrite orb_true_r. apply (getitem_setitem_same _ _ _ _ H3).
  - now rewrite orb_false_r.
Qed.

Lemma draw_row_flagged s0 x y vx vy hs row sprite s :
  0 <= x < 16 -> 0 <= y < 16 -> x <> 0xF -> y <> 0xF ->
  Py.getitem (V s0) x = Some vx ->
  Py.getitem (V s0) y = Some vy ->
  Py.getitem (memory s0) (I s0 + row) = Some sprite ->
  drawn s0 x y hs s ->
  flagged s0 hs s ->
  List.NoDup (hs ++ row_hits vx vy sprite row) ->
  wp (draw_row x y row)
     (fun _ s' => drawn s0 x y (hs ++ row_hits vx vy sprite row) s' /\
                  flagged s0 (hs ++ row_hits vx vy sprite row) s')
     (fun _ => False) s.
Proof.
  intros Hx Hy Hxf Hyf Hvx Hvy Hsp Hs Hfl Hnd. unfold draw_row.
  assert (Hmem : Py.getitem (memory s) (I s + row) = Some sprite).
  { destruct Hs as ((_ & _ & _ & -> & _) & -> & _). assumption. }
  wp_run; [|congruence].
  assert (a = sprite) by congruence. subst a.
  apply (wp_for_each
           (fun pre s' =>
              drawn s0 x y (hs ++ flat_map (col_hits vx vy sprite row) pre) s' /\
              flagged s0 (hs ++ flat_map (col_hits vx vy sprite row) pre) s')).
  - cbn [flat_map]. now rewrite app_nil_r.
  - intros pre col post s' Hl [Hs' Hfl'].
    rewrite flat_map_app. cbn [flat_map]. rewrite app_nil_r, app_assoc.
    assert (Hnew : forall p, In p (col_hits vx vy sprite row col) ->
                             ~ In p (hs ++ flat_map (col_hits vx vy sprite row) pre)).
    { unfold row_hits in Hnd. rewrite Hl, flat_map_app in Hnd.
      cbn [flat_map] in Hnd. rewrite app_assoc in Hnd.
      apply (NoDup_app_middle _ _ _ Hnd). }
    set (hs' := hs ++ flat_map (col_hits vx vy sprite row) pre) in *.
    apply (wp_mono _
             (fun _ s'' =>
                drawn s0 x y (hs' ++ col_hits vx vy sprite row col) s'' /\
                flagged s0 (hs' ++ col_hits vx vy sprite row col) s'')
             _ (fun _ => False /\ True)).
    + apply (wp_conj _ (fun _ => drawn s0 x y (hs' ++ col_hits vx vy sprite row col))
               (fun _ => flagged s0 (hs' ++ col_hits vx vy sprite row col))).
      * apply draw_col_drawn; assumption.
      * apply (draw_col_flagged s0 x y vx vy); assumption.
    + auto.
    + tauto.
  - auto.
Qed.

Lemma draw_effect rnd opcode s vx vy :
  Z.shiftr opcode 12 = 0xD ->
  op_x opcode <> 0xF -> op_y opcode <> 0xF ->
  frame s s -> 0 <= I s ->
  I s + Z.land opcode 0xF <= Z.of_nat (length (memory s)) ->
  reg s (op_x opcode) = Some vx ->
  reg s (op_y opcode) = Some vy ->
  exists s',
    execute rnd opcode s = Ok tt s' /\
    drawn s (op_x opcode) (op_y opcode)
      (sprite_hits vx vy (memory s) (I s) (Z.land opcode 0xF)) s' /\
    flagged s (sprite_hits vx vy (memory s) (I s) (Z.land opcode 0xF)) s'.
Proof.
  intros Hop Hxf Hyf Hf HI Hfit Hvx Hvy. unfold reg, op_x, op_y in *.
  pose proof (nibble_range opcode) as Hn.
  pose proof (nibble_range (Z.shiftr opcode 8)) as Hx.
  pose proof (nibble_range (Z.shiftr opcode 4)) as Hy.
  set (x := Z.land (Z.shiftr opcode 8) 0xF) in *.
  set (y := Z.land (Z.shiftr opcode 4) 0xF) in *.
  set (n := Z.land opcode 0xF) in *.
  pose proof (sprite_hits_NoDup vx vy (memory s) (I s) n ltac:(lia)) as Hnd.
  cut (wp (execute rnd opcode)
          (fun _ s' =>
             drawn s x y (sprite_hits vx vy (memory s) (I s) n) s' /\
             flagged s (sprite_hits vx vy (memory s) (I s) n) s')
          (fun _ => False) s).
  { intros ([] & s' & H1 & H2)%wp_Ok. eauto. }
  unfold execute.
  destruct (family_not_0 opcode 0xD Hop) as [-> ->]; [lia|].
  rewrite Hop. cbn [Z.eqb Pos.eqb andb]. cbv beta iota.
  fold x y n.
  wp_run; [|no_raise].
  assert (HfV : length (V s) = 16%nat) by apply Hf.
  set (hits_of := fun row =>
         match Py.getitem (memory s) (I s + row) with
         | Some sprite => row_hits vx vy sprite row
         | None => []
         end).
  change (sprite_hits vx vy (memory s) (I s) n) with (flat_map hits_of (Py.range n)) in Hnd.
  change (sprite_hits vx vy (memory s) (I s) n) with (flat_map hits_of (Py.range n)).
  apply (wp_for_each (fun pre s' => drawn s x y (flat_map hits_of pre) s' /\
                                    flagged s (flat_map hits_of pre) s')).
  - split.
    + unfold drawn. proj_simpl. cbn [flat_map fold_left].
      rewrite (getitem_setitem_other _ _ x _ _ H) by (rewrite ?HfV; lia).
      rewrite (getitem_setitem_other _ _ y _ _ H) by (rewrite ?HfV; lia).
      split; [|tauto]. destruct Hf as (? & ? & ? & ? & ?).
      unfold frame. proj_simpl. erewrite setitem_length by eassumption. tauto.
    + unfold flagged, reg. proj_simpl. cbn [flat_map existsb].
      apply (getitem_setitem_same _ _ _ _ H).
  - intros pre row post s' Hl [Hs' Hfl'].
    assert (Hrow : 0 <= row < n).
    { apply in_range. rewrite Hl. apply in_or_app. right. now left. }
    destruct (Py.getitem (memory s) (I s + row)) as [sprite|] eqn:Hsp.
    2:{ apply getitem_None in Hsp. lia. }
    rewrite flat_map_app. cbn [flat_map]. rewrite app_nil_r.
    assert (Hrw : hits_of row = row_hits vx vy sprite row).
    { unfold hits_of. now rewrite Hsp. }
    rewrite Hrw. apply draw_row_flagged; try assumption.
    rewrite Hl, flat_map_app in Hnd. cbn [flat_map] in Hnd. rewrite Hrw in Hnd.
    apply (NoDup_app_middle _ _ _ Hnd).
  - intros s' [Hs' Hfl']. wp_run. split.
    + destruct Hs' as (Hf' & Hm & Hsx & Hsy & Hd).
      unfold drawn, frame in *. proj_simpl. tauto.
    + unfold flagged, reg in *. proj_simpl. assumption.
Qed.

Lemma sprite_hits_In vx vy mem i n p :
  In p (sprite_hits vx vy mem i n) <->
  exists row col sprite,
    0 <= row < n /\ 0 <= col < 8 /\
    Py.getitem mem (i + row) = Some sprite /\
    Py.truthy (Z.land sprite (Z.shiftr 0x80 col)) = true /\
    p = (Z.to_nat ((vy + row) mod 32), Z.to_nat ((vx + col) mod 64)).
Proof.
  unfold sprite_hits, row_hits. rewrite in_flat_map. split.
  - intros (row & Hrow%in_range & Hp).
    destruct (Py.getitem mem (i + row)) as [sprite|] eqn:Hsp; [|contradiction].
    apply in_flat_map in Hp as (col & Hcol%in_range & Hp).
    unfold col_hits in Hp.
    destruct (Py.truthy (Z.land sprite (Z.shiftr 0x80 col))) eqn:Hb; [|contradiction].
    destruct Hp as [<-|[]]. exists row, col, sprite. tauto.
  - intros (row & col & sprite & Hrow & Hcol & Hsp & Hb & ->).
    exists row. split; [now apply in_range|]. rewrite Hsp.
    apply in_flat_map. exists col. split; [now apply in_range|].
    unfold col_hits. rewrite Hb. now left.
Qed.

(** Draw-sprite (DXYN) with X and Y other than 0xF and the N sprite rows
    inside memory.  The pixels under the set bits of the sprite, taken
    modulo 64 across and modulo 32 down, are flipped and no other cell of
    the screen changes; register 0xF ends as 1 exactly when one of those
    pixels was lit before, and as 0 otherwise. *)
Theorem draw_flips_and_flags rnd opcode s vx vy :
  Z.shiftr opcode 12 = 0xD ->
  op_x opcode <> 0xF -> op_y opcode <> 0xF ->
  frame s s -> 0 <= I s ->
  I s + Z.land opcode 0xF <= Z.of_nat (length (memory s)) ->
  reg s (op_x opcode) = Some vx ->
  reg s (op_y opcode) = Some vy ->
  exists s' hits,
    execute rnd opcode s = Ok tt s' /\
    (forall p,
       In p hits <->
       exists row col sprite,
         0 <= row < Z.land opcode 0xF /\ 0 <= col < 8 /\
         Py.getitem (memory s) (I s + row) = Some sprite /\
         Py.truthy (Z.land sprite (Z.shiftr 0x80 col)) = true /\
         p = (Z.to_nat ((vy + row) mod 32), Z.to_nat ((vx + col) mod 64))) /\
    (forall p, In p hits ->
       cell (display s') p = option_map (fun v => Z.lxor v 1) (cell (display s) p)) /\
    (forall p, ~ In p hits -> cell (display s') p = cell (display s) p) /\
    reg s' 0xF = Some (if existsb (lit (display s)) hits then 1 else 0).
Proof.
  intros Hop Hxf Hyf Hf HI Hfit Hvx Hvy.
  destruct (draw_effect rnd opcode s vx vy) as (s' & He & Hd & Hfl); try assumption.
  pose proof (nibble_range opcode) as Hn.
  exists s', (sprite_hits vx vy (memory s) (I s) (Z.land opcode 0xF)).
  destruct Hd as (_ & _ & _ & _ & Hd).
  split; [assumption|]. split; [intros p; apply sprite_hits_In|].
  split; [|split].
  - intros p Hp. rewrite Hd. apply cell_blit_in; [|assumption].
    apply sprite_hits_NoDup. lia.
  - intros p Hp. rewrite Hd. now apply cell_blit_out.
  - exact Hfl.
Qed.

Lemma draw_flips_and_flags_witness :
  exists s' hits,
    execute 0 0xD125 power_on = Ok tt s' /\
    (forall p,
       In p hits <->
       exists row col sprite,
         0 <= row < Z.land 0xD125 0xF /\ 0 <= col < 8 /\
         Py.getitem (memory power_on) (I power_on + row) = Some sprite /\
         Py.truthy (Z.land sprite (Z.shiftr 0x80 col)) = true /\
         p = (Z.to_nat ((0 + row) mod 32), Z.to_nat ((0 + col) mod 64))) /\
    (forall p, In p hits ->
       cell (display s') p
       = option_map (fun v => Z.lxor v 1) (cell (display power_on) p)) /\
    (forall p, ~ In p hits -> cell (display s') p = cell (display power_on) p) /\
    reg s' 0xF = Some (if existsb (lit (display power_on)) hits then 1 else 0).
Proof.
  apply (draw_flips_and_flags 0 0xD125 power_on 0 0);
    first [reflexivity | discriminate | apply (valid_frame _ power_on_valid)
          | cbn; lia].
Defined.

Lemma lookup_repeat {A} (x : A) n i : (i < n)%nat -> repeat x n !! i = Some x.
Proof.
  revert i. induction n as [|n IH]; intros [|i] Hi; try lia; [reflexivity|].
  cbn. apply IH. lia.
Qed.

Lemma blank_cell p :
  cell blank_display p
  = if (fst p <? 32)%nat && (snd p <? 64)%nat then Some 0 else None.
Proof.
  unfold cell, blank_display.
  destruct (Nat.ltb_spec (fst p) 32) as [Hr|Hr].
  - rewrite lookup_repeat by assumption.
    destruct (Nat.ltb_spec (snd p) 64) as [Hc|Hc].
    + now rewrite lookup_repeat.
    + apply lookup_ge_None. now rewrite repeat_length.
  - rewrite (proj2 (lookup_ge_None _ _)); [reflexivity|].
    now rewrite repeat_length.
Qed.

(** Clear-screen (00E0) followed by a draw: exactly the pixels under the
    set bits of the sprite are on, every other pixel is off, and the draw
    reports no collision. *)
Theorem clear_then_draw rnd1 rnd2 opcode s vx vy :
  Z.shiftr opcode 12 = 0xD ->
  op_x opcode <> 0xF -> op_y opcode <> 0xF ->
  length (V s) = 16%nat -> 0 <= I s ->
  I s + Z.land opcode 0xF <= Z.of_nat (length (memory s)) ->
  reg s (op_x opcode) = Some vx ->
  reg s (op_y opcode) = Some vy ->
  exists s1 s2,
    execute rnd1 0x00E0 s = Ok tt s1 /\
    execute rnd2 opcode s1 = Ok tt s2 /\
    (forall r c, (r < 32)%nat -> (c < 64)%nat ->
       (In (r, c) (sprite_hits vx vy (memory s) (I s) (Z.land opcode 0xF)) ->
        cell (display s2) (r, c) = Some 1) /\
       (~ In (r, c) (sprite_hits vx vy (memory s) (I s) (Z.land opcode 0xF)) ->
        cell (display s2) (r, c) = Some 0)) /\
    reg s2 0xF = Some 0.
Proof.
  intros Hop Hxf Hyf HV HI Hfit Hvx Hvy.
  pose proof (nibble_range opcode) as Hn.
  set (s1 := set_PC (PC s + 2) (set_draw_flag true (set_display blank_display s))).
  assert (Hf1 : frame s1 s1).
  { unfold frame, s1. proj_simpl.
    auto using blank_display_length, blank_display_rows. }
  destruct (draw_effect rnd2 opcode s1 vx vy) as (s2 & He & Hd & Hfl);
    try assumption.
  exists s1, s2. split; [reflexivity|]. split; [assumption|].
  destruct Hd as (_ & _ & _ & _ & Hd). unfold flagged in Hfl.
  change (memory s1) with (memory s) in *. change (I s1) with (I s) in *.
  change (display s1) with blank_display in *.
  split.
  - intros r c Hr Hc.
    assert (Hb : cell blank_display (r, c) = Some 0).
    { rewrite blank_cell. cbn [fst snd].
      destruct (Nat.ltb_spec r 32), (Nat.ltb_spec c 64); try lia. reflexivity. }
    split; intros Hin; rewrite Hd.
    + rewrite cell_blit_in; [now rewrite Hb|apply sprite_hits_NoDup; lia|assumption].
    + now rewrite cell_blit_out.
  - rewrite Hfl.
    assert (Hno : existsb (lit blank_display)
                    (sprite_hits vx vy (memory s) (I s) (Z.land opcode 0xF)) = false).
    { apply not_true_is_false. intros (p & _ & Hp)%existsb_exists.
      unfold lit in Hp. rewrite blank_cell in Hp.
      destruct ((fst p <? 32)%nat && (snd p <? 64)%nat); discriminate. }
    now rewrite Hno.
Qed.

Lemma clear_then_draw_witness :
  exists s1 s2,
    execute 0 0x00E0 power_on = Ok tt s1 /\
    execute 0 0xD125 s1 = Ok tt s2 /\
    (forall r c, (r < 32)%nat -> (c < 64)%nat ->
       (In (r, c) (sprite_hits 0 0 (memory power_on) (I power_on) (Z.land 0xD125 0xF)) ->
        cell (display s2) (r, c) = Some 1) /\
       (~ In (r, c) (sprite_hits 0 0 (memory power_on) (I power_on) (Z.land 0xD125 0xF)) ->
        cell (display s2) (r, c) = Some 0)) /\
    reg s2 0xF = Some 0.
Proof.
  apply (clear_then_draw 0 0 0xD125 power_on 0 0);
    first [reflexivity | discriminate | cbn; lia].
Defined.
